(** * FileTools: the two-pass video compressor (videocompression2.py)

    A shallow embedding of [VideoCompressor] and [main] and the properties
    of its resolution planning, bitrate budget, progress monitoring,
    pass orchestration and cleanup.

    Conventions of the embedding.
    - A Python [int] is a [Z].  A Python [float] is an IEEE-754 binary64
      value, taken from the Standard Library's [SpecFloat] with precision
      53 and maximal exponent 1024; every operation rounds to nearest
      even, as CPython's does.
    - A Python [str] is a [string]; its characters are the code points
      below 256.  On those, the regular-expression class [\d] is exactly
      the ten characters 0..9.
    - [None] or a string is an [option string].
    - The file system is a finite map from paths to sizes in bytes.
    - ffprobe, ffmpeg, the wall clock and the terminal are the environment:
      their behaviour is a parameter of the functions that use them.  So
      are the command line as argparse reads it and the prompt, which can
      fail instead of returning an answer.
    - The interpreter is CPython 3.11: [int] refuses texts of more than
      4300 digits. *)

From Stdlib Require Import ZArith Lia String Ascii List Bool.
From Stdlib Require Import Floats.SpecFloat.
From Stdlib Require DecimalString.
From stdpp Require Import gmap strings.

Local Open Scope string_scope.
Local Open Scope Z_scope.

(** ** Python floats *)

Module PyFloat.

Definition prec : Z := 53.
Definition emax : Z := 1024.

Definition float : Type := spec_float.

Definition fadd : float -> float -> float := SFadd prec emax.
Definition fsub : float -> float -> float := SFsub prec emax.
Definition fmul : float -> float -> float := SFmul prec emax.
Definition fdiv : float -> float -> float := SFdiv prec emax.
Definition fabs : float -> float := SFabs.
Definition flt : float -> float -> bool := SFltb.
Definition fle : float -> float -> bool := SFleb.

Definition fzero : float := S754_zero false.

(** [float(n)] for an [int] [n]: rounded to nearest even; the conversion
    overflows (OverflowError) when the rounded value is out of range. *)
Definition of_int (n : Z) : option float :=
  match binary_normalize prec emax n 0 false with
  | S754_infinity _ => None
  | f => Some f
  end.

(** The conversion of an [int] that is known to be in range. *)
Definition lit (n : Z) : float := binary_normalize prec emax n 0 false.

(** The float nearest to [m / 10^k]: a decimal literal or a decimal
    string with [k] digits after the point.  The division rounds once. *)
Definition of_decimal (m : N) (k : nat) : float :=
  match m with
  | N0 => fzero
  | Npos p =>
      fdiv (S754_finite false p 0)
           (S754_finite false (Z.to_pos (10 ^ Z.of_nat k)) 0)
  end.

(** [int(x)]: truncation toward zero; [None] for an infinity
    (OverflowError) or a NaN (ValueError). *)
Definition trunc (x : float) : option Z :=
  match x with
  | S754_zero _ => Some 0
  | S754_finite s m e =>
      let a := match e with
               | Zneg d => Z.shiftr (Zpos m) (Zpos d)
               | _ => Z.shiftl (Zpos m) e
               end in
      Some (if s then - a else a)
  | _ => None
  end.

Definition is_nan (x : float) : bool :=
  match x with S754_nan => true | _ => false end.

(** Python's [min(a, b)]: [b] when [b < a], else [a]. *)
Definition pmin (a b : float) : float := if flt b a then b else a.

End PyFloat.

(** ** Python strings: the operations the compressor uses *)

Module PyStr.

Definition is_digit (c : ascii) : bool :=
  let n := N_of_ascii c in ((48 <=? n) && (n <=? 57))%N.

Definition digit_val (c : ascii) : Z := Z.of_N (N_of_ascii c) - 48.

(** Characters [str.strip()] and [int()] drop at both ends. *)
Definition is_space (c : ascii) : bool :=
  let n := N_of_ascii c in
  (((9 <=? n) && (n <=? 13)) || ((28 <=? n) && (n <=? 32))
   || (n =? 133) || (n =? 160))%N.

Definition newline : ascii := ascii_of_nat 10.

(** The longest prefix of digits, and what follows it: what a greedy
    [\d+] consumes when the next pattern item is not a digit. *)
Fixpoint span_digits (s : string) : string * string :=
  match s with
  | String c r =>
      if is_digit c
      then let '(d, t) := span_digits r in (String c d, t)
      else (EmptyString, s)
  | EmptyString => (EmptyString, EmptyString)
  end.

Definition all_digits (s : string) : bool :=
  forallb is_digit (list_ascii_of_string s).

(** The value of a run of decimal digits, most significant first. *)
Definition digits_value (s : string) : Z :=
  fold_left (fun acc c => 10 * acc + digit_val c) (list_ascii_of_string s) 0.

Fixpoint lstrip (s : string) : string :=
  match s with
  | String c r => if is_space c then lstrip r else s
  | EmptyString => EmptyString
  end.

Definition rev_string (s : string) : string :=
  string_of_list_ascii (rev (list_ascii_of_string s)).

Definition strip (s : string) : string :=
  rev_string (lstrip (rev_string (lstrip s))).

(** [sys.int_info.default_max_str_digits]: the interpreter (CPython 3.11,
    and the security releases of 3.7 to 3.10) refuses to convert a text
    of more decimal digits than this to an [int]. *)
Definition int_max_str_digits : nat := 4300.

(** [int(s)] on the texts that reach it here: an unsigned run of digits,
    white space allowed around it, of at most [int_max_str_digits] digits
    (leading zeros count).  Any other text is a ValueError ([None]); signs
    and digit separators, which Python also reads, never occur in a
    validated resolution. *)
Definition int_of_string (s : string) : option Z :=
  let t := strip s in
  if negb (t =? "")%string && all_digits t
     && (String.length t <=? int_max_str_digits)%nat
  then Some (digits_value t) else None.

(** [s.split(sep)] for a one-character separator. *)
Fixpoint split_on (sep : ascii) (s : string) : list string :=
  match s with
  | EmptyString => [EmptyString]
  | String c r =>
      if Ascii.eqb c sep then EmptyString :: split_on sep r
      else match split_on sep r with
           | h :: t => String c h :: t
           | [] => [String c EmptyString]
           end
  end.

(** [f"{n}"] for an [int].  The numbers formatted here come from [int()]
    of a text or from the truncation of a float, and have fewer digits
    than the conversion's limit. *)
Definition of_int (n : Z) : string :=
  DecimalString.NilZero.string_of_int (Z.to_int n).

(** [prefix in s] at the head of [s]: the rest after a literal prefix. *)
Fixpoint strip_prefix (p s : string) : option string :=
  match p, s with
  | EmptyString, _ => Some s
  | String a p', String b s' => if Ascii.eqb a b then strip_prefix p' s' else None
  | String _ _, EmptyString => None
  end.

End PyStr.

(** ** Resolution planning *)

(** [VideoCompressor.RESOLUTION_PRESETS] *)
Definition RESOLUTION_PRESETS : gmap string string :=
  list_to_map
    [ ("144p", "256x144"); ("240p", "426x240"); ("360p", "640x360");
      ("480p", "854x480"); ("720p", "1280x720"); ("1080p", "1920x1080") ].

(** Truth value of [None] or a string: [None] and [""] are false. *)
Definition truthy (r : option string) : bool :=
  match r with
  | Some s => negb (s =? "")%string
  | None => false
  end.

(** [re.match(r'^\d+x\d+$', s)]: digits, an [x], digits, and then the end
    of the string or one final newline (which [$] lets pass). *)
Definition match_WxH (s : string) : bool :=
  let '(w, r1) := PyStr.span_digits s in
  match w, r1 with
  | String _ _, String c r2 =>
      if Ascii.eqb c "x" then
        let '(h, r3) := PyStr.span_digits r2 in
        match h with
        | String _ _ =>
            (r3 =? "")%string || (r3 =? String PyStr.newline EmptyString)%string
        | EmptyString => false
        end
      else false
  | _, _ => false
  end.

(** [VideoCompressor._normalize_resolution] *)
Definition _normalize_resolution (res_str : option string) (target_size : Z)
  : option string :=
  match res_str ≫= (RESOLUTION_PRESETS !!.) with
  | Some wh => Some wh
  | None =>
      if negb (truthy res_str) then
        if target_size <=? 5 then Some (RESOLUTION_PRESETS !!! "144p")
        else if target_size <=? 15 then Some (RESOLUTION_PRESETS !!! "240p")
        else if target_size <=? 50 then Some (RESOLUTION_PRESETS !!! "360p")
        else if target_size <=? 100 then Some (RESOLUTION_PRESETS !!! "480p")
        else res_str
      else res_str
  end.

(** ** Exceptions *)

Inductive exn : Type :=
| KeyboardInterrupt
| SystemExit (code : Z)
| InvalidResolutionFormat (res : string)        (* ValueError *)
| InvalidDuration                                (* ValueError *)
| BadLiteral (text : string)                     (* ValueError, from int() *)
| NotAnInteger                                   (* ValueError, int(nan) *)
| UnpackError                                    (* ValueError *)
| ProbeFailed (stderr : string)                  (* RuntimeError *)
| FFmpegFailed (code : Z) (tail : option string) (* RuntimeError *)
| OutputNotCreated                               (* RuntimeError *)
| NoneHasNoSplit                                 (* AttributeError *)
| ZeroDivisionError
| OverflowError
| TimeoutExpired
| EOFError.

(** [isinstance(e, Exception)]: what an [except Exception] clause catches.
    KeyboardInterrupt and SystemExit derive from BaseException only. *)
Definition is_Exception (e : exn) : bool :=
  match e with
  | KeyboardInterrupt | SystemExit _ => false
  | _ => true
  end.

(** ** The compressor object *)

Record VideoCompressor : Type := {
  input_path : string;
  output_path : string;
  target_size_mb : Z;
  verbose : bool;
  resolution : option string
}.

(** [VideoCompressor.__init__].  Paths are kept as given: resolving them
    is the file system's business and changes nothing below. *)
Definition __init__ (input output : string) (target_size : Z)
    (requested : option string) (verb : bool) : exn + VideoCompressor :=
  let res := _normalize_resolution requested target_size in
  match res with
  | Some r =>
      if truthy res && negb (match_WxH r)
      then inl (InvalidResolutionFormat r)
      else inr {| input_path := input; output_path := output;
                  target_size_mb := target_size; verbose := verb;
                  resolution := res |}
  | None =>
      inr {| input_path := input; output_path := output;
             target_size_mb := target_size; verbose := verb;
             resolution := res |}
  end.

(** ** The world around the compressor *)

Import PyFloat.

(** What the program shows: lines printed and progress-bar updates.
    Numbers that a format string would render are kept as numbers. *)
Inductive event : Type :=
| Print (text : string)
| ErrorLine (e : exn)                              (* "Error: ..." *)
| CriticalError (e : exn)                          (* "CRITICAL ERROR: ..." *)
| SourceVideo (res : string) (duration : float)
| TargetSize (mb : Z)
| AutoSelected (mb : Z) (res : option string)
| UsingSpecified (res : string)
| FloorWarning (min_kbps : Z)
| AdjustedTarget (actual_size_mb : float) (was : Z)
| CalculatedBitrates (video_kbps audio_kbps : Z)
| ContainerOverhead (percent overhead_mb : float)
| Executing (cmd : list string)
| PassHeader (description : string) (duration : float)
| BarOpen (description : string) (total : float)
| BarSet (n : float) (speed : option float)        (* pbar.n = n ... refresh() *)
| BarClose
| StatusLine (description : string) (current_time : float) (progress : Z)
             (speed : float)
| Interrupting
| FinalSize (mb : float)
| SavedTo (path : string)
| SizeAccuracy (percent : float)
| SizeWarning (size_diff : float) (res : option string)
| Traceback.

(** One run of an external encoder process, as the compressor sees it. *)
Record process : Type := {
  p_stderr : list string;         (* the diagnostic stream, line by line *)
  p_interrupt : option nat;       (* Ctrl+C once that many lines were read *)
  p_writes : gmap string N -> gmap string N;  (* its effect on the files *)
  p_returncode : Z;
  p_exits_in_time : bool          (* has exited when wait(timeout=10) ends *)
}.

(** What [input()] raises when it does not return. *)
Inductive prompt_failure : Type :=
| EndOfInput            (* EOFError: standard input is closed or empty *)
| PromptInterrupted.    (* KeyboardInterrupt: Ctrl+C at the prompt *)

Definition prompt_exn (f : prompt_failure) : exn :=
  match f with
  | EndOfInput => EOFError
  | PromptInterrupted => KeyboardInterrupt
  end.

Record env : Type := {
  TQDM_AVAILABLE : bool;
  os_nt : bool;                                   (* os.name == 'nt' *)
  now : nat -> float;                             (* k-th reading of time.time() *)
  which : string -> bool;                         (* shutil.which(tool) is not None *)
  answer : string;                                (* what input() returns *)
  prompt_error : option prompt_failure;           (* input() raises instead *)
  ffprobe : exn + (float * (Z * Z));              (* duration, width, height *)
  ffmpeg : list string -> gmap string N -> process
}.

Record world : Type := {
  files : gmap string N;          (* existing paths and their sizes *)
  shown : list event;             (* oldest first *)
  ticks : nat;                    (* calls of time.time() so far *)
  spawned : list (list string);   (* encoder argument vectors, oldest first *)
  probed : nat;                   (* ffprobe runs *)
  killed : nat                    (* process groups terminated *)
}.

Inductive outcome (A : Type) : Type :=
| Ok (a : A)
| Raise (e : exn).
Arguments Ok {A} a.
Arguments Raise {A} e.

(** Computations that read and change the world and may raise. *)
Definition M (A : Type) : Type := world -> outcome A * world.

#[global] Instance M_ret : MRet M := fun A a w => (Ok a, w).
#[global] Instance M_bind : MBind M := fun A B f m w =>
  match m w with
  | (Ok a, w') => f a w'
  | (Raise e, w') => (Raise e, w')
  end.

Definition raise {A : Type} (e : exn) : M A := fun w => (Raise e, w).

Definition lift {A : Type} (r : exn + A) : M A :=
  match r with inl e => raise e | inr a => mret a end.

Definition opt {A : Type} (e : exn) (o : option A) : M A :=
  match o with Some a => mret a | None => raise e end.

(** [try: body except <those e with handles e>: handler e] *)
Definition try_except {A : Type} (body : M A) (handles : exn -> bool)
    (handler : exn -> M A) : M A := fun w =>
  match body w with
  | (Raise e, w') => if handles e then handler e w' else (Raise e, w')
  | r => r
  end.

(** [try: body finally: final]; an exception of [final] replaces the
    outcome of [body]. *)
Definition try_finally {A : Type} (body : M A) (final : M unit) : M A := fun w =>
  let '(r, w') := body w in
  match final w' with
  | (Ok _, w'') => (r, w'')
  | (Raise e, w'') => (Raise e, w'')
  end.

Definition show (e : event) : M unit := fun w =>
  (Ok tt, {| files := files w; shown := (shown w ++ [e])%list; ticks := ticks w;
             spawned := spawned w; probed := probed w; killed := killed w |}).

Definition exists_ (path : string) : M bool := fun w =>
  (Ok (bool_decide (is_Some (files w !! path))), w).

(** [Path.stat().st_size]; a missing path is not reached by the callers. *)
Definition st_size (path : string) : M N := fun w =>
  (Ok (default 0%N (files w !! path)), w).

Definition unlink (path : string) : M unit := fun w =>
  (Ok tt, {| files := delete path (files w); shown := shown w; ticks := ticks w;
             spawned := spawned w; probed := probed w; killed := killed w |}).

Definition probing : M unit := fun w =>
  (Ok tt, {| files := files w; shown := shown w; ticks := ticks w;
             spawned := spawned w; probed := S (probed w);
             killed := killed w |}).

Definition kill_group : M unit := fun w =>
  (Ok tt, {| files := files w; shown := shown w; ticks := ticks w;
             spawned := spawned w; probed := probed w; killed := S (killed w) |}).

Section Environment.

Context (E : env).

(** [time.time()] *)
Definition time_time : M float := fun w =>
  (Ok (now E (ticks w)),
   {| files := files w; shown := shown w; ticks := S (ticks w);
      spawned := spawned w; probed := probed w; killed := killed w |}).

(** [subprocess.Popen(cmd, ...)]: the process runs; what it writes is on
    disk by the time the compressor next looks. *)
Definition Popen (cmd : list string) : M process := fun w =>
  let p := ffmpeg E cmd (files w) in
  (Ok p, {| files := p_writes p (files w); shown := shown w; ticks := ticks w;
            spawned := (spawned w ++ [cmd])%list; probed := probed w; killed := killed w |}).

End Environment.

(** ** Progress parsing *)

(** [float(s)] on the texts that reach it here, a run of digits with an
    optional fraction; other texts are a ValueError ([None]).  Python's
    conversion is correctly rounded, and so is this one. *)
Definition float_of_string (s : string) : option float :=
  let '(i, r) := PyStr.span_digits s in
  match i, r with
  | String _ _, EmptyString =>
      Some (of_decimal (Z.to_N (PyStr.digits_value i)) 0)
  | String _ _, String c f =>
      if Ascii.eqb c "." && negb (f =? "")%string && PyStr.all_digits f
      then Some (of_decimal (Z.to_N (PyStr.digits_value (i +:+ f)))
                            (String.length f))
      else None
  | EmptyString, _ => None
  end.

(** [VideoCompressor._parse_time] *)
Definition _parse_time (time_str : string) : float :=
  match PyStr.split_on ":" time_str with
  | p0 :: p1 :: p2 :: _ =>
      match float_of_string p0, float_of_string p1, float_of_string p2 with
      | Some hours, Some minutes, Some seconds =>
          fadd (fadd (fmul hours (lit 3600)) (fmul minutes (lit 60))) seconds
      | _, _, _ => fzero                              (* ValueError *)
      end
  | _ => fzero                                        (* IndexError *)
  end.

(** The pattern [time=(\d+:\d+:\d+\.\d+)] matched at the head of [s];
    the result is group 1. *)
Definition match_time_at (s : string) : option string :=
  r0 ← PyStr.strip_prefix "time=" s;
  let '(h, r1) := PyStr.span_digits r0 in
  r2 ← (if (h =? "")%string then None else PyStr.strip_prefix ":" r1);
  let '(m, r3) := PyStr.span_digits r2 in
  r4 ← (if (m =? "")%string then None else PyStr.strip_prefix ":" r3);
  let '(sec, r5) := PyStr.span_digits r4 in
  r6 ← (if (sec =? "")%string then None else PyStr.strip_prefix "." r5);
  let '(frac, _) := PyStr.span_digits r6 in
  if (frac =? "")%string then None
  else Some (h +:+ ":" +:+ m +:+ ":" +:+ sec +:+ "." +:+ frac).

(** [re.search(r'time=(\d+:\d+:\d+\.\d+)', line)]: the leftmost match. *)
Fixpoint search_time (line : string) : option string :=
  match match_time_at line with
  | Some g => Some g
  | None =>
      match line with
      | String _ rest => search_time rest
      | EmptyString => None
      end
  end.

(** ['time=' in line] *)
Fixpoint contains_time (line : string) : bool :=
  match PyStr.strip_prefix "time=" line with
  | Some _ => true
  | None =>
      match line with
      | String _ rest => contains_time rest
      | EmptyString => false
      end
  end.

(** [int(x)] *)
Definition int_of_float (x : float) : M Z :=
  match trunc x with
  | Some n => mret n
  | None => raise (if is_nan x then NotAnInteger else OverflowError)
  end.

Section Monitor.

Context (E : env).

(** The body of the monitoring loop for one line that carries a time
    marker.  [bar] tells whether a progress bar is shown; the result is
    the new [last_time]. *)
Definition report_progress (bar : bool) (duration : float)
    (description : string) (start_time last_time current_time : float)
  : M float :=
  if bar then
    t ← time_time E;
    let elapsed := fsub t start_time in
    show (BarSet (pmin current_time duration)
                 (if flt fzero elapsed
                  then Some (fdiv current_time elapsed) else None));;
    mret last_time
  else
    t1 ← time_time E;
    if fle (lit 1) (fsub t1 last_time) then
      t2 ← time_time E;
      let elapsed := fsub t2 start_time in
      let speed := if flt fzero elapsed then fdiv current_time elapsed
                   else fzero in
      progress ← (if flt fzero duration
                  then p ← int_of_float (fmul (fdiv current_time duration)
                                              (lit 100));
                       mret (Z.min 100 p)
                  else mret 0);
      show (StatusLine description current_time progress speed);;
      time_time E
    else mret last_time.

(** The loop [while True: line = process.stderr.readline() ...] over the
    lines the process still has to deliver.  [budget] counts the lines
    read before the user interrupts, when they do.  The result is what is
    left unread on the stream when the loop ends. *)
Fixpoint read_lines (bar : bool) (duration : float) (description : string)
    (start_time : float) (lines : list string) (budget : option nat)
    (last_time : float) : M (list string) :=
  match budget, lines with
  | Some O, _ => raise KeyboardInterrupt
  | Some (S _), [] => raise KeyboardInterrupt
  | None, [] => mret []
  | _, line :: rest =>
      last_time' ←
        (if contains_time line then
           match search_time line with
           | Some g =>
               report_progress bar duration description start_time
                               last_time (_parse_time g)
           | None => mret last_time
           end
         else mret last_time);
      read_lines bar duration description start_time rest
                 (Nat.pred <$> budget) last_time'
  end.

(** [process.wait(timeout=10)] *)
Definition wait_timeout (p : process) : M unit :=
  if p_exits_in_time p then mret tt else raise TimeoutExpired.

(** [VideoCompressor._run_ffmpeg] *)
Definition _run_ffmpeg (self : VideoCompressor) (cmd : list string)
    (duration : float) (description : string) : M unit :=
  if verbose self then
    show (Executing cmd);;
    p ← Popen E cmd;
    (* process.wait(): a Ctrl+C while waiting surfaces here *)
    (if p_interrupt p is Some _ then raise KeyboardInterrupt else mret tt);;
    if negb (p_returncode p =? 0)
    then raise (FFmpegFailed (p_returncode p) None)
    else mret tt
  else
    let use_tqdm := TQDM_AVAILABLE E && flt (lit 5) duration in
    let bar := use_tqdm && flt fzero duration in
    start_time ← time_time E;
    (if bar then show (BarOpen description duration)
     else show (PassHeader description duration));;
    p ← Popen E cmd;
    unread ←
      try_finally
        (try_except
           (read_lines bar duration description start_time
                       (p_stderr p) (p_interrupt p) fzero)
           (fun e => if e is KeyboardInterrupt then true else false)
           (fun e => show Interrupting;; kill_group;; raise e))
        (wait_timeout p;;
         if bar then show BarClose
         else if negb (verbose self) then show (Print "") else mret tt);
    if negb ((p_returncode p =? 0) || (p_returncode p =? 255))
    then raise (FFmpegFailed (p_returncode p)
                             (Some (PyStr.strip (String.concat "" unread))))
    else mret tt.

End Monitor.

(** ** The bitrate budget *)

(** The numbers computed in [compress] from "Calculate bitrates" to the
    floor on the video bits. *)
Record budget : Type := {
  total_bits : Z;
  audio_bitrate_kbps : Z;
  overhead_percent : float;
  overhead_bits : float;
  audio_total_bits : float;
  video_total_bits : float;          (* after the floor was applied *)
  adjusted : option float            (* the re-computed size, when floored *)
}.

Definition MIN_VIDEO_BITRATE : Z := 50000.

(** [a / b] for two [int]s, [b > 0]: rounded once. *)
Definition int_true_div (a : N) (b : positive) : outcome float :=
  match a with
  | N0 => Ok fzero
  | Npos p =>
      match fdiv (S754_finite false p 0) (S754_finite false b 0) with
      | S754_infinity _ => Raise OverflowError
      | q => Ok q
      end
  end.

Definition bitrate_budget (target_size_mb : Z) (duration : float)
  : outcome budget :=
  let total_bits := target_size_mb * 8388608 in
  let audio_bitrate_kbps :=
    if target_size_mb <=? 10 then 64
    else if target_size_mb <=? 50 then 96 else 128 in
  let audio_bitrate_bps := audio_bitrate_kbps * 1000 in
  let overhead_percent :=
    if target_size_mb <=? 20 then of_decimal 5 2
    else if target_size_mb <=? 50 then of_decimal 3 2 else of_decimal 1 2 in
  match of_int total_bits with
  | None => Raise OverflowError
  | Some total_bits_f =>
      let overhead_bits := fmul total_bits_f overhead_percent in
      let audio_total_bits := fmul (lit audio_bitrate_bps) duration in
      let video_total_bits :=
        fsub (fsub total_bits_f audio_total_bits) overhead_bits in
      let min_video_bits := fmul (lit MIN_VIDEO_BITRATE) duration in
      let floored := flt video_total_bits min_video_bits in
      let video_total_bits' :=
        if floored then min_video_bits else video_total_bits in
      Ok {| total_bits := total_bits;
            audio_bitrate_kbps := audio_bitrate_kbps;
            overhead_percent := overhead_percent;
            overhead_bits := overhead_bits;
            audio_total_bits := audio_total_bits;
            video_total_bits := video_total_bits';
            adjusted :=
              if floored
              then Some (fdiv (fadd (fadd video_total_bits' audio_total_bits)
                                    overhead_bits)
                              (lit 8388608))
              else None |}
  end.

(** [video_bitrate_bps = video_total_bits / duration] and
    [video_bitrate_kbps = int(video_bitrate_bps / 1000)] *)
Definition video_bitrate_kbps (b : budget) (duration : float) : outcome Z :=
  match duration with
  | S754_zero _ => Raise ZeroDivisionError
  | _ =>
      let video_bitrate_bps := fdiv (video_total_bits b) duration in
      match trunc (fdiv video_bitrate_bps (lit 1000)) with
      | Some kbps => Ok kbps
      | None =>
          Raise (if is_nan (fdiv video_bitrate_bps (lit 1000))
                 then NotAnInteger else OverflowError)
      end
  end.

(** ** Command building *)

(** [width, height = map(int, target_res.split('x'))] *)
Definition unpack_WxH (res : string) : outcome (Z * Z) :=
  match PyStr.split_on "x" res with
  | [] => Raise UnpackError
  | a :: t =>
      match PyStr.int_of_string a with
      | None => Raise (BadLiteral a)
      | Some w =>
          match t with
          | [] => Raise UnpackError
          | b :: t' =>
              match PyStr.int_of_string b with
              | None => Raise (BadLiteral b)
              | Some h =>
                  match t' with
                  | [] => Ok (w, h)
                  | c :: _ =>
                      match PyStr.int_of_string c with
                      | None => Raise (BadLiteral c)
                      | Some _ => Raise UnpackError
                      end
                  end
              end
          end
      end
  end.

Definition scale_cmd (width height : Z) : string :=
  let w := PyStr.of_int width in
  let h := PyStr.of_int height in
  "scale='min(" +:+ w +:+ ",iw*" +:+ h +:+ "/ih)':'min(" +:+ h +:+ ",ih*"
    +:+ w +:+ "/iw)',pad=" +:+ w +:+ ":" +:+ h +:+ ":(ow-iw)/2:(oh-ih)/2".

(** [cmd_base], with the scaling filter when the resolutions differ.
    [target_res] may be [None]; the comparison with a string is then true
    and [None.split] raises AttributeError.  The source also reads the two
    numbers of [original_res] back; they were formatted from two [int]s,
    reading them cannot fail, and they are not used. *)
Definition cmd_base (self : VideoCompressor) (target_res : option string)
    (original_res : string) : outcome (list string) :=
  let base :=
    [ "ffmpeg"; "-y"; "-i"; input_path self; "-c:v"; "libx264";
      "-preset"; "slow"; "-profile:v";
      (if target_size_mb self <=? 50 then "baseline" else "main");
      "-pix_fmt"; "yuv420p"; "-movflags"; "+faststart" ] in
  if bool_decide (target_res ≠ Some original_res) then
    match target_res with
    | None => Raise NoneHasNoSplit
    | Some res =>
        match unpack_WxH res with
        | Raise e => Raise e
        | Ok (width, height) => Ok (base ++ ["-vf"; scale_cmd width height])%list
        end
    end
  else Ok base.

Definition kbps_arg (n : Z) : string := PyStr.of_int n +:+ "k".

Definition pass1_cmd (base : list string) (video_kbps : Z) (nt : bool)
  : list string :=
  (base ++ [ "-b:v"; kbps_arg video_kbps; "-pass"; "1";
             "-passlogfile"; "ffmpeg2pass"; "-an"; "-f"; "null";
             (if nt then "NUL" else "/dev/null") ])%list.

Definition pass2_cmd (base : list string) (video_kbps audio_kbps : Z)
    (output : string) : list string :=
  (base ++ [ "-b:v"; kbps_arg video_kbps;
             "-maxrate:v"; kbps_arg (video_kbps * 2);
             "-bufsize:v"; kbps_arg (video_kbps * 4);
             "-pass"; "2"; "-passlogfile"; "ffmpeg2pass";
             "-c:a"; "aac"; "-b:a"; kbps_arg audio_kbps; output ])%list.

(** ** Pass-log cleanup *)

(** The paths the cleanup of [compress] tries: [Path(f'ffmpeg2pass{ext}')]
    for [ext] in ['', '.mbtree']. *)
Definition passlog_files : list string := ["ffmpeg2pass"; "ffmpeg2pass.mbtree"].

(** The files ffmpeg keeps for [-passlogfile prefix] during a two-pass
    encode of the first video stream: the log PREFIX-0.log of its rate
    control and the macroblock-tree statistics of libx264 beside it. *)
Definition encoder_passlogs (prefix : string) : list string :=
  [prefix +:+ "-0.log"; prefix +:+ "-0.log.mbtree"].

(** [for ext in ['', '.mbtree']: ... if logfile.exists(): logfile.unlink()] *)
Fixpoint cleanup_passlogs (logs : list string) : M unit :=
  match logs with
  | [] => mret tt
  | logfile :: rest =>
      present ← exists_ logfile;
      (if present : bool then unlink logfile else mret tt);;
      cleanup_passlogs rest
  end.

Definition lift_outcome {A : Type} (r : outcome A) : M A := fun w => (r, w).

Section Compress.

Context (E : env).

(** [VideoCompressor._get_stream_info]: two ffprobe calls, which belong to
    the environment; the resolution is formatted from the two integers. *)
Definition _get_stream_info (self : VideoCompressor) : M (float * string) :=
  probing;;
  match ffprobe E with
  | inl e => raise e
  | inr (duration, (width, height)) =>
      mret (duration, PyStr.of_int width +:+ "x" +:+ PyStr.of_int height)
  end.

(** The [try: ... except Exception: ... raise] block around the passes. *)
Definition two_pass (self : VideoCompressor) (cmd1 cmd2 : list string)
    (duration : float) : M unit :=
  try_except
    (_run_ffmpeg E self cmd1 duration "Analysis Pass";;
     _run_ffmpeg E self cmd2 duration "Encoding Pass";;
     cleanup_passlogs passlog_files)
    is_Exception
    (fun e => cleanup_passlogs passlog_files;; raise e).

(** "Verify output" and the size accuracy report. *)
Definition verify_output (self : VideoCompressor) (target_res : option string)
  : M unit :=
  present ← exists_ (output_path self);
  if negb (present : bool) then raise OutputNotCreated
  else
    size ← st_size (output_path self);
    final_size_mb ← lift_outcome (int_true_div size 1048576);
    show (FinalSize final_size_mb);;
    show (SavedTo (output_path self));;
    target ← opt OverflowError (of_int (target_size_mb self));
    let size_diff := fabs (fsub final_size_mb target) in
    (if target_size_mb self =? 0 then raise ZeroDivisionError else mret tt);;
    show (SizeAccuracy
            (fsub (lit 100) (fmul (fdiv size_diff target) (lit 100))));;
    if flt (fmul target (of_decimal 1 1)) size_diff then
      show (SizeWarning size_diff target_res);;
      show (Print "- Lowering target size parameter to compensate for overhead");;
      show (Print "- Using --verbose mode to diagnose encoding issues")
    else mret tt.

(** [VideoCompressor.compress] *)
Definition compress (self : VideoCompressor) : M unit :=
  '(duration, original_res) ←
    try_except
      ('(duration, original_res) ← _get_stream_info self;
       if fle duration fzero then raise InvalidDuration
       else mret (duration, original_res))
      is_Exception
      (fun e => show (ErrorLine e);; raise (SystemExit 1));
  show (SourceVideo original_res duration);;
  show (TargetSize (target_size_mb self));;
  target_res ←
    (if truthy (resolution self) then
       show (UsingSpecified (default "" (resolution self)));;
       mret (resolution self)
     else
       let r := _normalize_resolution None (target_size_mb self) in
       show (AutoSelected (target_size_mb self) r);;
       mret r);
  b ← lift_outcome (bitrate_budget (target_size_mb self) duration);
  (if adjusted b is Some actual_size_mb then
     show (FloorWarning (MIN_VIDEO_BITRATE / 1000));;
     show (AdjustedTarget actual_size_mb (target_size_mb self))
   else mret tt);;
  kbps ← lift_outcome (video_bitrate_kbps b duration);
  show (CalculatedBitrates kbps (audio_bitrate_kbps b));;
  show (ContainerOverhead (overhead_percent b)
                          (fdiv (overhead_bits b) (lit 8388608)));;
  base ← lift_outcome (cmd_base self target_res original_res);
  two_pass self
    (pass1_cmd base kbps (os_nt E))
    (pass2_cmd base kbps (audio_bitrate_kbps b)
               (output_path self))
    duration;;
  verify_output self target_res.

End Compress.

(** ** The command line *)

Record arguments : Type := {
  a_input : string;
  a_output : string;
  a_target_size : Z;                 (* --target-size, default 950 *)
  a_resolution : option string;      (* --resolution *)
  a_verbose : bool;
  a_force : bool
}.

Section Main.

Context (E : env).

(** [check_dependencies] *)
Fixpoint check_dependencies (tools : list string) : M unit :=
  match tools with
  | [] => mret tt
  | tool :: rest =>
      if which E tool then check_dependencies rest
      else
        show (Print ("ERROR: " +:+ tool
                     +:+ " not found in PATH. Please install FFmpeg first."));;
        show (Print "Download: https://ffmpeg.org/download.html");;
        raise (SystemExit 1)
  end.

(** [input(...)]: the answer typed at the prompt, unless the prompt
    fails. *)
Definition input_ : M string :=
  match prompt_error E with
  | Some f => raise (prompt_exn f)
  | None => mret (answer E)
  end.

(** [main] from "Validate dependencies first" on, for the arguments that
    [parser.parse_args()] returned; [sys.exit(n)] is [SystemExit n].
    [ask] is the call of [input]: it stands outside the [try] block, so
    what it raises leaves [main]. *)
Definition main_from (ask : M string) (args : arguments) : M unit :=
  check_dependencies ["ffmpeg"; "ffprobe"];;
  input_present ← exists_ (a_input args);
  (if negb (input_present : bool) then
     show (Print ("ERROR: Input file not found: " +:+ a_input args));;
     raise (SystemExit 1)
   else mret tt);;
  output_present ← exists_ (a_output args);
  (if (output_present : bool) && negb (a_force args) then
     response ← ask;
     if negb ((response =? "y")%string || (response =? "Y")%string) then
       show (Print "Aborted by user.");; raise (SystemExit 1)
     else mret tt
   else mret tt);;
  (if negb (TQDM_AVAILABLE E) && negb (a_verbose args) then
     show (Print "TIP: Install tqdm for beautiful progress bars: pip install tqdm")
   else mret tt);;
  try_except
    (compressor ← lift (__init__ (a_input args) (a_output args)
                                  (a_target_size args) (a_resolution args)
                                  (a_verbose args));
     compress E compressor)
    (fun e => if e is KeyboardInterrupt then true else is_Exception e)
    (fun e =>
       if e is KeyboardInterrupt then
         show (Print "Operation cancelled by user (Ctrl+C)");;
         raise (SystemExit 130)
       else
         show (CriticalError e);;
         (if a_verbose args then show Traceback else mret tt);;
         output_present ← exists_ (a_output args);
         size ← st_size (a_output args);
         (if (output_present : bool) && (size =? 0)%N
          then unlink (a_output args) else mret tt);;
         raise (SystemExit 1)).

(** [main] for parsed arguments and a prompt that is answered: [answer E]
    is what [input] returns. *)
Definition main (args : arguments) : M unit :=
  main_from (mret (answer E)) args.

(** What [parser.parse_args()] makes of the command line: the arguments,
    or a usage error (an unknown option, a missing path, a
    [--target-size] that is no integer), or the request for help. *)
Inductive command_line : Type :=
| Parsed (args : arguments)
| UsageError (message : string)
| Help (text : string).

(** [parser.parse_args()]: argparse prints the usage message and leaves
    with status 2, or prints the help and leaves with status 0. *)
Definition parse_args (cli : command_line) : M arguments :=
  match cli with
  | Parsed args => mret args
  | UsageError message => show (Print message);; raise (SystemExit 2)
  | Help text => show (Print text);; raise (SystemExit 0)
  end.

(** [main()] as a whole, from the command line. *)
Definition main_argv (cli : command_line) : M unit :=
  args ← parse_args cli;
  main_from input_ args.

(** The exit status of the process for an outcome of [main]: an exception
    that leaves [main] ends the interpreter with status 1, a
    KeyboardInterrupt with 130. *)
Definition exit_code (r : outcome unit) : Z :=
  match r with
  | Ok _ => 0
  | Raise (SystemExit code) => code
  | Raise KeyboardInterrupt => 130
  | Raise _ => 1
  end.

End Main.

(** An empty screen and no processes yet, over given files. *)
Definition initial (fs : gmap string N) : world :=
  {| files := fs; shown := []; ticks := 0; spawned := []; probed := 0;
     killed := 0 |}.

(** ** Notions used in the statements *)

(** No external process was started between two worlds. *)
Definition no_process (w w' : world) : Prop :=
  spawned w' = spawned w /\ probed w' = probed w.

(** The values the progress bar was set to, oldest first. *)
Definition bar_values (evs : list event) : list float :=
  omap (fun e => if e is BarSet n _ then Some n else None) evs.

(** The elapsed times of the textual status lines, oldest first. *)
Definition status_times (evs : list event) : list float :=
  omap (fun e => if e is StatusLine _ t _ _ then Some t else None) evs.

(** The time a line of the diagnostic stream carries, if it carries one. *)
Definition marker (line : string) : option float :=
  if contains_time line then _parse_time <$> search_time line else None.

Definition markers (lines : list string) : list float := omap marker lines.

(** The lines read before the loop stops. *)
Definition lines_read (budget : option nat) (lines : list string) : list string :=
  match budget with
  | Some n => take n lines
  | None => lines
  end.

Fixpoint nondecreasing (l : list float) : bool :=
  match l with
  | a :: ((b :: _) as t) => fle a b && nondecreasing t
  | _ => true
  end.

(** [0 <= x <= hi] *)
Definition within (hi x : float) : bool := fle fzero x && fle x hi.

(** Zero, a positive number or plus infinity. *)
Definition nonneg (x : float) : Prop :=
  match x with
  | S754_zero _ | S754_infinity false | S754_finite false _ _ => True
  | _ => False
  end.

(** The worlds of the monitored branch of [_run_ffmpeg] when its loop
    starts: the clock was read once, the header is shown, the process runs. *)
Definition at_loop_start (E : env) (bar : bool) (description : string)
    (duration : float) (cmd : list string) (w : world) : world :=
  {| files := p_writes (ffmpeg E cmd (files w)) (files w);
     shown := (shown w ++ [if bar then BarOpen description duration
                           else PassHeader description duration])%list;
     ticks := S (ticks w);
     spawned := (spawned w ++ [cmd])%list;
     probed := probed w; killed := killed w |}.

(** The diagnostic stream of the pass is read to its end without an
    interruption and without an error in the progress arithmetic. *)
Definition stream_ends (E : env) (cmd : list string) (duration : float)
    (description : string) (w : world) : Prop :=
  let p := ffmpeg E cmd (files w) in
  let bar := TQDM_AVAILABLE E && flt (lit 5) duration && flt fzero duration in
  exists unread w',
    read_lines E bar duration description (now E (ticks w))
               (p_stderr p) (p_interrupt p) fzero
               (at_loop_start E bar description duration cmd w)
    = (Ok unread, w').

(** The requests the constructor accepts: an absent one, a preset name,
    or a text of the form digits-x-digits. *)
Definition acceptable (requested : option string) : bool :=
  negb (truthy requested)
  || match requested with
     | Some s =>
         bool_decide (is_Some (RESOLUTION_PRESETS !! s)) || match_WxH s
     | None => false
     end.

(** The first character of a string is no digit, if there is one. *)
Definition stops_digits (s : string) : Prop :=
  match s with
  | String c _ => PyStr.is_digit c = false
  | EmptyString => True
  end.

(** [m] raises nothing but exceptions that satisfy [P]. *)
Definition raises_only {A : Type} (P : exn -> Prop) (m : M A) : Prop :=
  forall w e w', m w = (Raise e, w') -> P e.

(** [m] leaves every world in a world related to it by [R]. *)
Definition keeps {A : Type} (R : world -> world -> Prop) (m : M A) : Prop :=
  forall w, R w (snd (m w)).

(** The user interrupts somewhere: while ffprobe runs, or some encoder
    process. *)
Definition interruptible (E : env) : Prop :=
  ffprobe E = inl KeyboardInterrupt
  \/ exists cmd fs, p_interrupt (ffmpeg E cmd fs) <> None.

(** ffprobe is run through [subprocess.run], which may fail or be
    interrupted but does not leave the interpreter. *)
Definition probe_stays (E : env) : Prop :=
  match ffprobe E with
  | inl (SystemExit _) => False
  | _ => True
  end.

(** The exceptions of the progress arithmetic. *)
Definition arithmetic (e : exn) : Prop := e = OverflowError \/ e = NotAnInteger.

(** What one encoder pass may raise. *)
Definition pass_failure (E : env) (e : exn) : Prop :=
  (e = KeyboardInterrupt /\ exists cmd fs, p_interrupt (ffmpeg E cmd fs) <> None)
  \/ arithmetic e \/ e = TimeoutExpired
  \/ exists code tail, e = FFmpegFailed code tail /\ code <> 0.

(** Probing does not give a usable duration: ffprobe failed, or the
    duration is not above zero. *)
Definition probe_fails (E : env) : Prop :=
  match ffprobe E with
  | inl e => is_Exception e = true
  | inr (duration, _) => fle duration fzero = true
  end.

(** What [compress] may raise. *)
Definition compress_failure (E : env) (e : exn) : Prop :=
  (e = SystemExit 1 /\ probe_fails E)
  \/ (e = KeyboardInterrupt /\ interruptible E)
  \/ is_Exception e = true.

(** Between two worlds only the screen and the clock moved on. *)
Definition only_shows (w w' : world) : Prop :=
  files w' = files w /\ spawned w' = spawned w /\ probed w' = probed w
  /\ killed w' = killed w.

(** Between two worlds the files and the list of processes are the same. *)
Definition same_disk (w w' : world) : Prop :=
  files w' = files w /\ spawned w' = spawned w /\ probed w' = probed w.

(** Between two worlds the entry of one path is the same. *)
Definition same_at (path : string) (w w' : world) : Prop :=
  files w' !! path = files w !! path.

(** The files once an encoder process started on them has ended. *)
Definition after_pass (E : env) (cmd : list string) (fs : gmap string N)
  : gmap string N :=
  p_writes (ffmpeg E cmd fs) fs.

Definition without_passlogs (fs : gmap string N) : gmap string N :=
  foldl (fun fs path => delete path fs) fs passlog_files.

(** The percentage of a textual status line lies between 0 and 100. *)
Definition percent_ok (ev : event) : Prop :=
  match ev with
  | StatusLine _ _ progress _ => 0 <= progress <= 100
  | _ => True
  end.

(** The events of the progress display of a monitored pass. *)
Definition is_progress (ev : event) : bool :=
  match ev with
  | PassHeader _ _ | BarOpen _ _ | BarSet _ _ | BarClose
  | StatusLine _ _ _ _ | Interrupting => true
  | _ => false
  end.

(** Between two worlds the screen only grew, by events that satisfy [P]. *)
Definition screen_grows (P : event -> Prop) (w w' : world) : Prop :=
  exists new, shown w' = (shown w ++ new)%list /\ Forall P new.

(** The user interrupts some encoder process. *)
Definition encoder_interrupted (E : env) : Prop :=
  exists cmd fs, p_interrupt (ffmpeg E cmd fs) <> None.

(** Between two worlds no process group was terminated, unless [C]. *)
Definition kills_only_if (C : Prop) (w w' : world) : Prop :=
  killed w' = killed w \/ C.

(** Between two worlds the clock was not read, no process group was
    terminated and nothing of the progress display was shown. *)
Definition quiet (w w' : world) : Prop :=
  ticks w' = ticks w /\ killed w' = killed w
  /\ screen_grows (fun ev => is_progress ev = false) w w'.

(** The environment with another answer at the prompt. *)
Definition with_answer (a : string) (E : env) : env :=
  {| TQDM_AVAILABLE := TQDM_AVAILABLE E; os_nt := os_nt E; now := now E;
     which := which E; answer := a; prompt_error := prompt_error E;
     ffprobe := ffprobe E; ffmpeg := ffmpeg E |}.

(** Between two worlds no encoder process ran and no file changed. *)
Definition no_encoder (w w' : world) : Prop :=
  files w' = files w /\ spawned w' = spawned w.

(** ** Sample environments *)

Module Sample.

Definition clock (k : nat) : float := lit (1700000000 + Z.of_nat k).

Definition source : exn + (float * (Z * Z)) :=
  inr (of_decimal 8393 2, (1920, 1080)).           (* 83.93 s, 1920x1080 *)

Definition proc (lines : list string) (interrupt : option nat)
    (writes : gmap string N -> gmap string N) (code : Z) : process :=
  {| p_stderr := lines; p_interrupt := interrupt; p_writes := writes;
     p_returncode := code; p_exits_in_time := true |}.

(** Pass 1 leaves its log; pass 2 writes [size] bytes of output. *)
Definition encoder (lines1 lines2 : list string) (interrupt2 : option nat)
    (code2 : Z) (size : N) (cmd : list string) (fs : gmap string N)
  : process :=
  if bool_decide ("-an" ∈ cmd)
  then proc lines1 None (fun fs => <["ffmpeg2pass" := 4096%N]> fs) 0
  else proc lines2 interrupt2
            (fun fs => <[default "" (last cmd) := size]> fs) code2.

Definition environment (tqdm : bool)
    (enc : list string -> gmap string N -> process) : env :=
  {| TQDM_AVAILABLE := tqdm; os_nt := false; now := clock;
     which := fun _ => true; answer := "n"; prompt_error := None;
     ffprobe := source;
     ffmpeg := enc |}.

Definition args (target : Z) (res : option string) (verb : bool) : arguments :=
  {| a_input := "in.mp4"; a_output := "out.mp4"; a_target_size := target;
     a_resolution := res; a_verbose := verb; a_force := false |}.

Definition job (target : Z) (res : option string) (verb : bool)
  : VideoCompressor :=
  {| input_path := "in.mp4"; output_path := "out.mp4";
     target_size_mb := target; verbose := verb; resolution := res |}.

Definition disk : gmap string N := {[ "in.mp4" := 50000000%N ]}.

Definition steady : list string :=
  [ "frame=  240 fps= 60 q=28.0 size=N/A time=00:00:10.00 bitrate=N/A";
    "frame=  480 fps= 60 q=28.0 size=N/A time=00:00:20.00 bitrate=N/A" ].

(** A stream whose second marker is earlier than its first. *)
Definition backwards : list string :=
  [ "frame=  240 fps= 60 q=28.0 size=N/A time=00:00:10.00 bitrate=N/A";
    "frame=  132 fps= 60 q=28.0 size=N/A time=00:00:05.50 bitrate=N/A" ].

(** A stream whose marker lies beyond the probed duration. *)
Definition overlong : list string :=
  [ "frame= 3012 fps= 60 q=28.0 size=N/A time=00:02:05.50 bitrate=N/A" ].

End Sample.

(** ** An encoder that writes to fixed paths *)

Module Fixture.

(** Pass 1 (the command with [-an]) leaves ffmpeg's log for the prefix
    ffmpeg2pass; pass 2 writes [size] bytes to out.mp4 and ends with
    status [code]. *)
Definition encoder (code : Z) (size : N) (cmd : list string)
    (fs : gmap string N) : process :=
  if bool_decide ("-an" ∈ cmd)
  then Sample.proc Sample.steady None
         (fun fs => <["ffmpeg2pass-0.log" := 4096%N]> fs) 0
  else Sample.proc Sample.steady None (fun fs => <["out.mp4" := size]> fs) code.

(** The argument that follows [flag] on a command line. *)
Fixpoint option_after (flag : string) (cmd : list string) : option string :=
  match cmd with
  | a :: rest =>
      if (a =? flag)%string then head rest else option_after flag rest
  | [] => None
  end.

(** An encoder that keeps its logs where ffmpeg keeps them: pass 1 writes
    the files of [encoder_passlogs] for the prefix given with
    [-passlogfile]; pass 2 writes [size] bytes to the last argument and
    ends with status [code]. *)
Definition x264 (code : Z) (size : N) (cmd : list string)
    (fs : gmap string N) : process :=
  let logs :=
    encoder_passlogs (default "ffmpeg2pass" (option_after "-passlogfile" cmd)) in
  if bool_decide (option_after "-pass" cmd = Some "1")
  then Sample.proc Sample.steady None
         (fun fs => foldr (fun path => <[path := 4096%N]>) fs logs) 0
  else Sample.proc Sample.steady None
         (fun fs => <[default "" (last cmd) := size]> fs) code.

End Fixture.

(** ** Environments that fail *)

Module Faulty.

(** ffprobe reports a duration of zero seconds. *)
Definition no_duration : env :=
  {| TQDM_AVAILABLE := true; os_nt := false; now := Sample.clock;
     which := fun _ => true; answer := "n"; prompt_error := None;
     ffprobe := inr (fzero, (1920, 1080));
     ffmpeg := Fixture.encoder 0 9000000 |}.

(** The encoder is interrupted after one line and has not exited ten
    seconds later. *)
Definition hanging : env :=
  {| TQDM_AVAILABLE := true; os_nt := false; now := Sample.clock;
     which := fun _ => true; answer := "n"; prompt_error := None;
     ffprobe := Sample.source;
     ffmpeg := fun _ _ =>
       {| p_stderr := Sample.steady; p_interrupt := Some 1%nat;
          p_writes := fun fs => fs; p_returncode := 0;
          p_exits_in_time := false |} |}.

(** Standard input is closed: the prompt ends with EOFError. *)
Definition closed_stdin : env :=
  {| TQDM_AVAILABLE := true; os_nt := false; now := Sample.clock;
     which := fun _ => true; answer := ""; prompt_error := Some EndOfInput;
     ffprobe := Sample.source; ffmpeg := Fixture.encoder 0 9000000 |}.

End Faulty.

(** * Properties *)

(** ** Tactics and basic facts *)

(** Unfold the monadic plumbing in the goal. *)
Ltac run :=
  repeat (unfold mbind, M_bind, mret, M_ret, raise, lift, opt, lift_outcome,
          try_except, try_finally, show, exists_, st_size, unlink, probing,
          kill_group; simpl).

Lemma preset_keys_present :
  Forall (fun k => is_Some (RESOLUTION_PRESETS !! k))
         ["144p"; "240p"; "360p"; "480p"].
Proof. repeat constructor; vm_compute; eauto. Qed.

Lemma preset_144p : RESOLUTION_PRESETS !!! "144p" = "256x144".
Proof. reflexivity. Qed.

Lemma truthy_Some (s : string) : s ≠ "" -> truthy (Some s) = true.
Proof.
  intros Hs. unfold truthy. destruct (String.eqb_spec s ""); [contradiction | reflexivity].
Qed.

(** A string that is present and is no preset name is returned as it is. *)
Lemma normalize_explicit (s : string) (target_size : Z) :
  s ≠ "" -> RESOLUTION_PRESETS !! s = None ->
  _normalize_resolution (Some s) target_size = Some s.
Proof.
  intros Hs Hp. unfold _normalize_resolution.
  change (Some s ≫= (RESOLUTION_PRESETS !!.)) with (RESOLUTION_PRESETS !! s).
  rewrite Hp, (truthy_Some s Hs). reflexivity.
Qed.

(** An absent request ([None] or the empty string) above 100 MB stays
    absent. *)
Lemma normalize_absent_large (r : option string) (target_size : Z) :
  truthy r = false -> 100 < target_size ->
  _normalize_resolution r target_size = r.
Proof.
  intros Hr Ht. unfold _normalize_resolution.
  assert (Hp : r ≫= (RESOLUTION_PRESETS !!.) = None).
  { destruct r as [s|]; [|reflexivity]. simpl in *.
    destruct (String.eqb_spec s ""); [subst; reflexivity | discriminate]. }
  rewrite Hp, Hr. simpl.
  destruct (Z.leb_spec target_size 5); [lia|].
  destruct (Z.leb_spec target_size 15); [lia|].
  destruct (Z.leb_spec target_size 50); [lia|].
  destruct (Z.leb_spec target_size 100); [lia|]. reflexivity.
Qed.

(** ** Failing before any process *)

Lemma check_dependencies_outcome (E : env) (tools : list string) (w : world) :
  check_dependencies E tools w = (Ok tt, w)
  \/ exists w', check_dependencies E tools w = (Raise (SystemExit 1), w')
                /\ no_process w w'.
Proof.
  induction tools as [|tool rest IH]; [left; reflexivity|].
  cbn [check_dependencies]. destruct (which E tool); [exact IH|].
  right. run. eexists. split; [reflexivity|]. split; reflexivity.
Qed.

(** When the constructor fails, [main] ends with exit status 1 and has
    started neither ffprobe nor an encoder. *)
Lemma main_rejects_before_any_process (E : env) (args : arguments)
    (w : world) (e : exn) :
  __init__ (a_input args) (a_output args) (a_target_size args)
           (a_resolution args) (a_verbose args) = inl e ->
  is_Exception e = true ->
  exit_code (fst (main E args w)) = 1 /\ no_process w (snd (main E args w)).
Proof.
  intros Hinit He.
  assert (H : exists w', main E args w = (Raise (SystemExit 1), w')
                         /\ no_process w w').
  { unfold main, main_from. rewrite Hinit.
    unfold mbind at 1, M_bind at 1.
    destruct (check_dependencies_outcome E ["ffmpeg"; "ffprobe"] w)
      as [-> | (w' & -> & Hw')]; [|eauto].
    run.
    destruct (bool_decide (is_Some (files w !! a_input args))); run;
      [|eexists; split; [reflexivity | split; reflexivity]].
    destruct (bool_decide (is_Some (files w !! a_output args))
              && negb (a_force args));
      [destruct (negb _)|]; run;
      try (eexists; split; [reflexivity | split; reflexivity]);
      destruct (negb (TQDM_AVAILABLE E) && negb (a_verbose args)); run;
      destruct e; try discriminate He; run;
      destruct (a_verbose args); run;
      match goal with |- context [if ?c then _ else _] => destruct c end; run;
      eexists; split; try reflexivity; split; reflexivity. }
  destruct H as (w' & -> & Hw'). split; [reflexivity | exact Hw'].
Qed.

(** ** Resolution validation (C8) *)

(** C8, as stated, fails on the empty string: it is no preset name and does
    not match the pattern, yet the constructor takes it for an absent
    request and accepts the job. *)
Lemma C8_empty_string_accepted :
  RESOLUTION_PRESETS !! "" = None /\ match_WxH "" = false /\
  __init__ "in.mp4" "out.mp4" 950 (Some "") false
  = inr {| input_path := "in.mp4"; output_path := "out.mp4";
           target_size_mb := 950; verbose := false; resolution := Some "" |}.
Proof. repeat split. Qed.

(** C8 (amended): every non-empty requested resolution that is neither a
    preset name nor of the form digits-x-digits makes the constructor fail
    with the invalid-resolution error, whatever the other arguments; [main]
    then ends with exit status 1 and has started neither ffprobe nor an
    encoder. *)
Theorem C8_invalid_resolution_rejected
    (E : env) (args : arguments) (w : world) (s : string) :
  a_resolution args = Some s ->
  s ≠ "" -> RESOLUTION_PRESETS !! s = None -> match_WxH s = false ->
  __init__ (a_input args) (a_output args) (a_target_size args) (Some s)
           (a_verbose args)
  = inl (InvalidResolutionFormat s)
  /\ exit_code (fst (main E args w)) = 1
  /\ no_process w (snd (main E args w)).
Proof.
  intros Hres Hs Hp Hm.
  assert (Hinit :
    __init__ (a_input args) (a_output args) (a_target_size args) (Some s)
             (a_verbose args)
    = inl (InvalidResolutionFormat s)).
  { unfold __init__.
    rewrite (normalize_explicit s (a_target_size args) Hs Hp).
    rewrite (truthy_Some s Hs), Hm. reflexivity. }
  split; [exact Hinit|].
  apply (main_rejects_before_any_process E args w (InvalidResolutionFormat s));
    [rewrite Hres; exact Hinit | reflexivity].
Qed.

(** The request "999" on the command line, in the sample environment. *)
Lemma C8_witness_999 :
  let E := Sample.environment true
             (Sample.encoder Sample.steady Sample.steady None 0 900000) in
  let args := Sample.args 950 (Some "999") false in
  let r := main E args (initial Sample.disk) in
  __init__ "in.mp4" "out.mp4" 950 (Some "999") false
  = inl (InvalidResolutionFormat "999")
  /\ exit_code (fst r) = 1
  /\ no_process (initial Sample.disk) (snd r).
Proof.
  intros E args r.
  apply (C8_invalid_resolution_rejected E args (initial Sample.disk) "999");
    [reflexivity | discriminate | reflexivity | reflexivity].
Defined.

(** A non-empty explicit string of the form digits-x-digits is accepted
    and kept as the planned resolution. *)
Lemma init_explicit_accepted
    (input output s : string) (target_size : Z) (verb : bool) :
  s ≠ "" -> RESOLUTION_PRESETS !! s = None -> match_WxH s = true ->
  __init__ input output target_size (Some s) verb
  = inr {| input_path := input; output_path := output;
           target_size_mb := target_size; verbose := verb;
           resolution := Some s |}.
Proof.
  intros Hs Hp Hm. unfold __init__.
  rewrite (normalize_explicit s target_size Hs Hp).
  rewrite (truthy_Some s Hs), Hm. reflexivity.
Qed.

(** ** No forced downscale (C1) *)

Lemma cmd_base_without_target (self : VideoCompressor) (original_res : string) :
  cmd_base self None original_res = Raise NoneHasNoSplit.
Proof. reflexivity. Qed.

(** C1 (failing): with no requested resolution and a target above 100 MB
    the planner indeed forces no downscale, the resolution of the job stays
    absent; but [compress] then compares the absent resolution with the
    source resolution, finds them different, and tries to split it.  Every
    such job ends with an exception before an encoder is started; when
    probing and the budget succeed the exception is the AttributeError. *)
Theorem C1_no_downscale_never_encodes
    (E : env) (self : VideoCompressor) (w : world) :
  100 < target_size_mb self -> truthy (resolution self) = false ->
  _normalize_resolution (resolution self) (target_size_mb self) = resolution self
  /\ exists e,
       fst (compress E self w) = Raise e
       /\ spawned (snd (compress E self w)) = spawned w
       /\ (forall d wh b kbps,
             ffprobe E = inr (d, wh) -> fle d fzero = false ->
             bitrate_budget (target_size_mb self) d = Ok b ->
             video_bitrate_kbps b d = Ok kbps ->
             e = NoneHasNoSplit).
Proof.
  intros Ht Hr. split; [now apply normalize_absent_large|].
  unfold compress, _get_stream_info. run.
  destruct (ffprobe E) as [e | [d [wd ht]]]; run.
  - destruct (is_Exception e); run; eexists; (split; [reflexivity|]);
      (split; [reflexivity|]); intros; discriminate.
  - destruct (fle d fzero) eqn:Hd; run.
    + eexists; split; [reflexivity|]; split; [reflexivity|].
      intros d' wh b kbps H; inversion H; subst. congruence.
    + rewrite Hr. run.
      rewrite (normalize_absent_large None _ eq_refl Ht).
      destruct (bitrate_budget (target_size_mb self) d) as [b|e] eqn:Hb; run.
      * destruct (adjusted b); run;
          (destruct (video_bitrate_kbps b d) as [kbps|e] eqn:Hk; run;
           [ eexists; (split; [reflexivity|]); (split; [reflexivity|]);
             reflexivity
           | eexists; (split; [reflexivity|]); (split; [reflexivity|]);
             intros d' wh b' kbps H; inversion H; subst;
             intros _ Hb'; rewrite Hb in Hb'; inversion Hb'; subst;
             congruence ]).
      * eexists; split; [reflexivity|]; split; [reflexivity|].
        intros d' wh b kbps H; inversion H; subst. congruence.
Qed.

(** The command line's defaults (950 MB, no resolution) on a 1920x1080
    source: the run ends with exit status 1 and no encoder was started. *)
Lemma C1_witness_default_run :
  let E := Sample.environment true
             (Sample.encoder Sample.steady Sample.steady None 0 900000) in
  let job := Sample.job 950 None false in
  let r := compress E job (initial Sample.disk) in
  fst r = Raise NoneHasNoSplit /\ spawned (snd r) = [].
Proof.
  intros E job r.
  destruct (C1_no_downscale_never_encodes E job (initial Sample.disk))
    as [_ (e & He & Hs & Hwhy)]; [reflexivity | reflexivity |].
  split; [|exact Hs].
  fold r in He. rewrite He. f_equal.
  apply (Hwhy (of_decimal 8393 2) (1920, 1080)
           {| total_bits := 7969177600; audio_bitrate_kbps := 128;
              overhead_percent := of_decimal 1 2;
              overhead_bits := fmul (lit 7969177600) (of_decimal 1 2);
              audio_total_bits := fmul (lit 128000) (of_decimal 8393 2);
              video_total_bits :=
                fsub (fsub (lit 7969177600)
                           (fmul (lit 128000) (of_decimal 8393 2)))
                     (fmul (lit 7969177600) (of_decimal 1 2));
              adjusted := None |} 93872);
    vm_compute; reflexivity.
Defined.

(** The same run seen from [main]. *)
Example default_run_exit_status :
  let E := Sample.environment true
             (Sample.encoder Sample.steady Sample.steady None 0 900000) in
  let r := main E (Sample.args 950 None false) (initial Sample.disk) in
  exit_code (fst r) = 1 /\ spawned (snd r) = []
  /\ last (shown (snd r)) = Some (CriticalError NoneHasNoSplit).
Proof. vm_compute. repeat split. Qed.

(** ** Target size validation (C5) *)

(** C5, as stated, fails: a job with a target size of zero is constructed,
    its bitrate is planned at the floor, and both encoder passes run; the
    run only stops afterwards, in the size report, on a division by zero. *)
Lemma C5_zero_target_runs_encoder :
  let E := Sample.environment true
             (Sample.encoder Sample.steady Sample.steady None 0 900000) in
  let r := main E (Sample.args 0 None false) (initial Sample.disk) in
  __init__ "in.mp4" "out.mp4" 0 None false
  = inr (Sample.job 0 (Some "256x144") false)
  /\ length (spawned (snd r)) = 2%nat
  /\ CriticalError ZeroDivisionError ∈ shown (snd r)
  /\ fst r = Raise (SystemExit 1).
Proof.
  cbv zeta. split; [reflexivity|].
  split; [vm_compute; reflexivity|].
  split; [apply list_elem_of_In; vm_compute; tauto|].
  vm_compute. reflexivity.
Qed.

(** C5 (amended): the constructor does not look at the sign of the target
    size.  With a target of zero or less and no requested resolution it
    succeeds and plans 256x144; with a requested resolution it fails only
    when that resolution is invalid. *)
Theorem C5_nonpositive_target_accepted
    (input output : string) (target_size : Z) (verb : bool) :
  target_size <= 0 ->
  __init__ input output target_size None verb
  = inr {| input_path := input; output_path := output;
           target_size_mb := target_size; verbose := verb;
           resolution := Some "256x144" |}
  /\ forall requested e,
       __init__ input output target_size requested verb = inl e ->
       exists s, e = InvalidResolutionFormat s /\ match_WxH s = false.
Proof.
  intros Ht. split.
  - unfold __init__, _normalize_resolution. simpl.
    destruct (Z.leb_spec target_size 5); [|lia]. reflexivity.
  - intros requested e. unfold __init__.
    destruct (_normalize_resolution requested target_size) as [r|]; [|discriminate].
    destruct (match_WxH r) eqn:Hm; rewrite ?andb_false_r; [discriminate|].
    destruct (truthy (Some r)); simpl; [|discriminate].
    intros H; inversion H; subst. eauto.
Qed.

Lemma C5_witness_minus_five :
  __init__ "in.mp4" "out.mp4" (-5) None true
  = inr (Sample.job (-5) (Some "256x144") true).
Proof.
  exact (proj1 (C5_nonpositive_target_accepted "in.mp4" "out.mp4" (-5) true
                  ltac:(lia))).
Defined.

(** ** Pass-log cleanup *)

Lemma cleanup_passlogs_spec (logs : list string) (w : world) :
  cleanup_passlogs logs w
  = (Ok tt,
     {| files := foldl (fun fs path => delete path fs) (files w) logs;
        shown := shown w; ticks := ticks w; spawned := spawned w;
        probed := probed w; killed := killed w |}).
Proof.
  revert w. induction logs as [|path rest IH]; intros w.
  - destruct w; reflexivity.
  - cbn [cleanup_passlogs]. unfold mbind, M_bind, exists_.
    case_bool_decide as Hp.
    + unfold unlink. rewrite IH. reflexivity.
    + unfold mret, M_ret. rewrite IH. cbn [foldl].
      rewrite (delete_id (files w) path); [reflexivity|].
      destruct (files w !! path) eqn:Hl; [|reflexivity].
      exfalso. apply Hp. eauto.
Qed.

(** The cleanup skips a path that does not exist: it ends normally,
    changes nothing where its two paths do not exist, and doing it twice
    is the same as doing it once. *)
Lemma cleanup_passlogs_idempotent (w : world) :
  fst (cleanup_passlogs passlog_files w) = Ok tt
  /\ (Forall (fun path => files w !! path = None) passlog_files ->
      cleanup_passlogs passlog_files w = (Ok tt, w))
  /\ cleanup_passlogs passlog_files (snd (cleanup_passlogs passlog_files w))
     = cleanup_passlogs passlog_files w.
Proof.
  rewrite !cleanup_passlogs_spec. unfold passlog_files.
  cbn [fst snd files shown ticks spawned probed killed foldl].
  split; [reflexivity|]. split.
  - intros H. inversion H as [|? ? H1 H']; subst.
    inversion H' as [|? ? H2 _]; subst.
    rewrite (delete_id (files w) _ H1), (delete_id (files w) _ H2).
    destruct w; reflexivity.
  - f_equal. f_equal.
    rewrite (delete_id (delete "ffmpeg2pass.mbtree" _) "ffmpeg2pass").
    + apply delete_id, lookup_delete_eq.
    + rewrite lookup_delete_ne by discriminate. apply lookup_delete_eq.
Qed.

(** ** Interruption (C3) *)

(** An [except Exception] clause lets a KeyboardInterrupt pass. *)
Lemma try_except_Exception_interrupt {A : Type} (body : M A)
    (handler : exn -> M A) (w w' : world) :
  body w = (Raise KeyboardInterrupt, w') ->
  try_except body is_Exception handler w = (Raise KeyboardInterrupt, w').
Proof. intros H. unfold try_except. rewrite H. reflexivity. Qed.

(** When the first pass succeeds and the second is interrupted, the
    two-pass block hands the interruption on in the very world the second
    pass left: its cleanup did not run. *)
Lemma two_pass_interrupted_no_cleanup
    (E : env) (self : VideoCompressor) (cmd1 cmd2 : list string)
    (duration : float) (w w1 w2 : world) :
  _run_ffmpeg E self cmd1 duration "Analysis Pass" w = (Ok tt, w1) ->
  _run_ffmpeg E self cmd2 duration "Encoding Pass" w1
  = (Raise KeyboardInterrupt, w2) ->
  two_pass E self cmd1 cmd2 duration w = (Raise KeyboardInterrupt, w2).
Proof.
  intros H1 H2. unfold two_pass.
  apply try_except_Exception_interrupt.
  unfold mbind, M_bind. rewrite H1, H2. reflexivity.
Qed.

(** C3 (failing): a 10 MB job whose first pass succeeds and whose second
    pass is interrupted after one line of progress, 400000 bytes of output
    written.  The encoder's process group is terminated and the exit status
    is 130, but the pass log and the partial output are still on disk. *)
Theorem C3_interrupted_pass2_leaves_artifacts :
  let E := Sample.environment true
             (Sample.encoder Sample.steady Sample.steady (Some 1%nat) 255 400000) in
  let r := main E (Sample.args 10 None false) (initial Sample.disk) in
  exit_code (fst r) = 130
  /\ killed (snd r) = 1%nat
  /\ length (spawned (snd r)) = 2%nat
  /\ files (snd r) !! "ffmpeg2pass" = Some 4096%N
  /\ files (snd r) !! "out.mp4" = Some 400000%N.
Proof. vm_compute. repeat split. Qed.

(** ** Exit status of a pass *)

Lemma outcome_eta {A : Type} (x : outcome A * world) (a : A) :
  fst x = Ok a -> x = (Ok a, snd x).
Proof. destruct x as [o w]. cbn. intros ->. reflexivity. Qed.

(** The monitoring loop leaves nothing unread when it ends normally. *)
Lemma read_lines_reads_all (E : env) (bar : bool) (duration : float)
    (description : string) (start_time : float) (lines : list string)
    (budget : option nat) (last_time : float) (w w' : world)
    (unread : list string) :
  read_lines E bar duration description start_time lines budget last_time w
  = (Ok unread, w') ->
  unread = [] /\ budget = None.
Proof.
  revert budget last_time w.
  induction lines as [|line rest IH]; intros budget last_time w.
  - destruct budget as [[|n]|]; cbn; intros H; inversion H; auto.
  - destruct budget as [[|n]|]; cbn [read_lines]; [discriminate| |].
    + unfold mbind at 1, M_bind at 1.
      match goal with |- context [?m w] =>
        destruct (m w) as [[t|e] w1] end; [|discriminate].
      intros H. apply IH in H. destruct H as [_ H]. discriminate.
    + unfold mbind at 1, M_bind at 1.
      match goal with |- context [?m w] =>
        destruct (m w) as [[t|e] w1] end; [|discriminate].
      intros H. apply IH in H. tauto.
Qed.

(** In verbose mode an exit status of 255 is a failure like any other
    non-zero status, and the error carries no text. *)
Lemma verbose_255_fails :
  let job := Sample.job 10 (Some "426x240") true in
  let run code :=
    fst (_run_ffmpeg
           (Sample.environment true
              (fun _ _ => Sample.proc Sample.steady None (fun fs => fs) code))
           job ["ffmpeg"] (of_decimal 8393 2) "Encoding Pass"
           (initial Sample.disk)) in
  run 255 = Raise (FFmpegFailed 255 None) /\ run 1 = Raise (FFmpegFailed 1 None).
Proof. split; reflexivity. Qed.

(** What the exit status decides, for a pass that is not interrupted.  In
    monitored mode, once the diagnostic stream has been read to its end
    and the process has exited, the pass succeeds when the exit status is
    0 or 255 and otherwise raises the failure with that status.  In
    verbose mode the pass succeeds on status 0, and on a status other than
    0 and 255 raises the failure with that status. *)
Lemma pass_exit_status_decides
    (E : env) (self : VideoCompressor) (cmd : list string)
    (duration : float) (description : string) (w : world) :
  let p := ffmpeg E cmd (files w) in
  let r := fst (_run_ffmpeg E self cmd duration description w) in
  p_interrupt p = None ->
  (verbose self = true ->
     (p_returncode p = 0 -> r = Ok tt)
     /\ (p_returncode p <> 0 -> p_returncode p <> 255 ->
         r = Raise (FFmpegFailed (p_returncode p) None)))
  /\ (verbose self = false -> p_exits_in_time p = true ->
      stream_ends E cmd duration description w ->
      (p_returncode p = 0 \/ p_returncode p = 255 -> r = Ok tt)
      /\ (p_returncode p <> 0 -> p_returncode p <> 255 ->
          r = Raise (FFmpegFailed (p_returncode p) (Some "")))).
Proof.
  intros p r Hint. subst p r. unfold _run_ffmpeg. split.
  - intros ->. run. rewrite Hint. run. split.
    + intros ->. reflexivity.
    + intros H0 _.
      destruct (Z.eqb_spec (p_returncode (ffmpeg E cmd (files w))) 0);
        [contradiction | reflexivity].
  - intros -> Hexit (unread & w' & Hloop).
    destruct (read_lines_reads_all _ _ _ _ _ _ _ _ _ _ _ Hloop) as [-> _].
    cbv zeta in Hloop. unfold at_loop_start in Hloop.
    unfold mbind, M_bind, time_time, Popen, try_finally, try_except, wait_timeout.
    cbn [negb verbose].
    destruct (TQDM_AVAILABLE E && flt (lit 5) duration && flt fzero duration);
      unfold show; cbn [files shown ticks spawned probed killed];
      rewrite Hloop, Hexit; unfold mret, M_ret, raise; cbn [fst];
      (split;
       [ intros [-> | ->]; reflexivity
       | intros H0 H255;
         destruct (Z.eqb_spec (p_returncode (ffmpeg E cmd (files w))) 0);
           [contradiction|];
         destruct (Z.eqb_spec (p_returncode (ffmpeg E cmd (files w))) 255);
           [contradiction|];
         reflexivity ]).
Qed.

(** ** Verification of the output (C6) *)

(** C6, as stated, fails on an empty output: both passes complete, the
    second one leaving a destination file of zero bytes; verification lets
    it pass with the size warning, the run ends normally with exit status 0
    and the empty file stays. *)
Lemma C6_empty_output_passes :
  let E := Sample.environment true
             (Sample.encoder Sample.steady Sample.steady None 0 0) in
  let r := main E (Sample.args 10 None false) (initial Sample.disk) in
  fst r = Ok tt /\ exit_code (fst r) = 0
  /\ files (snd r) !! "out.mp4" = Some 0%N
  /\ FinalSize fzero ∈ shown (snd r)
  /\ SizeWarning (lit 10) (Some "426x240") ∈ shown (snd r).
Proof.
  vm_compute. repeat split; apply list_elem_of_In; cbn; tauto.
Qed.

(** C6 (amended): verification fails when the destination file does not
    exist.  When it exists, of whatever size, zero included, verification
    does not fail (the target size being non-zero and of float range): it
    reports the size and the accuracy, and adds the warning exactly when
    the distance between final size and target exceeds a tenth of the
    target.  The files are left as they are. *)
Theorem C6_verification
    (self : VideoCompressor) (target_res : option string) (w : world) :
  (files w !! output_path self = None ->
   verify_output self target_res w = (Raise OutputNotCreated, w))
  /\ (forall size final target,
        files w !! output_path self = Some size ->
        int_true_div size 1048576 = Ok final ->
        of_int (target_size_mb self) = Some target ->
        target_size_mb self <> 0 ->
        let size_diff := fabs (fsub final target) in
        exists w',
          verify_output self target_res w = (Ok tt, w')
          /\ files w' = files w
          /\ shown w'
             = (shown w
                ++ [ FinalSize final; SavedTo (output_path self);
                     SizeAccuracy
                       (fsub (lit 100)
                             (fmul (fdiv size_diff target) (lit 100))) ]
                ++ (if flt (fmul target (of_decimal 1 1)) size_diff
                    then [ SizeWarning size_diff target_res;
                           Print "- Lowering target size parameter to compensate for overhead";
                           Print "- Using --verbose mode to diagnose encoding issues" ]
                    else []))%list).
Proof.
  split.
  - intros Hnone. unfold verify_output, mbind, M_bind, exists_.
    rewrite Hnone. rewrite bool_decide_eq_false_2; [reflexivity|].
    intros [x Hx]. discriminate.
  - intros size final target Hsome Hdiv Htarget Hnz size_diff.
    unfold verify_output, mbind, M_bind, exists_, st_size, lift_outcome, opt.
    rewrite Hsome. rewrite bool_decide_eq_true_2 by eauto.
    cbn [negb]. rewrite Hsome. cbn [from_option id]. rewrite Hdiv.
    unfold show, mret, M_ret. rewrite Htarget.
    unfold show, mret, M_ret. cbn [files shown ticks spawned probed killed].
    destruct (Z.eqb_spec (target_size_mb self) 0); [contradiction|].
    fold size_diff.
    destruct (flt (fmul target (of_decimal 1 1)) size_diff);
      eexists; (split; [reflexivity|]); (split; [reflexivity|]);
      cbn [files shown]; rewrite <- ?app_assoc; reflexivity.
Qed.

(** An output of 9.5 MiB for a target of 10 MB: accepted, no warning. *)
Lemma C6_witness_close_to_target :
  let self := Sample.job 10 (Some "426x240") false in
  let w := initial (<["out.mp4" := 9961472%N]> Sample.disk) in
  exists w',
    verify_output self (Some "426x240") w = (Ok tt, w')
    /\ files w' = files w
    /\ shown w'
       = [ FinalSize (of_decimal 95 1); SavedTo "out.mp4";
           SizeAccuracy (lit 95) ].
Proof.
  intros self w.
  destruct (proj2 (C6_verification self (Some "426x240") w)
              9961472%N (of_decimal 95 1) (lit 10))
    as (w' & Hrun & Hfiles & Hshown);
    [reflexivity | vm_compute; reflexivity | reflexivity | discriminate |].
  exists w'. split; [exact Hrun|]. split; [exact Hfiles|].
  rewrite Hshown. vm_compute. reflexivity.
Defined.

(** ** The bitrate budget (C2) *)

(** When the budget is computed, the re-computed size is recorded exactly
    when the floor was applied. *)
Lemma budget_floor_recorded (target : Z) (duration : float) (b : budget)
    (total : float) :
  bitrate_budget target duration = Ok b ->
  of_int (target * 8388608) = Some total ->
  let wanted := fsub (fsub total (audio_total_bits b)) (overhead_bits b) in
  let least := fmul (lit MIN_VIDEO_BITRATE) duration in
  (flt wanted least = true ->
   video_total_bits b = least
   /\ adjusted b
      = Some (fdiv (fadd (fadd least (audio_total_bits b)) (overhead_bits b))
                   (lit 8388608)))
  /\ (flt wanted least = false ->
      video_total_bits b = wanted /\ adjusted b = None).
Proof.
  unfold bitrate_budget. intros Hb Htotal. rewrite Htotal in Hb.
  set (audio := fmul _ duration) in Hb.
  set (overhead := fmul total _) in Hb.
  set (least := fmul (lit MIN_VIDEO_BITRATE) duration) in *.
  set (floored := flt (fsub (fsub total audio) overhead) least) in Hb.
  assert (Hfields :
    audio_total_bits b = audio /\ overhead_bits b = overhead
    /\ video_total_bits b
       = (if floored then least else fsub (fsub total audio) overhead)
    /\ adjusted b
       = (if floored
          then Some (fdiv (fadd (fadd (if floored then least
                                       else fsub (fsub total audio) overhead)
                                      audio) overhead) (lit 8388608))
          else None)).
  { injection Hb as <-. repeat split. }
  destruct Hfields as (-> & -> & -> & ->). fold floored.
  split; intros ->; split; reflexivity.
Qed.

(** C2 (failing): a target of 1 MB for a source of 83.93 seconds.  The
    floor applies and the adjusted size is reported, but 50000 * 83.93
    divided by 83.93 is, in floating point, just below 50000; divided by
    1000 and truncated it gives 49.  The program announces a minimum of
    50 kbps and then asks the encoder for 49k. *)
Theorem C2_floor_yields_49_kbps :
  let duration := of_decimal 8393 2 in
  let E := Sample.environment true
             (Sample.encoder Sample.steady Sample.steady None 0 900000) in
  let r := compress E (Sample.job 1 (Some "256x144") false)
                    (initial Sample.disk) in
  flt fzero duration = true
  /\ fdiv (fmul (lit MIN_VIDEO_BITRATE) duration) duration
     = S754_finite false 6871947673599999 (-37)
  /\ lit MIN_VIDEO_BITRATE = S754_finite false 6871947673600000 (-37)
  /\ (exists b,
        bitrate_budget 1 duration = Ok b
        /\ video_bitrate_kbps b duration = Ok 49
        /\ is_Some (adjusted b))
  /\ FloorWarning 50 ∈ shown (snd r)
  /\ CalculatedBitrates 49 64 ∈ shown (snd r)
  /\ Forall (fun cmd => "49k" ∈ cmd) (spawned (snd r))
  /\ length (spawned (snd r)) = 2%nat.
Proof.
  cbv zeta.
  split; [vm_compute; reflexivity|].
  split; [vm_compute; reflexivity|].
  split; [vm_compute; reflexivity|].
  split.
  { exists {| total_bits := 8388608; audio_bitrate_kbps := 64;
              overhead_percent := of_decimal 5 2;
              overhead_bits := fmul (lit 8388608) (of_decimal 5 2);
              audio_total_bits := fmul (lit 64000) (of_decimal 8393 2);
              video_total_bits := fmul (lit 50000) (of_decimal 8393 2);
              adjusted := Some (S754_finite false 5361971604802765 (-52)) |}.
    split; [vm_compute; reflexivity|]. split; [vm_compute; reflexivity|].
    cbn. eauto. }
  split; [apply list_elem_of_In; vm_compute; tauto|].
  split; [apply list_elem_of_In; vm_compute; tauto|].
  split; [|vm_compute; reflexivity].
  apply Forall_forall. intros cmd Hin. apply list_elem_of_In.
  apply list_elem_of_In in Hin. vm_compute in Hin.
  destruct Hin as [<- | [<- | []]]; vm_compute; tauto.
Qed.

(** ** Signs and order of floats *)

Lemma iter_pos_invariant {A : Type} (P : A -> Prop) (f : A -> A) :
  (forall x, P x -> P (f x)) ->
  forall (n : positive) (x : A), P x -> P (SpecFloat.iter_pos f n x).
Proof.
  intros Hf. induction n as [n IH|n IH|]; intros x Hx; cbn; auto.
Qed.

Lemma shr_1_nonneg (mrs : shr_record) : 0 <= shr_m mrs -> 0 <= shr_m (shr_1 mrs).
Proof.
  destruct mrs as [m r s]. cbn. destruct m as [|[p|p|]|[p|p|]]; cbn; lia.
Qed.

Lemma shr_nonneg (mrs : shr_record) (e n : Z) :
  0 <= shr_m mrs -> 0 <= shr_m (fst (shr mrs e n)).
Proof.
  intros H. unfold shr. destruct n as [|k|k]; cbn [fst]; try assumption.
  apply (iter_pos_invariant (fun x => 0 <= shr_m x)); [apply shr_1_nonneg | assumption].
Qed.

Lemma shr_fexp_nonneg (m e : Z) (l : location) :
  0 <= m -> 0 <= shr_m (fst (shr_fexp prec emax m e l)).
Proof.
  intros H. unfold shr_fexp. apply shr_nonneg.
  destruct l as [|[]]; exact H.
Qed.

Lemma round_nearest_even_nonneg (m : Z) (l : location) :
  0 <= m -> 0 <= round_nearest_even m l.
Proof.
  intros H. unfold round_nearest_even.
  destruct l as [|[]]; try destruct (Z.even m); lia.
Qed.

(** Rounding a non-negative mantissa with a positive sign gives zero, a
    positive number or plus infinity. *)
Lemma binary_round_aux_nonneg (m e : Z) (l : location) :
  0 <= m -> nonneg (binary_round_aux prec emax false m e l).
Proof.
  intros H. unfold binary_round_aux.
  pose proof (shr_fexp_nonneg m e l H) as H1.
  destruct (shr_fexp prec emax m e l) as [mrs' e'].
  cbn [fst] in H1.
  pose proof (shr_fexp_nonneg
                (round_nearest_even (shr_m mrs') (loc_of_shr_record mrs')) e'
                loc_Exact (round_nearest_even_nonneg _ _ H1)) as H2.
  destruct (shr_fexp prec emax _ e' loc_Exact) as [mrs'' e''].
  cbn [fst] in H2.
  destruct (shr_m mrs'') as [|q|q]; [exact I | | lia].
  destruct (e'' <=? emax - prec); exact I.
Qed.

Lemma fmul_lit_nonneg (x : float) (m : positive) (e : Z) :
  nonneg x -> nonneg (fmul x (S754_finite false m e)).
Proof.
  destruct x as [[]|[]| |[] mx ex]; cbn; try tauto.
  intros _. apply binary_round_aux_nonneg. lia.
Qed.

Lemma fadd_nonneg (x y : float) : nonneg x -> nonneg y -> nonneg (fadd x y).
Proof.
  destruct x as [[]|[]| |[] mx ex], y as [[]|[]| |[] my ey];
    cbn; try tauto.
  intros _ _.
  unfold binary_normalize.
  match goal with |- context [(Z.pos ?a + Z.pos ?b)] =>
    change (Z.pos a + Z.pos b) with (Z.pos (a + b)) end.
  cbv beta iota. unfold binary_round.
  match goal with |- context [shl_align ?a ?b ?c] =>
    destruct (shl_align a b c) as [mz ez] end.
  apply binary_round_aux_nonneg. lia.
Qed.

Lemma fdiv_raw_nonneg (p q : positive) (e1 e2 : Z) :
  nonneg (fdiv (S754_finite false p e1) (S754_finite false q e2)).
Proof.
  unfold fdiv, SFdiv. cbn [xorb].
  destruct (SFdiv_core_binary prec emax (Z.pos p) e1 (Z.pos q) e2)
    as [[mz ez] lz] eqn:Hcore.
  apply binary_round_aux_nonneg.
  unfold SFdiv_core_binary in Hcore.
  match type of Hcore with
  | (let '(_, _) := Z.div_eucl ?a ?b in _) = _ =>
      pose proof (Z_div_mod a b ltac:(lia)) as Hdm;
      assert (Ha : 0 <= a);
      [| destruct (Z.div_eucl a b) as [quo rem]]
  end.
  { match goal with |- 0 <= match ?s with _ => _ end =>
      destruct s end; try lia. apply Z.shiftl_nonneg. lia. }
  inversion Hcore; subst. nia.
Qed.

Lemma of_decimal_nonneg (m : N) (k : nat) : nonneg (of_decimal m k).
Proof.
  unfold of_decimal. destruct m; [exact I | apply fdiv_raw_nonneg].
Qed.

Lemma float_of_string_nonneg (s : string) (x : float) :
  float_of_string s = Some x -> nonneg x.
Proof.
  unfold float_of_string. destruct (PyStr.span_digits s) as [i r].
  destruct i as [|c i]; [discriminate|].
  destruct r as [|c' f].
  - intros H; inversion H. apply of_decimal_nonneg.
  - destruct (_ && _); [|discriminate].
    intros H; inversion H. apply of_decimal_nonneg.
Qed.

Lemma _parse_time_nonneg (time_str : string) : nonneg (_parse_time time_str).
Proof.
  unfold _parse_time.
  destruct (PyStr.split_on ":" time_str) as [|p0 [|p1 [|p2 rest]]]; try exact I.
  destruct (float_of_string p0) as [h|] eqn:H0; [|exact I].
  destruct (float_of_string p1) as [m|] eqn:H1; [|exact I].
  destruct (float_of_string p2) as [s|] eqn:H2; [|exact I].
  apply float_of_string_nonneg in H0, H1, H2.
  apply fadd_nonneg; [apply fadd_nonneg|]; try assumption.
  - change (lit 3600) with (S754_finite false 7916483719987200 (-41)).
    now apply fmul_lit_nonneg.
  - change (lit 60) with (S754_finite false 8444249301319680 (-47)).
    now apply fmul_lit_nonneg.
Qed.

Lemma fle_zero_nonneg (x : float) : nonneg x -> fle fzero x = true.
Proof. destruct x as [[]|[]| |[] m e]; cbn; tauto. Qed.

Lemma fle_refl_nonneg (x : float) : nonneg x -> fle x x = true.
Proof.
  destruct x as [[]|[]| |[] m e]; cbn; try tauto. intros _.
  unfold fle, SFleb, SFcompare. rewrite Z.compare_refl, Pos.compare_cont_refl.
  reflexivity.
Qed.

(** Among non-negative floats, [b < a] or [a <= b]. *)
Lemma flt_false_fle (a b : float) :
  nonneg a -> nonneg b -> flt b a = false -> fle a b = true.
Proof.
  destruct a as [[]|[]| |[] ma ea], b as [[]|[]| |[] mb eb];
    cbn; try tauto; try discriminate.
  intros _ _. unfold flt, fle, SFltb, SFleb, SFcompare.
  rewrite (Z.compare_antisym ea eb).
  destruct (ea ?= eb) eqn:He; cbn; try discriminate; try reflexivity.
  assert (Hm : Pos.compare_cont Eq mb ma = CompOpp (Pos.compare_cont Eq ma mb))
    by (symmetry; exact (Pos.compare_cont_antisym ma mb Eq)).
  rewrite Hm.
  destruct (Pos.compare_cont Eq ma mb); cbn; try discriminate; reflexivity.
Qed.

Lemma above_five_nonneg (d : float) : flt (lit 5) d = true -> nonneg d.
Proof.
  change (lit 5) with (S754_finite false 5629499534213120 (-50)).
  destruct d as [[]|[]| |[] m e]; cbn; try discriminate; tauto.
Qed.

Lemma above_five_positive (d : float) :
  flt (lit 5) d = true -> flt fzero d = true.
Proof.
  change (lit 5) with (S754_finite false 5629499534213120 (-50)).
  destruct d as [[]|[]| |[] m e]; cbn; try discriminate; tauto.
Qed.

(** A non-negative time capped at a non-negative duration lies between
    zero and the duration. *)
Lemma pmin_within (t d : float) :
  nonneg t -> nonneg d -> within d (pmin t d) = true.
Proof.
  intros Ht Hd. unfold within, pmin.
  destruct (flt d t) eqn:Hlt.
  - rewrite (fle_zero_nonneg d Hd), (fle_refl_nonneg d Hd). reflexivity.
  - rewrite (fle_zero_nonneg t Ht), (flt_false_fle t d Ht Hd Hlt). reflexivity.
Qed.

(** ** Progress reports (C4) *)

Lemma bar_values_snoc (evs : list event) (e : event) :
  bar_values (evs ++ [e])
  = (bar_values evs ++ (if e is BarSet n _ then [n] else []))%list.
Proof.
  unfold bar_values. rewrite omap_app. destruct e; reflexivity.
Qed.

Lemma markers_cons (line : string) (lines : list string) :
  markers (line :: lines)
  = (match marker line with Some t => [t] | None => [] end ++ markers lines)%list.
Proof. unfold markers. cbn. destruct (marker line); reflexivity. Qed.

(** With a progress bar, the loop sets the bar once for every marker it
    reads, to the marker's time capped at the duration; it shows nothing
    else, and ends normally or by the interruption. *)
Lemma read_lines_bar (E : env) (duration : float) (description : string)
    (start_time : float) (lines : list string) :
  forall (budget : option nat) (last_time : float) (w : world),
    let r := read_lines E true duration description start_time lines budget
                        last_time w in
    bar_values (shown (snd r))
    = (bar_values (shown w)
       ++ map (fun t => pmin t duration) (markers (lines_read budget lines)))%list
    /\ (fst r = Ok [] \/ fst r = Raise KeyboardInterrupt).
Proof.
  induction lines as [|line rest IH]; intros budget last_time w.
  - destruct budget as [[|n]|]; cbn; rewrite app_nil_r; auto.
  - destruct budget as [[|n]|]; cbn [read_lines].
    + cbn. rewrite app_nil_r. auto.
    + cbn [lines_read take]. rewrite markers_cons. unfold marker.
      unfold mbind at 1, M_bind at 1.
      destruct (contains_time line); [destruct (search_time line) as [g|]|];
        cbn [fmap option_fmap option_map];
        unfold report_progress, mbind, M_bind, time_time, show, mret, M_ret;
        cbn [fst snd];
        match goal with |- context [read_lines _ _ _ _ _ _ ?b ?l ?w0] =>
          specialize (IH b l w0) end;
        cbv zeta in IH; destruct IH as [IH1 IH2];
        (split; [|exact IH2]); rewrite IH1;
        cbn [shown lines_read fmap option_fmap option_map];
        rewrite ?bar_values_snoc, <- ?app_assoc; reflexivity.
    + cbn [lines_read]. rewrite markers_cons. unfold marker.
      unfold mbind at 1, M_bind at 1.
      destruct (contains_time line); [destruct (search_time line) as [g|]|];
        cbn [fmap option_fmap option_map];
        unfold report_progress, mbind, M_bind, time_time, show, mret, M_ret;
        cbn [fst snd];
        match goal with |- context [read_lines _ _ _ _ _ _ ?b ?l ?w0] =>
          specialize (IH b l w0) end;
        cbv zeta in IH; destruct IH as [IH1 IH2];
        (split; [|exact IH2]); rewrite IH1;
        cbn [shown lines_read fmap option_fmap option_map];
        rewrite ?bar_values_snoc, <- ?app_assoc; reflexivity.
Qed.

Lemma markers_nonneg (lines : list string) : Forall nonneg (markers lines).
Proof.
  induction lines as [|line rest IH]; [constructor|].
  rewrite markers_cons. unfold marker.
  destruct (contains_time line); [destruct (search_time line) as [g|]|];
    cbn; try assumption.
  constructor; [apply _parse_time_nonneg | assumption].
Qed.

(** C4, as stated, fails.  With a progress bar and a stream whose second
    marker (5.5 s) is earlier than its first (10 s), the bar is set to 10
    and then to 5.5.  Without a progress bar and with a marker of 125.5 s
    for a source of 83.93 s, the status line shows 125.5 s. *)
Lemma C4_reports_follow_the_markers :
  let duration := of_decimal 8393 2 in
  let job := Sample.job 10 (Some "426x240") false in
  let run tqdm lines :=
    shown (snd (_run_ffmpeg
                  (Sample.environment tqdm
                     (fun _ _ => Sample.proc lines None (fun fs => fs) 0))
                  job ["ffmpeg"] duration "Encoding Pass"
                  (initial Sample.disk))) in
  bar_values (run true Sample.backwards) = [lit 10; of_decimal 55 1]
  /\ nondecreasing (bar_values (run true Sample.backwards)) = false
  /\ status_times (run false Sample.overlong) = [of_decimal 1255 1]
  /\ forallb (within duration) (status_times (run false Sample.overlong))
     = false.
Proof. vm_compute. repeat split. Qed.

(** C4 (amended): in a monitored pass with a progress bar (tqdm present,
    duration above five seconds) the values the bar is set to are, in
    order, the times of the markers read from the stream, each capped at
    the duration; every one of them lies between zero and the duration.
    The order of the values is the order of the markers. *)
Theorem C4_bar_shows_capped_markers
    (E : env) (self : VideoCompressor) (cmd : list string)
    (duration : float) (description : string) (w : world) :
  verbose self = false -> TQDM_AVAILABLE E = true ->
  flt (lit 5) duration = true ->
  let p := ffmpeg E cmd (files w) in
  let reported :=
    map (fun t => pmin t duration)
        (markers (lines_read (p_interrupt p) (p_stderr p))) in
  bar_values (shown (snd (_run_ffmpeg E self cmd duration description w)))
  = (bar_values (shown w) ++ reported)%list
  /\ Forall (fun n => within duration n = true) reported.
Proof.
  intros Hverb Htqdm Hd p reported. subst p reported. split.
  - unfold _run_ffmpeg. rewrite Hverb, Htqdm, Hd, (above_five_positive _ Hd).
    cbn [andb].
    unfold mbind at 1, M_bind at 1, time_time at 1.
    unfold mbind at 1, M_bind at 1, show at 1.
    unfold mbind at 1, M_bind at 1, Popen at 1.
    cbn [files shown ticks spawned probed killed].
    unfold mbind at 1, M_bind at 1, try_finally, try_except.
    match goal with |- context [read_lines ?a ?b ?c ?d ?e ?f ?g ?h ?w0] =>
      pose proof (read_lines_bar a c d e f g h w0) as Hloop;
      destruct (read_lines a b c d e f g h w0) as [o w1]
    end.
    cbv zeta in Hloop. cbn [fst snd shown] in Hloop.
    destruct Hloop as [Hvals Hout].
    rewrite bar_values_snoc, app_nil_r in Hvals.
    unfold wait_timeout, mbind, M_bind, show, kill_group, mret, M_ret, raise.
    destruct Hout as [-> | ->];
      destruct (p_exits_in_time (ffmpeg E cmd (files w)));
      cbn [negb verbose files shown ticks spawned probed killed fst snd];
      try destruct (negb _);
      cbn [fst snd shown]; rewrite ?bar_values_snoc, ?app_nil_r; exact Hvals.
  - apply Forall_map.
    eapply Forall_impl; [apply markers_nonneg|].
    intros t Ht. cbn beta.
    apply pmin_within; [exact Ht | exact (above_five_nonneg _ Hd)].
Qed.

(** The pass of the counterexample again: the bar is set to 10 and to 5.5,
    both within the 83.93 seconds of the source. *)
Lemma C4_witness_backwards :
  let E := Sample.environment true
             (fun _ _ => Sample.proc Sample.backwards None (fun fs => fs) 0) in
  let duration := of_decimal 8393 2 in
  let r := _run_ffmpeg E (Sample.job 10 (Some "426x240") false) ["ffmpeg"]
                       duration "Encoding Pass" (initial Sample.disk) in
  bar_values (shown (snd r)) = [lit 10; of_decimal 55 1]
  /\ Forall (fun n => within duration n = true) [lit 10; of_decimal 55 1].
Proof.
  intros E duration r.
  destruct (C4_bar_shows_capped_markers E (Sample.job 10 (Some "426x240") false)
              ["ffmpeg"] duration "Encoding Pass" (initial Sample.disk))
    as [Hvals Hin]; [reflexivity | reflexivity | vm_compute; reflexivity |].
  split.
  - fold r in Hvals. rewrite Hvals. vm_compute. reflexivity.
  - assert (Heq : map (fun t => pmin t duration)
                      (markers (lines_read None Sample.backwards))
                  = [lit 10; of_decimal 55 1]) by (vm_compute; reflexivity).
    rewrite <- Heq. exact Hin.
Defined.

(** With a progress bar, a pass that is not interrupted always reads its
    stream to the end: the hypothesis of [pass_exit_status_decides] on
    the stream then holds. *)
Lemma read_lines_bar_completes (E : env) (duration : float)
    (description : string) (start_time : float) (lines : list string) :
  forall (last_time : float) (w : world),
    fst (read_lines E true duration description start_time lines None
                    last_time w) = Ok [].
Proof.
  induction lines as [|line rest IH]; intros last_time w; [reflexivity|].
  cbn [read_lines]. unfold mbind at 1, M_bind at 1.
  destruct (contains_time line); [destruct (search_time line) as [g|]|];
    unfold report_progress, mbind, M_bind, time_time, show, mret, M_ret;
    cbn [fmap option_fmap option_map]; apply IH.
Qed.

Lemma stream_ends_with_bar (E : env) (cmd : list string) (duration : float)
    (description : string) (w : world) :
  TQDM_AVAILABLE E = true -> flt (lit 5) duration = true ->
  p_interrupt (ffmpeg E cmd (files w)) = None ->
  stream_ends E cmd duration description w.
Proof.
  intros Htqdm Hd Hint. unfold stream_ends. cbv zeta.
  rewrite Htqdm, Hd, (above_five_positive _ Hd), Hint. cbn [andb].
  exists []. eexists. apply outcome_eta. apply read_lines_bar_completes.
Qed.

(** * Further properties of the compressor *)

(** ** Strings *)

Lemma append_cons (c : ascii) (s t : string) :
  String c s +:+ t = String c (s +:+ t).
Proof. reflexivity. Qed.

Lemma append_empty_r (s : string) : s +:+ "" = s.
Proof. induction s as [|c s IH]; [reflexivity|]. rewrite append_cons, IH. reflexivity. Qed.

Lemma append_associative (s t u : string) : (s +:+ t) +:+ u = s +:+ t +:+ u.
Proof.
  induction s as [|c s IH]; [reflexivity|]. rewrite !append_cons, IH. reflexivity.
Qed.

Lemma all_digits_cons (c : ascii) (s : string) :
  PyStr.all_digits (String c s) = PyStr.is_digit c && PyStr.all_digits s.
Proof. reflexivity. Qed.

Lemma span_digits_inv (s d r : string) :
  PyStr.span_digits s = (d, r) ->
  s = d +:+ r /\ PyStr.all_digits d = true /\ stops_digits r.
Proof.
  revert d r. induction s as [|c s IH]; intros d r; cbn [PyStr.span_digits].
  - intros H; inversion H; subst. repeat split.
  - destruct (PyStr.is_digit c) eqn:Hc.
    + destruct (PyStr.span_digits s) as [d' t'] eqn:Hs.
      intros H; inversion H; subst.
      destruct (IH d' r eq_refl) as (-> & Hd & Hr).
      rewrite append_cons, all_digits_cons, Hc, Hd. repeat split. exact Hr.
    + intros H; inversion H; subst. repeat split. exact Hc.
Qed.

Lemma span_digits_app (d r : string) :
  PyStr.all_digits d = true -> stops_digits r ->
  PyStr.span_digits (d +:+ r) = (d, r).
Proof.
  intros Hd Hr. induction d as [|c d IH].
  - change ("" +:+ r) with r. destruct r as [|c r]; [reflexivity|].
    cbn [PyStr.span_digits]. cbn in Hr. rewrite Hr. reflexivity.
  - rewrite all_digits_cons in Hd. apply andb_prop in Hd as [Hc Hd].
    rewrite append_cons. cbn [PyStr.span_digits]. rewrite Hc, (IH Hd). reflexivity.
Qed.

(** ** The resolution planner and the constructor *)

Lemma preset_values_valid (s wh : string) :
  RESOLUTION_PRESETS !! s = Some wh ->
  match_WxH wh = true /\ wh ≠ "" /\ RESOLUTION_PRESETS !! wh = None
  /\ exists w h, unpack_WxH wh = Ok (w, h) /\ 0 < w /\ 0 < h.
Proof.
  intros H. unfold RESOLUTION_PRESETS in H.
  apply elem_of_list_to_map_2 in H.
  repeat (apply elem_of_cons in H as [H|H];
          [ inversion H; subst; clear H;
            (split; [reflexivity|]); (split; [discriminate|]);
            (split; [reflexivity|]);
            eexists; eexists; (split; [reflexivity|]); split; reflexivity
          | ]).
  apply elem_of_nil in H. contradiction.
Qed.

Lemma auto_selected_is_preset (target_size : Z) :
  target_size <= 100 ->
  exists name,
    _normalize_resolution None target_size = RESOLUTION_PRESETS !! name
    /\ is_Some (RESOLUTION_PRESETS !! name).
Proof.
  intros Ht. unfold _normalize_resolution. cbn [mbind option_bind truthy negb].
  destruct (Z.leb_spec target_size 5); [exists "144p"; split; [reflexivity | vm_compute; eauto]|].
  destruct (Z.leb_spec target_size 15); [exists "240p"; split; [reflexivity | vm_compute; eauto]|].
  destruct (Z.leb_spec target_size 50); [exists "360p"; split; [reflexivity | vm_compute; eauto]|].
  destruct (Z.leb_spec target_size 100); [exists "480p"; split; [reflexivity | vm_compute; eauto]|].
  lia.
Qed.

(** What the planner returns, case by case: the value of a preset name;
    for an absent request the preset chosen by the target size, or the
    request itself above 100 MB; any other text unchanged. *)
Lemma normalize_cases (requested : option string) (target_size : Z) :
  (exists s wh, requested = Some s /\ RESOLUTION_PRESETS !! s = Some wh
                /\ _normalize_resolution requested target_size = Some wh)
  \/ (truthy requested = false /\ target_size <= 100
      /\ _normalize_resolution requested target_size
         = _normalize_resolution None target_size)
  \/ (truthy requested = false /\ 100 < target_size
      /\ _normalize_resolution requested target_size = requested)
  \/ (exists s, requested = Some s /\ s ≠ "" /\ RESOLUTION_PRESETS !! s = None
                /\ _normalize_resolution requested target_size = Some s).
Proof.
  destruct requested as [s|].
  - destruct (RESOLUTION_PRESETS !! s) as [wh|] eqn:Hp.
    + left. exists s, wh. repeat split; try assumption.
      unfold _normalize_resolution.
      change (Some s ≫= (RESOLUTION_PRESETS !!.)) with (RESOLUTION_PRESETS !! s).
      rewrite Hp. reflexivity.
    + destruct (String.eqb_spec s "") as [-> | Hs].
      * right. destruct (Z.leb_spec target_size 100).
        -- left. repeat split; [assumption|].
           unfold _normalize_resolution.
           change (Some "" ≫= (RESOLUTION_PRESETS !!.)) with (RESOLUTION_PRESETS !! "").
           rewrite Hp. cbn [mbind option_bind truthy negb String.eqb].
           destruct (Z.leb_spec target_size 5); [reflexivity|].
           destruct (Z.leb_spec target_size 15); [reflexivity|].
           destruct (Z.leb_spec target_size 50); [reflexivity|].
           destruct (Z.leb_spec target_size 100); [reflexivity | lia].
        -- right. left. repeat split; [assumption|].
           now apply normalize_absent_large.
      * right. right. right. exists s. repeat split; try assumption.
        now apply normalize_explicit.
  - right. destruct (Z.leb_spec target_size 100).
    + left. repeat split; assumption.
    + right. left. repeat split; [assumption|]. now apply normalize_absent_large.
Qed.

(** X1: the constructor succeeds exactly on the acceptable requests (none,
    the empty string, a preset name, digits-x-digits); the resolution of
    the job is then what the planner returns; every other request is
    rejected with the invalid-format error that names it. *)
Theorem init_accepts_exactly
    (input output : string) (target_size : Z) (requested : option string)
    (verb : bool) :
  __init__ input output target_size requested verb
  = if acceptable requested
    then inr {| input_path := input; output_path := output;
                target_size_mb := target_size; verbose := verb;
                resolution := _normalize_resolution requested target_size |}
    else inl (InvalidResolutionFormat (default "" requested)).
Proof.
  unfold __init__, acceptable.
  destruct (normalize_cases requested target_size)
    as [(s & wh & -> & Hp & ->) | [(Hr & Ht & ->) | [(Hr & Ht & ->)
        | (s & -> & Hs & Hp & ->)]]].
  - destruct (preset_values_valid s wh Hp) as (Hm & Hwh & _).
    rewrite Hm, andb_false_r, Hp.
    rewrite bool_decide_eq_true_2 by eauto.
    rewrite orb_true_l, orb_true_r. reflexivity.
  - rewrite Hr. cbn [negb orb].
    destruct (auto_selected_is_preset target_size Ht) as (name & -> & [wh Hp]).
    rewrite Hp. destruct (preset_values_valid name wh Hp) as (Hm & _).
    rewrite Hm, andb_false_r. reflexivity.
  - rewrite Hr. cbn [negb orb andb]. destruct requested; reflexivity.
  - rewrite (truthy_Some s Hs), Hp. cbn [negb orb andb default from_option id].
    rewrite bool_decide_eq_false_2 by (intros [x Hx]; discriminate).
    cbn [orb]. destruct (match_WxH s); reflexivity.
Qed.

(** X2: planning is idempotent: planning again from a planned resolution
    gives the same resolution. *)
Theorem normalize_idempotent (requested : option string) (target_size : Z) :
  _normalize_resolution (_normalize_resolution requested target_size)
                        target_size
  = _normalize_resolution requested target_size.
Proof.
  assert (Hvalue : forall s wh, RESOLUTION_PRESETS !! s = Some wh ->
            _normalize_resolution (Some wh) target_size = Some wh).
  { intros s wh Hp. destruct (preset_values_valid s wh Hp) as (_ & Hwh & Hnone & _).
    now apply normalize_explicit. }
  destruct (normalize_cases requested target_size)
    as [(s & wh & -> & Hp & ->) | [(Hr & Ht & ->) | [(Hr & Ht & ->)
        | (s & -> & Hs & Hp & ->)]]].
  - exact (Hvalue s wh Hp).
  - destruct (auto_selected_is_preset target_size Ht) as (name & -> & [wh Hp]).
    rewrite Hp. exact (Hvalue name wh Hp).
  - now apply normalize_absent_large.
  - now apply normalize_explicit.
Qed.

(** ** The resolution pattern and the reading of a resolution *)

Lemma digit_not_x (c : ascii) :
  PyStr.is_digit c = true -> Ascii.eqb c "x" = false.
Proof.
  intros H. destruct (Ascii.eqb_spec c "x") as [-> | _]; [|reflexivity].
  vm_compute in H. discriminate.
Qed.

Lemma digit_not_space (c : ascii) :
  PyStr.is_digit c = true -> PyStr.is_space c = false.
Proof.
  unfold PyStr.is_digit, PyStr.is_space. cbv zeta.
  destruct (N_of_ascii c) as [|p]; [discriminate|].
  intros H. apply andb_prop in H as [H1 H2].
  apply N.leb_le in H1, H2.
  repeat match goal with
         | |- context [(?a <=? ?b)%N] => destruct (N.leb_spec a b)
         | |- context [(?a =? ?b)%N] => destruct (N.eqb_spec a b)
         end; try reflexivity; lia.
Qed.

Lemma stops_digits_x (rest : string) : stops_digits (String "x" rest).
Proof. reflexivity. Qed.

Lemma stops_digits_newline : stops_digits (String PyStr.newline "").
Proof. reflexivity. Qed.

(** What the pattern consumes of a text it accepts. *)
Lemma match_WxH_shape (s : string) :
  match_WxH s = true ->
  exists w h,
    w ≠ "" /\ h ≠ "" /\ PyStr.all_digits w = true /\ PyStr.all_digits h = true
    /\ (s = w +:+ "x" +:+ h \/ s = w +:+ "x" +:+ h +:+ String PyStr.newline "").
Proof.
  unfold match_WxH.
  destruct (PyStr.span_digits s) as [w r1] eqn:H1.
  destruct w as [|c w]; [discriminate|].
  destruct r1 as [|c1 r2]; [discriminate|].
  destruct (Ascii.eqb_spec c1 "x") as [-> | _]; [|discriminate].
  destruct (PyStr.span_digits r2) as [h r3] eqn:H2.
  destruct h as [|c2 h]; [discriminate|].
  intros Hend.
  apply span_digits_inv in H1 as (-> & Hw & _).
  apply span_digits_inv in H2 as (-> & Hh & _).
  exists (String c w), (String c2 h).
  split; [discriminate|]. split; [discriminate|].
  split; [exact Hw|]. split; [exact Hh|].
  apply orb_prop in Hend as [He | He]; apply String.eqb_eq in He; subst r3.
  - left. rewrite append_empty_r. reflexivity.
  - right. reflexivity.
Qed.

(** Every text of that shape is accepted. *)
Lemma match_WxH_of_shape (s w h : string) :
  w ≠ "" -> h ≠ "" ->
  PyStr.all_digits w = true -> PyStr.all_digits h = true ->
  s = w +:+ "x" +:+ h \/ s = w +:+ "x" +:+ h +:+ String PyStr.newline "" ->
  match_WxH s = true.
Proof.
  intros Hw0 Hh0 Hw Hh Hs.
  unfold match_WxH.
  assert (H1 : exists rest, s = w +:+ String "x" rest
                 /\ PyStr.span_digits rest
                    = (h, if decide (s = w +:+ "x" +:+ h) then ""
                          else String PyStr.newline "")).
  { destruct Hs as [-> | ->].
    - exists h. split; [reflexivity|].
      rewrite decide_True by reflexivity.
      rewrite <- (append_empty_r h) at 1.
      now apply span_digits_app.
    - exists (h +:+ String PyStr.newline ""). split; [reflexivity|].
      rewrite decide_False.
      + apply span_digits_app; [exact Hh | apply stops_digits_newline].
      + intros Heq. apply (inj (String.append w)) in Heq.
        change ("x" +:+ h +:+ String PyStr.newline "")
          with (String "x" (h +:+ String PyStr.newline "")) in Heq.
        change ("x" +:+ h) with (String "x" h) in Heq.
        inversion Heq as [Heq'].
        rewrite <- (append_empty_r h) in Heq' at 2.
        apply (inj (String.append h)) in Heq'. discriminate. }
  destruct H1 as (rest & Hrest & Hspan).
  rewrite Hrest, (span_digits_app w (String "x" rest) Hw (stops_digits_x rest)).
  destruct w as [|c w]; [contradiction|].
  rewrite Ascii.eqb_refl, Hspan.
  destruct h as [|c2 h]; [contradiction|].
  destruct (decide _); reflexivity.
Qed.

(** X3: the pattern accepts exactly the texts made of a non-empty run of
    digits, an [x], a non-empty run of digits, and then nothing or one
    final newline. *)
Theorem match_WxH_exactly (s : string) :
  match_WxH s = true <->
  exists w h,
    w ≠ "" /\ h ≠ "" /\ PyStr.all_digits w = true /\ PyStr.all_digits h = true
    /\ (s = w +:+ "x" +:+ h \/ s = w +:+ "x" +:+ h +:+ String PyStr.newline "").
Proof.
  split; [apply match_WxH_shape|].
  - intros (w & h & Hw0 & Hh0 & Hw & Hh & Hs).
    exact (match_WxH_of_shape s w h Hw0 Hh0 Hw Hh Hs).
Qed.

Lemma list_ascii_of_string_append (s t : string) :
  list_ascii_of_string (s +:+ t)
  = (list_ascii_of_string s ++ list_ascii_of_string t)%list.
Proof.
  induction s as [|c s IH]; [reflexivity|].
  rewrite append_cons. cbn [list_ascii_of_string]. rewrite IH. reflexivity.
Qed.

Lemma rev_string_involutive (s : string) :
  PyStr.rev_string (PyStr.rev_string s) = s.
Proof.
  unfold PyStr.rev_string.
  rewrite list_ascii_of_string_of_list_ascii, rev_involutive.
  apply string_of_list_ascii_of_string.
Qed.

Lemma rev_string_snoc (s : string) (c : ascii) :
  PyStr.rev_string (s +:+ String c "") = String c (PyStr.rev_string s).
Proof.
  unfold PyStr.rev_string. rewrite list_ascii_of_string_append.
  cbn [list_ascii_of_string]. rewrite rev_app_distr. reflexivity.
Qed.

Lemma all_digits_rev (s : string) :
  PyStr.all_digits (PyStr.rev_string s) = PyStr.all_digits s.
Proof.
  unfold PyStr.all_digits, PyStr.rev_string.
  rewrite list_ascii_of_string_of_list_ascii.
  generalize (list_ascii_of_string s) as l. intros l.
  destruct (forallb PyStr.is_digit l) eqn:Hl.
  - apply forallb_forall. intros c Hc. apply in_rev in Hc.
    rewrite forallb_forall in Hl. now apply Hl.
  - destruct (forallb PyStr.is_digit (rev l)) eqn:Hr; [|reflexivity].
    rewrite <- Hl. symmetry. apply forallb_forall. intros c Hc.
    rewrite forallb_forall in Hr. apply Hr. now apply in_rev in Hc.
Qed.

Lemma rev_string_nonempty (s : string) : s ≠ "" -> PyStr.rev_string s ≠ "".
Proof.
  intros Hs Hr. apply Hs. rewrite <- (rev_string_involutive s), Hr. reflexivity.
Qed.

Lemma lstrip_digits (s : string) :
  PyStr.all_digits s = true -> PyStr.lstrip s = s.
Proof.
  destruct s as [|c s]; [reflexivity|].
  rewrite all_digits_cons. intros H. apply andb_prop in H as [Hc _].
  cbn [PyStr.lstrip]. rewrite (digit_not_space c Hc). reflexivity.
Qed.

(** Stripping leaves a run of digits as it is, and removes one final
    newline after it. *)
Lemma strip_digits (d : string) :
  PyStr.all_digits d = true -> PyStr.strip d = d.
Proof.
  intros Hd. unfold PyStr.strip.
  rewrite (lstrip_digits d Hd), lstrip_digits by (now rewrite all_digits_rev).
  apply rev_string_involutive.
Qed.

Lemma lstrip_digits_then (d t : string) :
  PyStr.all_digits d = true -> d ≠ "" -> PyStr.lstrip (d +:+ t) = d +:+ t.
Proof.
  destruct d as [|c d]; [contradiction|].
  rewrite all_digits_cons. intros H _. apply andb_prop in H as [Hc _].
  rewrite append_cons. cbn [PyStr.lstrip].
  rewrite (digit_not_space c Hc). reflexivity.
Qed.

Lemma strip_digits_newline (d : string) :
  PyStr.all_digits d = true -> d ≠ "" ->
  PyStr.strip (d +:+ String PyStr.newline "") = d.
Proof.
  intros Hd Hne. unfold PyStr.strip.
  rewrite (lstrip_digits_then d _ Hd Hne), rev_string_snoc.
  cbn [PyStr.lstrip].
  change (PyStr.is_space PyStr.newline) with true. cbv iota.
  rewrite lstrip_digits by (now rewrite all_digits_rev).
  apply rev_string_involutive.
Qed.

Lemma split_on_x_digits (d : string) :
  PyStr.all_digits d = true -> PyStr.split_on "x" d = [d].
Proof.
  induction d as [|c d IH]; [reflexivity|].
  rewrite all_digits_cons. intros H. apply andb_prop in H as [Hc Hd].
  cbn [PyStr.split_on]. rewrite (digit_not_x c Hc), (IH Hd). reflexivity.
Qed.

Lemma split_on_x_digits_newline (d : string) :
  PyStr.all_digits d = true ->
  PyStr.split_on "x" (d +:+ String PyStr.newline "")
  = [d +:+ String PyStr.newline ""].
Proof.
  induction d as [|c d IH]; [reflexivity|].
  rewrite all_digits_cons. intros H. apply andb_prop in H as [Hc Hd].
  rewrite append_cons. cbn [PyStr.split_on].
  rewrite (digit_not_x c Hc), (IH Hd). reflexivity.
Qed.

Lemma split_on_x_digits_then (d rest : string) :
  PyStr.all_digits d = true ->
  PyStr.split_on "x" (d +:+ String "x" rest) = d :: PyStr.split_on "x" rest.
Proof.
  induction d as [|c d IH]; [reflexivity|].
  rewrite all_digits_cons. intros H. apply andb_prop in H as [Hc Hd].
  rewrite append_cons. cbn [PyStr.split_on].
  rewrite (digit_not_x c Hc), (IH Hd). reflexivity.
Qed.

Lemma digits_value_nonneg (d : string) :
  PyStr.all_digits d = true -> 0 <= PyStr.digits_value d.
Proof.
  unfold PyStr.digits_value, PyStr.all_digits.
  assert (H : forall l acc, 0 <= acc -> forallb PyStr.is_digit l = true ->
                0 <= fold_left (fun a c => 10 * a + PyStr.digit_val c) l acc).
  { induction l as [|c l IH]; intros acc Hacc Hl; [exact Hacc|].
    cbn [forallb] in Hl. apply andb_prop in Hl as [Hc Hl].
    cbn [fold_left]. apply IH; [|exact Hl].
    unfold PyStr.is_digit in Hc. cbv zeta in Hc.
    apply andb_prop in Hc as [Hc _]. apply N.leb_le in Hc.
    unfold PyStr.digit_val. lia. }
  intros Hd. apply H; [lia | exact Hd].
Qed.

Lemma string_length_append (s t : string) :
  String.length (s +:+ t) = (String.length s + String.length t)%nat.
Proof.
  induction s as [|c s IH]; [reflexivity|].
  rewrite append_cons. cbn [String.length]. now rewrite IH.
Qed.

(** [int] reads a run of digits, up to the limit on their number. *)
Lemma int_of_string_digits (d : string) :
  PyStr.all_digits d = true -> d ≠ "" ->
  PyStr.int_of_string d
  = if (String.length d <=? PyStr.int_max_str_digits)%nat
    then Some (PyStr.digits_value d) else None.
Proof.
  intros Hd Hne. unfold PyStr.int_of_string. cbv zeta.
  rewrite (strip_digits d Hd), Hd.
  destruct (String.eqb_spec d ""); [contradiction | reflexivity].
Qed.

Lemma int_of_string_digits_newline (d : string) :
  PyStr.all_digits d = true -> d ≠ "" ->
  PyStr.int_of_string (d +:+ String PyStr.newline "")
  = if (String.length d <=? PyStr.int_max_str_digits)%nat
    then Some (PyStr.digits_value d) else None.
Proof.
  intros Hd Hne. unfold PyStr.int_of_string. cbv zeta.
  rewrite (strip_digits_newline d Hd Hne), Hd.
  destruct (String.eqb_spec d ""); [contradiction | reflexivity].
Qed.

(** A width and a height within the limit are read back; a width beyond
    it is the ValueError of [int]. *)
Lemma unpack_digits (w h : string) :
  w ≠ "" -> h ≠ "" ->
  PyStr.all_digits w = true -> PyStr.all_digits h = true ->
  unpack_WxH (w +:+ "x" +:+ h)
  = if (String.length w <=? PyStr.int_max_str_digits)%nat
    then if (String.length h <=? PyStr.int_max_str_digits)%nat
         then Ok (PyStr.digits_value w, PyStr.digits_value h)
         else Raise (BadLiteral h)
    else Raise (BadLiteral w).
Proof.
  intros Hw0 Hh0 Hw Hh. unfold unpack_WxH.
  change ("x" +:+ h) with (String "x" h).
  rewrite (split_on_x_digits_then w _ Hw), (split_on_x_digits h Hh).
  rewrite (int_of_string_digits w Hw Hw0), (int_of_string_digits h Hh Hh0).
  destruct (_ <=? _)%nat; [|reflexivity].
  destruct (_ <=? _)%nat; reflexivity.
Qed.

(** A text the pattern accepts is no preset name. *)
Lemma matched_is_no_preset (s : string) :
  match_WxH s = true -> RESOLUTION_PRESETS !! s = None.
Proof.
  intros Hm. destruct (RESOLUTION_PRESETS !! s) as [wh|] eqn:Hp; [|reflexivity].
  exfalso. unfold RESOLUTION_PRESETS in Hp.
  apply elem_of_list_to_map_2 in Hp.
  repeat (apply elem_of_cons in Hp as [Hp|Hp];
          [inversion Hp; subst; discriminate Hm|]).
  apply elem_of_nil in Hp. contradiction.
Qed.

(** C10: every explicit request of the form digits-x-digits with a width
    or a height of zero ("0x0", "0x480", "640x0", "000x000", ...) passes
    validation for every target size and becomes the resolution of the
    job; when the command is built it is read back as these two numbers,
    one of them zero (numerals of up to 4300 digits, the most [int]
    converts). *)
Theorem C10_zero_dimensions_accepted
    (input output : string) (target_size : Z) (verb : bool)
    (wd hd : string) :
  wd ≠ "" -> hd ≠ "" ->
  PyStr.all_digits wd = true -> PyStr.all_digits hd = true ->
  PyStr.digits_value wd = 0 \/ PyStr.digits_value hd = 0 ->
  let res := wd +:+ "x" +:+ hd in
  match_WxH res = true
  /\ _normalize_resolution (Some res) target_size = Some res
  /\ __init__ input output target_size (Some res) verb
     = inr {| input_path := input; output_path := output;
              target_size_mb := target_size; verbose := verb;
              resolution := Some res |}
  /\ ((String.length wd <= PyStr.int_max_str_digits)%nat ->
      (String.length hd <= PyStr.int_max_str_digits)%nat ->
      exists width height,
        unpack_WxH res = Ok (width, height) /\ (width = 0 \/ height = 0)).
Proof.
  intros Hw0 Hh0 Hw Hh Hzero res.
  assert (Hm : match_WxH res = true)
    by (apply (match_WxH_of_shape res wd hd); auto).
  assert (Hne : res ≠ "")
    by (subst res; destruct wd; [contradiction | discriminate]).
  pose proof (matched_is_no_preset res Hm) as Hp.
  split; [exact Hm|].
  split; [now apply normalize_explicit|].
  split; [now apply init_explicit_accepted|].
  intros Hlw Hlh. exists (PyStr.digits_value wd), (PyStr.digits_value hd).
  split; [|exact Hzero].
  subst res. rewrite (unpack_digits wd hd Hw0 Hh0 Hw Hh).
  apply Nat.leb_le in Hlw, Hlh. rewrite Hlw, Hlh. reflexivity.
Qed.

(** The request "640x0". *)
Lemma C10_witness_640x0 :
  match_WxH "640x0" = true
  /\ _normalize_resolution (Some "640x0") 950 = Some "640x0"
  /\ __init__ "in.mp4" "out.mp4" 950 (Some "640x0") false
     = inr (Sample.job 950 (Some "640x0") false)
  /\ unpack_WxH "640x0" = Ok (640, 0).
Proof.
  destruct (C10_zero_dimensions_accepted "in.mp4" "out.mp4" 950 false
              "640" "0") as (Hm & Hn & Hi & Hu);
    [discriminate | discriminate | reflexivity | reflexivity
     | right; reflexivity |].
  split; [exact Hm|]. split; [exact Hn|]. split; [exact Hi|].
  reflexivity.
Defined.

(** Every text the pattern accepts is read back as two integers, neither
    of them negative. *)
Lemma unpack_matched (r : string) :
  match_WxH r = true ->
  (String.length r <= PyStr.int_max_str_digits)%nat ->
  exists w h, unpack_WxH r = Ok (w, h) /\ 0 <= w /\ 0 <= h.
Proof.
  intros Hm Hlen. apply match_WxH_shape in Hm
    as (w & h & Hw0 & Hh0 & Hw & Hh & Hr).
  exists (PyStr.digits_value w), (PyStr.digits_value h).
  split; [|split; now apply digits_value_nonneg].
  assert (Hlw : (String.length w <=? PyStr.int_max_str_digits)%nat = true
                /\ (String.length h <=? PyStr.int_max_str_digits)%nat = true).
  { split; apply Nat.leb_le;
      destruct Hr as [-> | ->]; rewrite !string_length_append in Hlen; lia. }
  destruct Hlw as [Hlw Hlh].
  unfold unpack_WxH.
  destruct Hr as [-> | ->];
    change ("x" +:+ ?t) with (String "x" t);
    rewrite (split_on_x_digits_then w _ Hw).
  - rewrite (split_on_x_digits h Hh).
    rewrite (int_of_string_digits w Hw Hw0), (int_of_string_digits h Hh Hh0).
    rewrite Hlw, Hlh. reflexivity.
  - rewrite (split_on_x_digits_newline h Hh).
    rewrite (int_of_string_digits w Hw Hw0),
            (int_of_string_digits_newline h Hh Hh0).
    rewrite Hlw, Hlh. reflexivity.
Qed.

(** X4: a job the constructor accepted with a resolution of at most 4300
    characters (the most digits [int] converts) does not fail when its
    command is built: the resolution is read back as two non-negative
    integers, and the command is the base command when the resolution is
    the source's, text for text, and the base command followed by the
    scaling filter for these integers otherwise.  Beyond that length the
    constructor still accepts, and [int] refuses the number when the
    command is built (lemma [unpack_digits]). *)
Theorem accepted_resolution_builds
    (input output : string) (target_size : Z) (requested : option string)
    (verb : bool) (job : VideoCompressor) (r : string) :
  __init__ input output target_size requested verb = inr job ->
  resolution job = Some r -> r ≠ "" ->
  (String.length r <= PyStr.int_max_str_digits)%nat ->
  exists w h base,
    0 <= w /\ 0 <= h /\ unpack_WxH r = Ok (w, h)
    /\ forall original_res,
         cmd_base job (Some r) original_res
         = Ok (if decide (r = original_res) then base
               else base ++ ["-vf"; scale_cmd w h])%list.
Proof.
  intros Hinit Hres Hne Hlen.
  assert (Hm : match_WxH r = true).
  { unfold __init__ in Hinit.
    destruct (_normalize_resolution requested target_size) as [r'|] eqn:Hn.
    - destruct (match_WxH r') eqn:Hm'.
      + cbn [negb] in Hinit. rewrite andb_false_r in Hinit.
        inversion Hinit; subst. cbn [resolution] in Hres.
        inversion Hres; subst. exact Hm'.
      + destruct (truthy (Some r')) eqn:Ht; cbn [andb negb] in Hinit;
          [discriminate|].
        inversion Hinit; subst. cbn [resolution] in Hres.
        inversion Hres; subst.
        rewrite (truthy_Some r Hne) in Ht. discriminate.
    - inversion Hinit; subst. cbn [resolution] in Hres. discriminate. }
  destruct (unpack_matched r Hm Hlen) as (w & h & Hu & Hw & Hh).
  exists w, h. eexists. split; [exact Hw|]. split; [exact Hh|].
  split; [exact Hu|]. intros original_res. unfold cmd_base.
  destruct (decide (r = original_res)) as [-> | Hneq].
  - rewrite bool_decide_eq_false_2 by (intros H; now apply H). reflexivity.
  - rewrite bool_decide_eq_true_2
      by (intros H; inversion H; contradiction).
    rewrite Hu. reflexivity.
Qed.

Lemma accepted_resolution_builds_witness :
  exists w h base,
    0 <= w /\ 0 <= h /\ unpack_WxH "0640x480" = Ok (w, h)
    /\ forall original_res,
         cmd_base (Sample.job 10 (Some "0640x480") false) (Some "0640x480")
                  original_res
         = Ok (if decide ("0640x480" = original_res) then base
               else base ++ ["-vf"; scale_cmd w h])%list.
Proof.
  apply (accepted_resolution_builds "in.mp4" "out.mp4" 10 (Some "0640x480")
           false (Sample.job 10 (Some "0640x480") false) "0640x480");
    [reflexivity | reflexivity | discriminate | vm_compute; lia].
Defined.

(** ** What a computation may raise *)

Lemma raises_only_ret {A : Type} (P : exn -> Prop) (a : A) :
  raises_only P (mret a).
Proof. intros w e w' H. inversion H. Qed.

Lemma raises_only_raise {A : Type} (P : exn -> Prop) (e : exn) :
  P e -> raises_only P (raise e : M A).
Proof. intros He w e' w' H. inversion H; subst. exact He. Qed.

Lemma raises_only_bind {A B : Type} (P : exn -> Prop) (m : M A) (f : A -> M B) :
  raises_only P m -> (forall a, raises_only P (f a)) ->
  raises_only P (m ≫= f).
Proof.
  intros Hm Hf w e w'. unfold mbind, M_bind.
  destruct (m w) as [[a|e1] w1] eqn:Hmw.
  - apply Hf.
  - intros H; inversion H; subst. exact (Hm _ _ _ Hmw).
Qed.

Lemma raises_only_bind_value {A B : Type} (P : exn -> Prop) (m : M A)
    (f : A -> M B) :
  raises_only P m ->
  (forall w a w1 e w2, m w = (Ok a, w1) -> f a w1 = (Raise e, w2) -> P e) ->
  raises_only P (m ≫= f).
Proof.
  intros Hm Hf w e w'. unfold mbind, M_bind.
  destruct (m w) as [[a|e1] w1] eqn:Hmw.
  - intros H. exact (Hf _ _ _ _ _ Hmw H).
  - intros H; inversion H; subst. exact (Hm _ _ _ Hmw).
Qed.

Lemma raises_only_weaken {A : Type} (P Q : exn -> Prop) (m : M A) :
  (forall e, P e -> Q e) -> raises_only P m -> raises_only Q m.
Proof. intros HPQ Hm w e w' H. apply HPQ. exact (Hm _ _ _ H). Qed.

Lemma raises_only_try_except {A : Type} (P Q : exn -> Prop) (body : M A)
    (handles : exn -> bool) (handler : exn -> M A) :
  raises_only Q body ->
  (forall e, Q e -> handles e = false -> P e) ->
  (forall e, Q e -> handles e = true -> raises_only P (handler e)) ->
  raises_only P (try_except body handles handler).
Proof.
  intros Hb Hpass Hh w e w'. unfold try_except.
  destruct (body w) as [[a|e1] w1] eqn:Hbw; [discriminate|].
  pose proof (Hb _ _ _ Hbw) as HQ.
  destruct (handles e1) eqn:He1.
  - apply (Hh e1 HQ He1).
  - intros H; inversion H; subst. exact (Hpass _ HQ He1).
Qed.

Lemma raises_only_try_finally {A : Type} (P : exn -> Prop) (body : M A)
    (final : M unit) :
  raises_only P body -> raises_only P final ->
  raises_only P (try_finally body final).
Proof.
  intros Hb Hf w e w'. unfold try_finally.
  destruct (body w) as [r w1] eqn:Hbw.
  destruct (final w1) as [[[]|e2] w2] eqn:Hfw.
  - intros H; inversion H; subst. exact (Hb _ _ _ Hbw).
  - intros H; inversion H; subst. exact (Hf _ _ _ Hfw).
Qed.

Lemma raises_only_show (P : exn -> Prop) (ev : event) : raises_only P (show ev).
Proof. intros w e w' H. inversion H. Qed.

Lemma raises_only_exists (P : exn -> Prop) (path : string) :
  raises_only P (exists_ path).
Proof. intros w e w' H. inversion H. Qed.

Lemma raises_only_st_size (P : exn -> Prop) (path : string) :
  raises_only P (st_size path).
Proof. intros w e w' H. inversion H. Qed.

Lemma raises_only_unlink (P : exn -> Prop) (path : string) :
  raises_only P (unlink path).
Proof. intros w e w' H. inversion H. Qed.

Lemma raises_only_kill (P : exn -> Prop) : raises_only P kill_group.
Proof. intros w e w' H. inversion H. Qed.

Lemma raises_only_time (P : exn -> Prop) (E : env) : raises_only P (time_time E).
Proof. intros w e w' H. inversion H. Qed.

Lemma raises_only_Popen (P : exn -> Prop) (E : env) (cmd : list string) :
  raises_only P (Popen E cmd).
Proof. intros w e w' H. inversion H. Qed.

Lemma raises_only_cleanup (P : exn -> Prop) (logs : list string) :
  raises_only P (cleanup_passlogs logs).
Proof. intros w e w' H. rewrite cleanup_passlogs_spec in H. inversion H. Qed.

Lemma raises_only_int_of_float (x : float) :
  raises_only (fun e => e = OverflowError \/ e = NotAnInteger) (int_of_float x).
Proof.
  intros w e w'. unfold int_of_float.
  destruct (trunc x); [intros H; inversion H|].
  destruct (is_nan x); intros H; inversion H; auto.
Qed.

Create HintDb raises.
#[local] Hint Resolve raises_only_ret raises_only_show raises_only_exists
  raises_only_st_size raises_only_unlink raises_only_kill raises_only_time
  raises_only_Popen raises_only_cleanup : raises.

Lemma report_progress_raises (E : env) (bar : bool) (duration : float)
    (description : string) (start_time last_time current_time : float) :
  raises_only arithmetic
    (report_progress E bar duration description start_time last_time
                     current_time).
Proof.
  unfold report_progress. destruct bar.
  - apply raises_only_bind; [auto with raises|]. intros t.
    apply raises_only_bind; auto with raises.
  - apply raises_only_bind; [auto with raises|]. intros t1.
    destruct (fle _ _); [|auto with raises].
    apply raises_only_bind; [auto with raises|]. intros t2.
    apply raises_only_bind.
    + destruct (flt fzero duration); [|auto with raises].
      apply raises_only_bind; [apply raises_only_int_of_float|].
      auto with raises.
    + intros p. apply raises_only_bind; auto with raises.
Qed.

(** The monitoring loop raises the user's interruption, only when there
    is one, or an error of the progress arithmetic. *)
Lemma read_lines_raises (E : env) (bar : bool) (duration : float)
    (description : string) (start_time : float) (lines : list string) :
  forall (budget : option nat) (last_time : float),
    raises_only (fun e => (e = KeyboardInterrupt /\ budget <> None)
                          \/ arithmetic e)
      (read_lines E bar duration description start_time lines budget
                  last_time).
Proof.
  induction lines as [|line rest IH]; intros budget last_time.
  - destruct budget as [[|n]|]; cbn [read_lines];
      try (apply raises_only_raise; left; split; [reflexivity | discriminate]).
    apply raises_only_ret.
  - destruct budget as [[|n]|]; cbn [read_lines].
    + apply raises_only_raise. left. split; [reflexivity | discriminate].
    + apply raises_only_bind.
      * destruct (contains_time line); [destruct (search_time line)|];
          try apply raises_only_ret.
        eapply raises_only_weaken; [|apply report_progress_raises]. auto.
      * intros t. eapply raises_only_weaken; [|apply IH].
        intros e [[-> _] | H]; [left; split; [reflexivity | discriminate] | auto].
    + apply raises_only_bind.
      * destruct (contains_time line); [destruct (search_time line)|];
          try apply raises_only_ret.
        eapply raises_only_weaken; [|apply report_progress_raises]. auto.
      * intros t. eapply raises_only_weaken; [|apply IH].
        intros e [[_ H] | H]; [contradiction | auto].
Qed.

Lemma _run_ffmpeg_raises (E : env) (self : VideoCompressor)
    (cmd : list string) (duration : float) (description : string) :
  raises_only (pass_failure E) (_run_ffmpeg E self cmd duration description).
Proof.
  unfold _run_ffmpeg. destruct (verbose self).
  - apply raises_only_bind; [auto with raises|]. intros _.
    apply raises_only_bind_value; [auto with raises|].
    intros w p w1 e w2 Hp. inversion Hp; subst; clear Hp.
    unfold mbind, M_bind, raise, mret, M_ret.
    destruct (p_interrupt (ffmpeg E cmd (files w))) eqn:Hint.
    + intros H; inversion H; subst. left. split; [reflexivity|].
      exists cmd, (files w). rewrite Hint. discriminate.
    + destruct (Z.eqb_spec (p_returncode (ffmpeg E cmd (files w))) 0);
        cbn [negb]; intros H; inversion H; subst.
      right. right. right. eauto.
  - cbv zeta.
    apply raises_only_bind; [auto with raises|]. intros start_time.
    apply raises_only_bind; [destruct (_ && _); auto with raises|]. intros _.
    apply raises_only_bind_value; [auto with raises|].
    intros w p w1 e w2 Hp. inversion Hp; subst; clear Hp.
    match goal with |- ?m ?w0 = (Raise _, _) -> _ =>
      assert (Hrest : raises_only (pass_failure E) m);
      [| intros Hr; exact (Hrest _ _ _ Hr)]
    end.
    apply raises_only_bind.
    + apply raises_only_try_finally.
      * eapply raises_only_try_except; [apply read_lines_raises | |].
        -- intros e0 [[-> _] | Ha]; [discriminate | intros _; right; left; exact Ha].
        -- intros e0 [[-> Hb] | Ha] He0.
           ++ apply raises_only_bind; [auto with raises|]. intros _.
              apply raises_only_bind; [auto with raises|]. intros _.
              apply raises_only_raise. left. split; [reflexivity|].
              exists cmd, (files w). exact Hb.
           ++ destruct Ha as [-> | ->]; discriminate.
      * apply raises_only_bind.
        -- unfold wait_timeout. destruct (p_exits_in_time _);
             [auto with raises | apply raises_only_raise].
           right. right. left. reflexivity.
        -- intros _. destruct (_ && _); [auto with raises|].
           destruct (negb _); auto with raises.
    + intros unread. destruct (negb _) eqn:Hcode; [|auto with raises].
      apply raises_only_raise. right. right. right.
      eexists. eexists. split; [reflexivity|].
      intros H0. rewrite H0 in Hcode. discriminate.
Qed.

Lemma raises_only_lift_outcome {A : Type} (P : exn -> Prop) (r : outcome A) :
  (forall e, r = Raise e -> P e) -> raises_only P (lift_outcome r).
Proof. intros Hr w e w' H. inversion H; subst. now apply Hr. Qed.

Lemma bitrate_budget_raises (target : Z) (duration : float) (e : exn) :
  bitrate_budget target duration = Raise e -> e = OverflowError.
Proof.
  unfold bitrate_budget. destruct (of_int (target * 8388608));
    intros H; inversion H. reflexivity.
Qed.

Lemma video_bitrate_kbps_raises (b : budget) (duration : float) (e : exn) :
  video_bitrate_kbps b duration = Raise e -> is_Exception e = true.
Proof.
  unfold video_bitrate_kbps.
  destruct duration; try (intros H; inversion H; reflexivity);
    destruct (trunc _); try discriminate;
    destruct (is_nan _); intros H; inversion H; reflexivity.
Qed.

Lemma unpack_WxH_raises (res : string) (e : exn) :
  unpack_WxH res = Raise e -> is_Exception e = true.
Proof.
  unfold unpack_WxH.
  repeat match goal with
         | |- context [match ?x with _ => _ end] => destruct x
         end;
    intros H; inversion H; reflexivity.
Qed.

Lemma cmd_base_raises (self : VideoCompressor) (target_res : option string)
    (original_res : string) (e : exn) :
  cmd_base self target_res original_res = Raise e -> is_Exception e = true.
Proof.
  unfold cmd_base. destruct (bool_decide _); [|discriminate].
  destruct target_res as [res|]; [|intros H; inversion H; reflexivity].
  destruct (unpack_WxH res) as [[w h]|e'] eqn:Hu; [discriminate|].
  intros H; inversion H; subst. exact (unpack_WxH_raises _ _ Hu).
Qed.

Lemma int_true_div_raises (a : N) (b : positive) (e : exn) :
  int_true_div a b = Raise e -> e = OverflowError.
Proof.
  unfold int_true_div. destruct a; [discriminate|].
  destruct (fdiv _ _); intros H; inversion H; reflexivity.
Qed.

Lemma verify_output_raises (self : VideoCompressor) (target_res : option string) :
  raises_only (fun e => is_Exception e = true) (verify_output self target_res).
Proof.
  unfold verify_output.
  apply raises_only_bind; [auto with raises|]. intros present.
  destruct (negb present); [now apply raises_only_raise|].
  apply raises_only_bind; [auto with raises|]. intros size.
  apply raises_only_bind.
  { apply raises_only_lift_outcome. intros e He.
    apply int_true_div_raises in He. subst. reflexivity. }
  intros final.
  apply raises_only_bind; [auto with raises|]. intros _.
  apply raises_only_bind; [auto with raises|]. intros _.
  apply raises_only_bind.
  { unfold opt. destruct (of_int _); [auto with raises|].
    now apply raises_only_raise. }
  intros target.
  apply raises_only_bind.
  { destruct (_ =? _); [now apply raises_only_raise | auto with raises]. }
  intros _.
  apply raises_only_bind; [auto with raises|]. intros _.
  destruct (flt _ _); [|auto with raises].
  apply raises_only_bind; [auto with raises|]. intros _.
  apply raises_only_bind; auto with raises.
Qed.

Lemma pass_failure_compress (E : env) (e : exn) :
  pass_failure E e -> compress_failure E e.
Proof.
  intros [[-> Hi] | [[-> | ->] | [-> | (code & tail & -> & _)]]].
  - right. left. split; [reflexivity|]. right. exact Hi.
  - right. right. reflexivity.
  - right. right. reflexivity.
  - right. right. reflexivity.
  - right. right. reflexivity.
Qed.

Lemma two_pass_raises (E : env) (self : VideoCompressor)
    (cmd1 cmd2 : list string) (duration : float) :
  raises_only (pass_failure E) (two_pass E self cmd1 cmd2 duration).
Proof.
  unfold two_pass.
  eapply raises_only_try_except with (Q := pass_failure E).
  - apply raises_only_bind; [apply _run_ffmpeg_raises|]. intros _.
    apply raises_only_bind; [apply _run_ffmpeg_raises|]. intros _.
    auto with raises.
  - intros e He _. exact He.
  - intros e He _. apply raises_only_bind; [auto with raises|]. intros _.
    now apply raises_only_raise.
Qed.

Lemma compress_raises (E : env) (self : VideoCompressor) :
  probe_stays E -> raises_only (compress_failure E) (compress E self).
Proof.
  intros Hstay. unfold compress.
  apply raises_only_bind.
  { intros w e w'. unfold try_except, _get_stream_info, mbind, M_bind, probing.
    unfold probe_stays in Hstay. unfold compress_failure, probe_fails, interruptible.
    destruct (ffprobe E) as [e0 | [d [wd ht]]] eqn:Hprobe.
    - unfold raise, show. destruct e0; cbn [is_Exception];
        intros H; inversion H; subst; auto; try contradiction.
      all: left; split; reflexivity.
    - unfold mret, M_ret, raise, show. destruct (fle d fzero) eqn:Hd;
        cbn [is_Exception]; intros H; inversion H; subst.
      left. split; reflexivity. }
  intros [duration original_res].
  apply raises_only_bind; [auto with raises|]. intros _.
  apply raises_only_bind; [auto with raises|]. intros _.
  apply raises_only_bind.
  { destruct (truthy _); apply raises_only_bind; auto with raises. }
  intros target_res.
  apply raises_only_bind.
  { apply raises_only_lift_outcome. intros e He.
    apply bitrate_budget_raises in He. subst. right. right. reflexivity. }
  intros b.
  apply raises_only_bind.
  { destruct (adjusted b); [|auto with raises].
    apply raises_only_bind; auto with raises. }
  intros _.
  apply raises_only_bind.
  { apply raises_only_lift_outcome. intros e He.
    apply video_bitrate_kbps_raises in He. right. right. exact He. }
  intros kbps.
  apply raises_only_bind; [auto with raises|]. intros _.
  apply raises_only_bind; [auto with raises|]. intros _.
  apply raises_only_bind.
  { apply raises_only_lift_outcome. intros e He.
    apply cmd_base_raises in He. right. right. exact He. }
  intros base.
  apply raises_only_bind.
  { eapply raises_only_weaken; [apply pass_failure_compress|].
    apply two_pass_raises. }
  intros _.
  eapply raises_only_weaken; [|apply verify_output_raises].
  intros e He. right. right. exact He.
Qed.

(** ** The exit status of the program *)

Lemma init_failure (input output : string) (target_size : Z)
    (requested : option string) (verb : bool) (e : exn) :
  __init__ input output target_size requested verb = inl e ->
  is_Exception e = true.
Proof.
  unfold __init__.
  destruct (_normalize_resolution requested target_size) as [r|]; [|discriminate].
  destruct (_ && _); intros H; inversion H. reflexivity.
Qed.

Lemma check_dependencies_raises (E : env) (tools : list string) :
  raises_only (fun e => e = SystemExit 1) (check_dependencies E tools).
Proof.
  intros w e w' H.
  destruct (check_dependencies_outcome E tools w) as [Hok | (w1 & Hex & _)];
    rewrite H in *; [discriminate | inversion Hex; reflexivity].
Qed.

(** What leaves [main]: its own exits, and what the prompt raises. *)
Lemma main_from_raises (E : env) (ask : M string) (Q : exn -> Prop)
    (args : arguments) :
  probe_stays E -> raises_only Q ask ->
  raises_only (fun e => e = SystemExit 1
                        \/ (e = SystemExit 130 /\ interruptible E)
                        \/ Q e)
              (main_from E ask args).
Proof.
  intros Hstay Hask. unfold main_from.
  apply raises_only_bind.
  { eapply raises_only_weaken; [|apply check_dependencies_raises]. auto. }
  intros _.
  apply raises_only_bind; [auto with raises|]. intros input_present.
  apply raises_only_bind.
  { destruct (negb input_present); [|auto with raises].
    apply raises_only_bind; [auto with raises|]. intros _.
    apply raises_only_raise. auto. }
  intros _.
  apply raises_only_bind; [auto with raises|]. intros output_present.
  apply raises_only_bind.
  { destruct (_ && _); [|auto with raises].
    apply raises_only_bind.
    { eapply raises_only_weaken; [|exact Hask]. auto. }
    intros response.
    destruct (negb _); [|auto with raises].
    apply raises_only_bind; [auto with raises|]. intros _.
    apply raises_only_raise. auto. }
  intros _.
  apply raises_only_bind.
  { destruct (_ && _); auto with raises. }
  intros _.
  eapply raises_only_try_except with (Q := compress_failure E).
  - apply raises_only_bind.
    + unfold lift.
      destruct (__init__ _ _ _ _ _) as [e|c] eqn:Hinit; [|auto with raises].
      apply raises_only_raise. right. right. exact (init_failure _ _ _ _ _ _ Hinit).
    + intros c. now apply compress_raises.
  - intros e [[-> _] | [[-> _] | He]]; [auto | discriminate |].
    destruct e; cbn in He |- *; congruence.
  - intros e He Hhandled.
    destruct e; try discriminate Hhandled.
    1: { apply raises_only_bind; [auto with raises|]. intros _.
         apply raises_only_raise. right. left. split; [reflexivity|].
         destruct He as [[H _] | [[_ Hi] | H]];
           [discriminate | exact Hi | discriminate]. }
    all: apply raises_only_bind; [auto with raises|]; intros _;
        (apply raises_only_bind; [destruct (a_verbose args); auto with raises|]);
        intros _;
        (apply raises_only_bind; [auto with raises|]); intros present;
        (apply raises_only_bind; [auto with raises|]); intros size;
        (apply raises_only_bind; [destruct (_ && _); auto with raises|]);
        intros _; apply raises_only_raise; auto.
Qed.

Lemma main_raises (E : env) (args : arguments) :
  probe_stays E ->
  raises_only (fun e => e = SystemExit 1
                        \/ (e = SystemExit 130 /\ interruptible E))
              (main E args).
Proof.
  intros Hstay.
  eapply raises_only_weaken;
    [|apply (main_from_raises E (mret (answer E)) (fun _ => False) args Hstay);
      apply raises_only_ret].
  intros e [H | [H | []]]; auto.
Qed.

Lemma input_raises (E : env) :
  raises_only (fun e => exists f, prompt_error E = Some f /\ e = prompt_exn f)
              (input_ E).
Proof.
  unfold input_. destruct (prompt_error E) as [f|] eqn:Hf.
  - intros w e w' H. inversion H; subst. eauto.
  - apply raises_only_ret.
Qed.



(** ** What a computation leaves unchanged *)

Lemma keeps_ret {A : Type} (R : world -> world -> Prop) `{!Reflexive R} (a : A) :
  keeps R (mret a).
Proof. intros w. reflexivity. Qed.

Lemma keeps_raise {A : Type} (R : world -> world -> Prop) `{!Reflexive R}
    (e : exn) : keeps R (raise e : M A).
Proof. intros w. reflexivity. Qed.

Lemma keeps_lift_outcome {A : Type} (R : world -> world -> Prop)
    `{!Reflexive R} (r : outcome A) : keeps R (lift_outcome r).
Proof. intros w. reflexivity. Qed.

Lemma keeps_bind {A B : Type} (R : world -> world -> Prop) `{!Transitive R}
    (m : M A) (f : A -> M B) :
  keeps R m -> (forall a, keeps R (f a)) -> keeps R (m ≫= f).
Proof.
  intros Hm Hf w. unfold mbind, M_bind.
  pose proof (Hm w) as H1. destruct (m w) as [[a|e] w1]; cbn [snd] in *.
  - etransitivity; [exact H1 | apply Hf].
  - exact H1.
Qed.

Lemma keeps_try_except {A : Type} (R : world -> world -> Prop)
    `{!Transitive R} (body : M A) (handles : exn -> bool)
    (handler : exn -> M A) :
  keeps R body -> (forall e, keeps R (handler e)) ->
  keeps R (try_except body handles handler).
Proof.
  intros Hb Hh w. unfold try_except.
  pose proof (Hb w) as H1. destruct (body w) as [[a|e] w1]; cbn [snd] in *.
  - exact H1.
  - destruct (handles e); [|exact H1].
    etransitivity; [exact H1 | apply Hh].
Qed.

Lemma keeps_try_finally {A : Type} (R : world -> world -> Prop)
    `{!Transitive R} (body : M A) (final : M unit) :
  keeps R body -> keeps R final -> keeps R (try_finally body final).
Proof.
  intros Hb Hf w. unfold try_finally.
  pose proof (Hb w) as H1. destruct (body w) as [r w1]. cbn [snd] in H1.
  pose proof (Hf w1) as H2. destruct (final w1) as [[[]|e] w2];
    cbn [snd] in *; etransitivity; eassumption.
Qed.

Lemma keeps_weaken {A : Type} (R R' : world -> world -> Prop) (m : M A) :
  (forall w w', R w w' -> R' w w') -> keeps R m -> keeps R' m.
Proof. intros HR Hm w. apply HR, Hm. Qed.

#[local] Instance only_shows_refl : Reflexive only_shows.
Proof. intros w. repeat split. Qed.

#[local] Instance only_shows_trans : Transitive only_shows.
Proof.
  intros a b c (H1 & H2 & H3 & H4) (H5 & H6 & H7 & H8).
  repeat split; congruence.
Qed.

#[local] Instance same_disk_refl : Reflexive same_disk.
Proof. intros w. repeat split. Qed.

#[local] Instance same_disk_trans : Transitive same_disk.
Proof. intros a b c (H1 & H2 & H3) (H5 & H6 & H7). repeat split; congruence. Qed.

#[local] Instance same_at_refl (path : string) : Reflexive (same_at path).
Proof. intros w. reflexivity. Qed.

#[local] Instance same_at_trans (path : string) : Transitive (same_at path).
Proof. intros a b c H1 H2. unfold same_at in *. congruence. Qed.

Lemma only_shows_same_disk (w w' : world) : only_shows w w' -> same_disk w w'.
Proof. intros (H1 & H2 & H3 & _). repeat split; assumption. Qed.

Lemma same_disk_same_at (path : string) (w w' : world) :
  same_disk w w' -> same_at path w w'.
Proof. intros (H1 & _). unfold same_at. now rewrite H1. Qed.

Lemma show_only_shows (ev : event) : keeps only_shows (show ev).
Proof. intros w. repeat split. Qed.

Lemma time_only_shows (E : env) : keeps only_shows (time_time E).
Proof. intros w. repeat split. Qed.

Lemma exists_only_shows (path : string) : keeps only_shows (exists_ path).
Proof. intros w. repeat split. Qed.

Lemma st_size_only_shows (path : string) : keeps only_shows (st_size path).
Proof. intros w. repeat split. Qed.

Lemma int_of_float_only_shows (x : float) : keeps only_shows (int_of_float x).
Proof.
  intros w. unfold int_of_float. destruct (trunc x); repeat split.
Qed.

Create HintDb keeps.
#[local] Hint Resolve show_only_shows time_only_shows exists_only_shows
  st_size_only_shows int_of_float_only_shows : keeps.
#[local] Hint Extern 1 (keeps _ (mret _)) => apply keeps_ret; apply _ : keeps.
#[local] Hint Extern 1 (keeps _ (raise _)) => apply keeps_raise; apply _ : keeps.
#[local] Hint Extern 1 (keeps _ (lift_outcome _)) =>
  apply keeps_lift_outcome; apply _ : keeps.

Lemma report_progress_only_shows (E : env) (bar : bool) (duration : float)
    (description : string) (start_time last_time current_time : float) :
  keeps only_shows
    (report_progress E bar duration description start_time last_time
                     current_time).
Proof.
  unfold report_progress. destruct bar.
  - apply keeps_bind; [apply _ | auto with keeps|]. intros t.
    apply keeps_bind; [apply _ | auto with keeps|]. intros _. auto with keeps.
  - apply keeps_bind; [apply _ | auto with keeps|]. intros t1.
    destruct (fle _ _); [|auto with keeps].
    apply keeps_bind; [apply _ | auto with keeps|]. intros t2.
    apply keeps_bind; [apply _ | |].
    + destruct (flt fzero duration); [|auto with keeps].
      apply keeps_bind; [apply _ | auto with keeps|]. intros p.
      auto with keeps.
    + intros p. apply keeps_bind; [apply _ | auto with keeps|].
      intros _. auto with keeps.
Qed.

(** The monitoring loop changes nothing but the screen and the clock. *)
Lemma read_lines_only_shows (E : env) (bar : bool) (duration : float)
    (description : string) (start_time : float) (lines : list string) :
  forall (budget : option nat) (last_time : float),
    keeps only_shows
      (read_lines E bar duration description start_time lines budget
                  last_time).
Proof.
  induction lines as [|line rest IH]; intros budget last_time.
  - destruct budget as [[|n]|]; cbn [read_lines]; auto with keeps.
  - destruct budget as [[|n]|]; cbn [read_lines]; [auto with keeps | |];
      (apply keeps_bind; [apply _ | | intros t; apply IH]);
      (destruct (contains_time line); [destruct (search_time line)|];
       auto with keeps; apply report_progress_only_shows).
Qed.

Lemma kill_same_disk : keeps same_disk kill_group.
Proof. intros w. repeat split. Qed.

Lemma monitored_rest_same_disk (E : env) (self : VideoCompressor)
    (bar : bool) (duration : float) (description : string)
    (start_time : float) (p : process) :
  keeps same_disk
    (unread ←
       try_finally
         (try_except
            (read_lines E bar duration description start_time
                        (p_stderr p) (p_interrupt p) fzero)
            (fun e => if e is KeyboardInterrupt then true else false)
            (fun e => show Interrupting;; kill_group;; raise e))
         (wait_timeout p;;
          if bar then show BarClose
          else if negb (verbose self) then show (Print "") else mret tt);
     if negb ((p_returncode p =? 0) || (p_returncode p =? 255))
     then raise (FFmpegFailed (p_returncode p)
                              (Some (PyStr.strip (String.concat "" unread))))
     else mret tt).
Proof.
  assert (Hshow : forall ev, keeps same_disk (show ev)).
  { intros ev. eapply keeps_weaken; [apply only_shows_same_disk|].
    apply show_only_shows. }
  apply keeps_bind; [apply _ | |].
  - apply keeps_try_finally; [apply _ | |].
    + apply keeps_try_except; [apply _ | |].
      * eapply keeps_weaken; [apply only_shows_same_disk|].
        apply read_lines_only_shows.
      * intros e. apply keeps_bind; [apply _ | apply Hshow |]. intros _.
        apply keeps_bind; [apply _ | apply kill_same_disk |]. intros _.
        auto with keeps.
    + apply keeps_bind; [apply _ | |].
      * unfold wait_timeout. destruct (p_exits_in_time p); auto with keeps.
      * intros _. destruct bar; [apply Hshow|].
        destruct (negb _); [apply Hshow | auto with keeps].
  - intros unread. destruct (negb _); auto with keeps.
Qed.

(** One pass starts exactly one process, the one for its command; the
    files afterwards are the files that process left. *)
Lemma _run_ffmpeg_effect (E : env) (self : VideoCompressor)
    (cmd : list string) (duration : float) (description : string)
    (w : world) :
  let w' := snd (_run_ffmpeg E self cmd duration description w) in
  files w' = after_pass E cmd (files w)
  /\ spawned w' = (spawned w ++ [cmd])%list
  /\ probed w' = probed w.
Proof.
  cbv zeta. unfold after_pass.
  assert (H : same_disk
                {| files := p_writes (ffmpeg E cmd (files w)) (files w);
                   shown := shown w; ticks := ticks w;
                   spawned := (spawned w ++ [cmd])%list;
                   probed := probed w; killed := killed w |}
                (snd (_run_ffmpeg E self cmd duration description w))).
  { unfold _run_ffmpeg. destruct (verbose self) eqn:Hv.
    - unfold mbind, M_bind, show, Popen, raise, mret, M_ret.
      cbn [files shown ticks spawned probed killed].
      destruct (p_interrupt _); [repeat split|].
      destruct (negb _); repeat split.
    - cbv zeta.
      unfold mbind at 1, M_bind at 1, time_time at 1.
      unfold mbind at 1, M_bind at 1.
      set (bar := TQDM_AVAILABLE E && flt (lit 5) duration && flt fzero duration).
      assert (Hhead : forall w0,
        (if bar then show (BarOpen description duration)
         else show (PassHeader description duration)) w0
        = (Ok tt, {| files := files w0;
                     shown := (shown w0 ++ [if bar then BarOpen description duration
                                            else PassHeader description duration])%list;
                     ticks := ticks w0; spawned := spawned w0;
                     probed := probed w0; killed := killed w0 |}))
        by (intros w0; destruct bar; reflexivity).
      rewrite Hhead. unfold mbind at 1, M_bind at 1, Popen at 1.
      cbn [files shown ticks spawned probed killed].
      match goal with |- same_disk _ (snd (?m ?w0)) =>
        pose proof (monitored_rest_same_disk E self bar duration description
                      (now E (ticks w)) (ffmpeg E cmd (files w)) w0)
          as (H1 & H2 & H3)
      end.
      rewrite Hv in H1, H2, H3. cbn [negb] in H1, H2, H3.
      cbn [negb]. split; [exact H1|]. split; [exact H2 | exact H3]. }
  exact H.
Qed.

Lemma cleanup_world (w : world) :
  let w' := snd (cleanup_passlogs passlog_files w) in
  files w' = without_passlogs (files w) /\ spawned w' = spawned w
  /\ probed w' = probed w.
Proof. rewrite cleanup_passlogs_spec. repeat split. Qed.

(** ** The two-pass block: processes and files *)

(** The world after the two-pass block, by the outcome of its passes. *)
Lemma two_pass_world (E : env) (self : VideoCompressor)
    (cmd1 cmd2 : list string) (duration : float) (w : world) :
  let r := two_pass E self cmd1 cmd2 duration w in
  let fs1 := after_pass E cmd1 (files w) in
  let fs2 := after_pass E cmd2 fs1 in
  probed (snd r) = probed w
  /\ match fst (_run_ffmpeg E self cmd1 duration "Analysis Pass" w) with
     | Ok _ =>
         spawned (snd r) = (spawned w ++ [cmd1; cmd2])%list
         /\ files (snd r)
            = match fst r with
              | Raise e => if is_Exception e then without_passlogs fs2 else fs2
              | Ok _ => without_passlogs fs2
              end
     | Raise e =>
         fst r = Raise e
         /\ spawned (snd r) = (spawned w ++ [cmd1])%list
         /\ files (snd r) = if is_Exception e then without_passlogs fs1 else fs1
     end.
Proof.
  cbv zeta. unfold two_pass, try_except, mbind, M_bind.
  pose proof (_run_ffmpeg_effect E self cmd1 duration "Analysis Pass" w)
    as (Hf1 & Hs1 & Hp1).
  destruct (_run_ffmpeg E self cmd1 duration "Analysis Pass" w)
    as [[[]|e1] w1]; cbn [fst snd] in *.
  - pose proof (_run_ffmpeg_effect E self cmd2 duration "Encoding Pass" w1)
      as (Hf2 & Hs2 & Hp2).
    destruct (_run_ffmpeg E self cmd2 duration "Encoding Pass" w1)
      as [[[]|e2] w2]; cbn [fst snd] in *.
    + rewrite cleanup_passlogs_spec.
      cbn [fst snd files spawned probed].
      rewrite Hf2, Hs2, Hp2, Hf1, Hs1, Hp1, <- app_assoc. repeat split.
    + destruct (is_Exception e2) eqn:He2.
      * rewrite cleanup_passlogs_spec. unfold raise.
        cbn [fst snd files spawned probed]. rewrite He2.
        rewrite Hf2, Hs2, Hp2, Hf1, Hs1, Hp1, <- app_assoc. repeat split.
      * cbn [fst snd]. rewrite He2.
        rewrite Hf2, Hs2, Hp2, Hf1, Hs1, Hp1, <- app_assoc. repeat split.
  - destruct (is_Exception e1) eqn:He1.
    + rewrite cleanup_passlogs_spec. unfold raise.
      cbn [fst snd files spawned probed].
      rewrite Hf1, Hs1, Hp1. repeat split.
    + cbn [fst snd]. rewrite Hf1, Hs1, Hp1. repeat split.
Qed.

(** X6: the two-pass block starts the first encoder process always and the
    second one exactly when the first pass ended successfully: a failed or
    interrupted first pass is never followed by a second pass, and its
    exception is the exception of the block. *)
Theorem second_pass_only_after_first
    (E : env) (self : VideoCompressor) (cmd1 cmd2 : list string)
    (duration : float) (w : world) :
  let r := two_pass E self cmd1 cmd2 duration w in
  match fst (_run_ffmpeg E self cmd1 duration "Analysis Pass" w) with
  | Ok _ => spawned (snd r) = (spawned w ++ [cmd1; cmd2])%list
  | Raise e => fst r = Raise e /\ spawned (snd r) = (spawned w ++ [cmd1])%list
  end.
Proof.
  cbv zeta.
  pose proof (two_pass_world E self cmd1 cmd2 duration w) as [_ H].
  destruct (fst (_run_ffmpeg E self cmd1 duration "Analysis Pass" w));
    [exact (proj1 H) | exact (conj (proj1 H) (proj1 (proj2 H)))].
Qed.

(** X7: the files after the two-pass block are the files the encoder
    processes left, less the two pass logs; the pass logs stay only
    when the block ends with an exception that is not of class Exception
    (an interruption).  The block itself creates no file and deletes no
    other file. *)
Theorem two_pass_changes_only_passlogs
    (E : env) (self : VideoCompressor) (cmd1 cmd2 : list string)
    (duration : float) (w : world) :
  let r := two_pass E self cmd1 cmd2 duration w in
  let fs1 := after_pass E cmd1 (files w) in
  let left_by_encoder :=
    match fst (_run_ffmpeg E self cmd1 duration "Analysis Pass" w) with
    | Ok _ => after_pass E cmd2 fs1
    | Raise _ => fs1
    end in
  files (snd r)
  = match fst r with
    | Raise e => if is_Exception e then without_passlogs left_by_encoder
                 else left_by_encoder
    | Ok _ => without_passlogs left_by_encoder
    end.
Proof.
  cbv zeta.
  pose proof (two_pass_world E self cmd1 cmd2 duration w) as [_ H].
  destruct (fst (_run_ffmpeg E self cmd1 duration "Analysis Pass" w)).
  - exact (proj2 H).
  - destruct H as (-> & _ & H). exact H.
Qed.

(** ** The encoder's pass logs (C9) *)

Lemma without_passlogs_other (fs : gmap string N) (path : string) :
  path ∉ passlog_files -> without_passlogs fs !! path = fs !! path.
Proof.
  intros Hp. unfold without_passlogs, passlog_files in *. cbn [foldl].
  rewrite !lookup_delete_ne; [reflexivity | |];
    intros <-; apply Hp; apply list_elem_of_In; cbn; tauto.
Qed.

(** The cleanup does not name the files the encoder keeps. *)
Lemma encoder_passlogs_not_cleaned (path : string) :
  path ∈ encoder_passlogs "ffmpeg2pass" -> path ∉ passlog_files.
Proof.
  intros Hin Hp. apply list_elem_of_In in Hin, Hp.
  cbn in Hin, Hp.
  destruct Hin as [<- | [<- | []]]; destruct Hp as [H | [H | []]];
    discriminate H.
Qed.

(** C9 (failing): the cleanup of the two-pass block runs on success and on
    failure and skips a path that does not exist, but it unlinks
    [ffmpeg2pass] and [ffmpeg2pass.mbtree], which are not the files
    ffmpeg keeps for [-passlogfile ffmpeg2pass].  Whatever the encoder processes left
    under the names of their pass logs, [ffmpeg2pass-0.log] and
    [ffmpeg2pass-0.log.mbtree], is still there after the block, however
    the block ends. *)
Theorem C9_encoder_passlogs_survive
    (E : env) (self : VideoCompressor) (cmd1 cmd2 : list string)
    (duration : float) (w : world) (path : string) :
  path ∈ encoder_passlogs "ffmpeg2pass" ->
  let r := two_pass E self cmd1 cmd2 duration w in
  let fs1 := after_pass E cmd1 (files w) in
  let left_by_encoder :=
    match fst (_run_ffmpeg E self cmd1 duration "Analysis Pass" w) with
    | Ok _ => after_pass E cmd2 fs1
    | Raise _ => fs1
    end in
  files (snd r) !! path = left_by_encoder !! path.
Proof.
  intros Hin. apply encoder_passlogs_not_cleaned in Hin. cbv zeta.
  pose proof (two_pass_world E self cmd1 cmd2 duration w) as [_ H].
  cbv zeta in H.
  destruct (fst (_run_ffmpeg E self cmd1 duration "Analysis Pass" w)) as [[]|e].
  - destruct H as [_ ->].
    destruct (fst (two_pass E self cmd1 cmd2 duration w)) as [[]|e];
      [|destruct (is_Exception e)];
      try (now apply without_passlogs_other); reflexivity.
  - destruct H as (_ & _ & ->).
    destruct (is_Exception e);
      [now apply without_passlogs_other | reflexivity].
Qed.

(** A complete block and one whose second pass fails with status 1, with
    an encoder that keeps its logs as ffmpeg does: the log is on disk
    afterwards in both. *)
Lemma C9_witness_log_remains :
  let E code := Sample.environment true (Fixture.x264 code 9000000) in
  let run code :=
    two_pass (E code) (Sample.job 10 (Some "426x240") false)
      ["ffmpeg"; "-pass"; "1"; "-passlogfile"; "ffmpeg2pass"; "-an"]
      ["ffmpeg"; "-pass"; "2"; "-passlogfile"; "ffmpeg2pass"; "out.mp4"]
      (of_decimal 8393 2) (initial Sample.disk) in
  (fst (run 0) = Ok tt
   /\ files (snd (run 0)) !! "ffmpeg2pass-0.log" = Some 4096%N)
  /\ (fst (run 1) = Raise (FFmpegFailed 1 (Some ""))
      /\ files (snd (run 1)) !! "ffmpeg2pass-0.log" = Some 4096%N).
Proof.
  intros E run.
  assert (Hin : "ffmpeg2pass-0.log" ∈ encoder_passlogs "ffmpeg2pass")
    by (apply list_elem_of_In; cbn; tauto).
  split; (split; [vm_compute; reflexivity|]); unfold run.
  - rewrite (C9_encoder_passlogs_survive (E 0) _ _ _ _ _ _ Hin).
    vm_compute. reflexivity.
  - rewrite (C9_encoder_passlogs_survive (E 1) _ _ _ _ _ _ Hin).
    vm_compute. reflexivity.
Defined.

(** The same for a whole run from the command line: it ends with
    status 0 and both logs of the encoder are on disk. *)
Lemma complete_run_leaves_encoder_logs :
  let E := Sample.environment true (Fixture.x264 0 9000000) in
  let r := main_argv E (Parsed (Sample.args 10 None false))
             (initial Sample.disk) in
  fst r = Ok tt
  /\ files (snd r) !! "ffmpeg2pass-0.log" = Some 4096%N
  /\ files (snd r) !! "ffmpeg2pass-0.log.mbtree" = Some 4096%N.
Proof. vm_compute. repeat split. Qed.

(** ** The files the program touches *)

Section OtherFiles.

Context (E : env) (path : string).
Hypothesis not_a_passlog : path ∉ passlog_files.
Hypothesis encoder_leaves_it :
  forall cmd fs, p_writes (ffmpeg E cmd fs) fs !! path = fs !! path.

Lemma shows_same_at {A : Type} (m : M A) :
  keeps only_shows m -> keeps (same_at path) m.
Proof.
  apply keeps_weaken. intros w w' H.
  apply same_disk_same_at, only_shows_same_disk, H.
Qed.

Lemma unlink_same_at (other : string) :
  other ≠ path -> keeps (same_at path) (unlink other).
Proof. intros Hne w. unfold same_at. cbn. now apply lookup_delete_ne. Qed.

Lemma cleanup_same_at : keeps (same_at path) (cleanup_passlogs passlog_files).
Proof.
  intros w. rewrite cleanup_passlogs_spec. unfold same_at, passlog_files.
  cbn [snd files foldl].
  assert (H1 : "ffmpeg2pass" ≠ path)
    by (intros <-; apply not_a_passlog; unfold passlog_files; set_solver).
  assert (H2 : "ffmpeg2pass.mbtree" ≠ path)
    by (intros <-; apply not_a_passlog; unfold passlog_files; set_solver).
  rewrite lookup_delete_ne by exact H2. now apply lookup_delete_ne.
Qed.

Lemma _run_ffmpeg_same_at (self : VideoCompressor) (cmd : list string)
    (duration : float) (description : string) :
  keeps (same_at path) (_run_ffmpeg E self cmd duration description).
Proof.
  intros w. unfold same_at.
  destruct (_run_ffmpeg_effect E self cmd duration description w) as (-> & _).
  apply encoder_leaves_it.
Qed.

Lemma two_pass_same_at (self : VideoCompressor) (cmd1 cmd2 : list string)
    (duration : float) :
  keeps (same_at path) (two_pass E self cmd1 cmd2 duration).
Proof.
  unfold two_pass. apply keeps_try_except; [apply _ | |].
  - apply keeps_bind; [apply _ | apply _run_ffmpeg_same_at |]. intros _.
    apply keeps_bind; [apply _ | apply _run_ffmpeg_same_at |]. intros _.
    apply cleanup_same_at.
  - intros e. apply keeps_bind; [apply _ | apply cleanup_same_at |].
    intros _. auto with keeps.
Qed.

Lemma verify_output_only_shows (self : VideoCompressor)
    (target_res : option string) :
  keeps only_shows (verify_output self target_res).
Proof.
  unfold verify_output.
  apply keeps_bind; [apply _ | auto with keeps |]. intros present.
  destruct (negb present); [auto with keeps|].
  apply keeps_bind; [apply _ | auto with keeps |]. intros size.
  apply keeps_bind; [apply _ | auto with keeps |]. intros final.
  apply keeps_bind; [apply _ | auto with keeps |]. intros _.
  apply keeps_bind; [apply _ | auto with keeps |]. intros _.
  apply keeps_bind; [apply _ | |].
  { unfold opt. destruct (of_int _); auto with keeps. }
  intros target.
  apply keeps_bind; [apply _ | |].
  { destruct (_ =? _); auto with keeps. }
  intros _.
  apply keeps_bind; [apply _ | auto with keeps |]. intros _.
  destruct (flt _ _); [|auto with keeps].
  apply keeps_bind; [apply _ | auto with keeps |]. intros _.
  apply keeps_bind; [apply _ | auto with keeps |]. intros _.
  auto with keeps.
Qed.

Lemma compress_same_at (self : VideoCompressor) :
  keeps (same_at path) (compress E self).
Proof.
  assert (Hshow : forall ev, keeps (same_at path) (show ev))
    by (intros ev; apply shows_same_at; auto with keeps).
  unfold compress.
  apply keeps_bind; [apply _ | |].
  { apply keeps_try_except; [apply _ | |].
    - apply keeps_bind; [apply _ | |].
      + unfold _get_stream_info. apply keeps_bind; [apply _ | |].
        * intros w. reflexivity.
        * intros _. destruct (ffprobe E) as [e | [d [wd ht]]]; auto with keeps.
      + intros [d r]. destruct (fle d fzero); auto with keeps.
    - intros e. apply keeps_bind; [apply _ | apply Hshow |]. intros _.
      auto with keeps. }
  intros [duration original_res].
  apply keeps_bind; [apply _ | apply Hshow |]. intros _.
  apply keeps_bind; [apply _ | apply Hshow |]. intros _.
  apply keeps_bind; [apply _ | |].
  { destruct (truthy _); (apply keeps_bind; [apply _ | apply Hshow |]);
      intros _; auto with keeps. }
  intros target_res.
  apply keeps_bind; [apply _ | auto with keeps |]. intros b.
  apply keeps_bind; [apply _ | |].
  { destruct (adjusted b); [|auto with keeps].
    apply keeps_bind; [apply _ | apply Hshow |]. intros _. apply Hshow. }
  intros _.
  apply keeps_bind; [apply _ | auto with keeps |]. intros kbps.
  apply keeps_bind; [apply _ | apply Hshow |]. intros _.
  apply keeps_bind; [apply _ | apply Hshow |]. intros _.
  apply keeps_bind; [apply _ | auto with keeps |]. intros base.
  apply keeps_bind; [apply _ | apply two_pass_same_at |]. intros _.
  apply shows_same_at, verify_output_only_shows.
Qed.

Lemma check_dependencies_same_at (tools : list string) :
  keeps (same_at path) (check_dependencies E tools).
Proof.
  assert (Hshow : forall ev, keeps (same_at path) (show ev))
    by (intros ev; apply shows_same_at; auto with keeps).
  induction tools as [|tool rest IH]; cbn [check_dependencies];
    [auto with keeps|].
  destruct (which E tool); [exact IH|].
  apply keeps_bind; [apply _ | apply Hshow |]. intros _.
  apply keeps_bind; [apply _ | apply Hshow |]. intros _. auto with keeps.
Qed.

Lemma main_same_at (args : arguments) :
  path ≠ a_output args -> keeps (same_at path) (main E args).
Proof.
  intros Hout.
  assert (Hshow : forall ev, keeps (same_at path) (show ev))
    by (intros ev; apply shows_same_at; auto with keeps).
  assert (Hex : forall p, keeps (same_at path) (exists_ p))
    by (intros p; apply shows_same_at; auto with keeps).
  unfold main, main_from.
  apply keeps_bind; [apply _ | apply check_dependencies_same_at |]. intros _.
  apply keeps_bind; [apply _ | apply Hex |]. intros input_present.
  apply keeps_bind; [apply _ | |].
  { destruct (negb _); [|auto with keeps].
    apply keeps_bind; [apply _ | apply Hshow |]. intros _. auto with keeps. }
  intros _.
  apply keeps_bind; [apply _ | apply Hex |]. intros output_present.
  apply keeps_bind; [apply _ | |].
  { destruct (_ && _); [|auto with keeps].
    apply keeps_bind; [apply _ | auto with keeps |]. intros response.
    destruct (negb _); [|auto with keeps].
    apply keeps_bind; [apply _ | apply Hshow |]. intros _. auto with keeps. }
  intros _.
  apply keeps_bind; [apply _ | |].
  { destruct (_ && _); [apply Hshow | auto with keeps]. }
  intros _.
  apply keeps_try_except; [apply _ | |].
  - apply keeps_bind; [apply _ | |].
    + unfold lift. destruct (__init__ _ _ _ _ _); auto with keeps.
    + intros c. apply compress_same_at.
  - intros e. destruct e;
      try (apply keeps_bind; [apply _ | apply Hshow |]; intros _;
           auto with keeps; fail);
      (apply keeps_bind; [apply _ | apply Hshow |]; intros _;
       (apply keeps_bind; [apply _ | destruct (a_verbose args);
                                      [apply Hshow | auto with keeps] |]);
       intros _;
       (apply keeps_bind; [apply _ | apply Hex |]); intros present;
       (apply keeps_bind;
          [apply _ | apply shows_same_at; auto with keeps |]);
       intros size;
       (apply keeps_bind;
          [apply _ | destruct (_ && _);
                     [apply unlink_same_at; congruence | auto with keeps] |]);
       intros _; auto with keeps).
Qed.

End OtherFiles.

(** X8: the program leaves alone every file it does not own.  For a path
    that is neither the output nor a pass log, and that the encoder does
    not write, the entry after [main] is the entry before: the input and
    every unrelated file are neither deleted, created nor changed,
    however the run ends. *)
Theorem main_leaves_other_files
    (E : env) (args : arguments) (w : world) (path : string) :
  path ∉ passlog_files -> path ≠ a_output args ->
  (forall cmd fs, p_writes (ffmpeg E cmd fs) fs !! path = fs !! path) ->
  files (snd (main E args w)) !! path = files w !! path.
Proof.
  intros Hlog Hout Henc. exact (main_same_at E path Hlog Henc args Hout w).
Qed.

Lemma main_leaves_other_files_witness :
  let E := Sample.environment true (Fixture.encoder 1 0) in
  files (snd (main E (Sample.args 10 None false) (initial Sample.disk)))
    !! "in.mp4"
  = Some 50000000%N.
Proof.
  intros E.
  rewrite (main_leaves_other_files E (Sample.args 10 None false)
             (initial Sample.disk) "in.mp4").
  - reflexivity.
  - unfold passlog_files. intros H. apply list_elem_of_In in H. cbn in H.
    destruct H as [H | [H | []]]; discriminate H.
  - discriminate.
  - intros cmd fs. unfold E, Sample.environment, Fixture.encoder. cbn [ffmpeg].
    destruct (bool_decide ("-an" ∈ cmd)); cbn [Sample.proc p_writes];
      apply lookup_insert_ne; discriminate.
Defined.

(** ** The checks of [main] before the job *)

Lemma check_dependencies_result (E : env) (tools : list string) (w : world) :
  (Forall (fun tool => which E tool = true) tools
   /\ check_dependencies E tools w = (Ok tt, w))
  \/ (Exists (fun tool => which E tool = false) tools
      /\ exists w', check_dependencies E tools w = (Raise (SystemExit 1), w')
                    /\ only_shows w w').
Proof.
  induction tools as [|tool rest IH]; [left; split; [constructor | reflexivity]|].
  cbn [check_dependencies]. destruct (which E tool) eqn:Htool.
  - destruct IH as [[Hall Hok] | [Hex Hw]].
    + left. split; [constructor; assumption | exact Hok].
    + right. split; [now apply Exists_cons_tl | exact Hw].
  - right. split; [now apply Exists_cons_hd|].
    run. eexists. split; [reflexivity | repeat split].
Qed.

(** X9: an existing output is not overwritten without consent: when the
    output path exists, [--force] is not given and the answer to the
    question is not y or Y, the program ends with status 1, has changed no
    file and has started no process. *)
Theorem main_refuses_overwrite
    (E : env) (args : arguments) (w : world) (size : N) :
  files w !! a_output args = Some size -> a_force args = false ->
  answer E ≠ "y" -> answer E ≠ "Y" ->
  let r := main E args w in
  fst r = Raise (SystemExit 1) /\ only_shows w (snd r).
Proof.
  intros Hout Hforce Hy HY. cbv zeta.
  assert (H : exists w', main E args w = (Raise (SystemExit 1), w')
                         /\ only_shows w w').
  { unfold main, main_from. unfold mbind at 1, M_bind at 1.
    destruct (check_dependencies_result E ["ffmpeg"; "ffprobe"] w)
      as [[_ ->] | [_ (w' & -> & Hw')]]; [|eauto].
    run.
    destruct (bool_decide (is_Some (files w !! a_input args))); run;
      [|eexists; split; [reflexivity | repeat split]].
    rewrite Hout, Hforce.
    rewrite bool_decide_eq_true_2 by eauto. cbn [andb negb].
    destruct (String.eqb_spec (answer E) "y"); [contradiction|].
    destruct (String.eqb_spec (answer E) "Y"); [contradiction|].
    run. eexists. split; [reflexivity | repeat split]. }
  destruct H as (w' & -> & Hw'). split; [reflexivity | exact Hw'].
Qed.

Lemma main_refuses_overwrite_witness :
  let E := Sample.environment true (Fixture.encoder 0 900000) in
  let w := initial (<["out.mp4" := 123%N]> Sample.disk) in
  let r := main E (Sample.args 10 None false) w in
  fst r = Raise (SystemExit 1) /\ only_shows w (snd r).
Proof.
  intros E w r.
  apply (main_refuses_overwrite E (Sample.args 10 None false) w 123%N);
    [reflexivity | reflexivity | discriminate | discriminate].
Defined.

(** X10: without its tools or its input the program does nothing: when
    ffmpeg or ffprobe is not found, or the input path does not exist, it
    ends with status 1, has changed no file and has started no process. *)
Theorem main_needs_tools_and_input
    (E : env) (args : arguments) (w : world) :
  which E "ffmpeg" = false \/ which E "ffprobe" = false
  \/ files w !! a_input args = None ->
  let r := main E args w in
  fst r = Raise (SystemExit 1) /\ only_shows w (snd r).
Proof.
  intros Hmissing. cbv zeta.
  assert (H : exists w', main E args w = (Raise (SystemExit 1), w')
                         /\ only_shows w w').
  { unfold main, main_from. unfold mbind at 1, M_bind at 1.
    destruct (check_dependencies_result E ["ffmpeg"; "ffprobe"] w)
      as [[Hall ->] | [_ (w' & -> & Hw')]]; [|eauto].
    inversion Hall as [|? ? H1 Hall']; subst.
    inversion Hall' as [|? ? H2 _]; subst.
    destruct Hmissing as [H | [H | H]]; [congruence | congruence |].
    run. rewrite H.
    rewrite bool_decide_eq_false_2 by (intros [x Hx]; discriminate).
    run. eexists. split; [reflexivity | repeat split]. }
  destruct H as (w' & -> & Hw'). split; [reflexivity | exact Hw'].
Qed.

Lemma main_needs_tools_and_input_witness :
  let E := Sample.environment true (Fixture.encoder 0 900000) in
  let r := main E (Sample.args 10 None false) (initial ∅) in
  fst r = Raise (SystemExit 1) /\ only_shows (initial ∅) (snd r).
Proof.
  intros E r.
  apply (main_needs_tools_and_input E (Sample.args 10 None false) (initial ∅)).
  right. right. reflexivity.
Defined.

(** ** Failed runs and the output file *)

(** When [compress] leaves through [sys.exit], it does so from the probing
    stage and has changed no file. *)
Lemma compress_exit_keeps_files (E : env) (self : VideoCompressor)
    (w w' : world) (code : Z) :
  probe_stays E ->
  compress E self w = (Raise (SystemExit code), w') -> files w' = files w.
Proof.
  intros Hstay Hrun.
  assert (Hfail : probe_fails E).
  { destruct (compress_raises E self Hstay _ _ _ Hrun)
      as [[_ H] | [[H _] | H]]; [exact H | discriminate | discriminate]. }
  revert Hrun. unfold compress, _get_stream_info, probe_fails in *.
  unfold mbind at 1, M_bind at 1, try_except.
  unfold mbind at 1, M_bind at 1.
  unfold mbind at 1, M_bind at 1, probing.
  destruct (ffprobe E) as [e | [d [wd ht]]].
  - unfold raise at 1. cbv beta iota. rewrite Hfail.
    unfold mbind, M_bind, show, raise.
    intros H; inversion H; subst. reflexivity.
  - unfold mret at 1, M_ret at 1. cbv beta iota. rewrite Hfail.
    unfold raise at 1. cbv beta iota. cbn [is_Exception].
    unfold mbind, M_bind, show, raise.
    intros H; inversion H; subst. reflexivity.
Qed.

(** X11: a run that ends with status 1 leaves no empty output behind,
    unless it changed no file at all (it stopped before the job, or while
    probing): when the job fails after that, an output of zero bytes is
    removed. *)
Theorem failed_run_leaves_no_empty_output
    (E : env) (args : arguments) (w : world) :
  probe_stays E ->
  let r := main E args w in
  fst r = Raise (SystemExit 1) ->
  files (snd r) = files w \/ files (snd r) !! a_output args ≠ Some 0%N.
Proof.
  intros Hstay. cbv zeta.
  destruct (main E args w) as [o w'] eqn:Hmain. cbn [fst snd]. intros ->.
  revert Hmain. unfold main, main_from. unfold mbind at 1, M_bind at 1.
  destruct (check_dependencies_result E ["ffmpeg"; "ffprobe"] w)
    as [[_ ->] | [_ (w0 & -> & Hw0)]];
    [|intros H; inversion H; subst; left; exact (proj1 Hw0)].
  unfold mbind at 1, M_bind at 1, exists_ at 1.
  unfold mbind at 1, M_bind at 1.
  destruct (negb (bool_decide (is_Some (files w !! a_input args)))).
  { run. intros H; inversion H; subst. left. reflexivity. }
  unfold mret at 1, M_ret at 1.
  unfold mbind at 1, M_bind at 1, exists_ at 1.
  unfold mbind at 1, M_bind at 1.
  assert (Hask : (exists w1,
    (if bool_decide (is_Some (files w !! a_output args)) && negb (a_force args)
     then response ← mret (answer E);
          if negb ((response =? "y")%string || (response =? "Y")%string)
          then show (Print "Aborted by user.");; raise (SystemExit 1)
          else mret tt
     else mret tt) w
    = (Raise (SystemExit 1), w1) /\ files w1 = files w)
    \/ (if bool_decide (is_Some (files w !! a_output args)) && negb (a_force args)
        then response ← mret (answer E);
             if negb ((response =? "y")%string || (response =? "Y")%string)
             then show (Print "Aborted by user.");; raise (SystemExit 1)
             else mret tt
        else mret tt) w
       = (Ok tt, w)).
  { destruct (_ && _); run; [destruct (negb _)|]; run; eauto. }
  destruct Hask as [(w1 & -> & Hw1) | ->].
  { intros H; inversion H; subst. left. exact Hw1. }
  unfold mbind at 1, M_bind at 1.
  assert (Htip : exists w2,
    (if negb (TQDM_AVAILABLE E) && negb (a_verbose args)
     then show (Print "TIP: Install tqdm for beautiful progress bars: pip install tqdm")
     else mret tt) w = (Ok tt, w2) /\ files w2 = files w).
  { destruct (_ && _); run; eauto. }
  destruct Htip as (w2 & -> & Hw2).
  unfold try_except.
  match goal with |- context [(?body ≫= ?k) w2] =>
    destruct ((body ≫= k) w2) as [[[]|e] w3] eqn:Hbody
  end; [discriminate|].
  destruct e; cbn [is_Exception].
  1: { run. discriminate. }
  1: { intros H; inversion H; subst. left. rewrite <- Hw2.
       revert Hbody. unfold mbind, M_bind, lift.
       destruct (__init__ _ _ _ _ _) as [e0|c] eqn:Hinit.
       - unfold raise. intros H0; inversion H0; subst.
         apply init_failure in Hinit. discriminate.
       - unfold mret, M_ret. apply compress_exit_keeps_files. exact Hstay. }
  all: run; destruct (a_verbose args); run;
    (destruct (files w3 !! a_output args) as [n0|] eqn:Hl;
     [ rewrite bool_decide_eq_true_2 by eauto; cbn [andb from_option id];
       destruct (N.eqb_spec n0 0); run; intros H; inversion H; subst;
       right; cbn [files];
       [ rewrite lookup_delete_eq; discriminate | rewrite Hl; congruence ]
     | rewrite bool_decide_eq_false_2 by (intros [x Hx]; discriminate);
       cbn [andb]; run; intros H; inversion H; subst; right; cbn [files];
       rewrite Hl; discriminate ]).
Qed.

Lemma failed_run_leaves_no_empty_output_witness :
  let E := Sample.environment true (Fixture.encoder 1 0) in
  let r := main E (Sample.args 10 None false) (initial Sample.disk) in
  fst r = Raise (SystemExit 1) /\ files (snd r) !! "out.mp4" = None.
Proof.
  intros E r.
  assert (Hr : fst r = Raise (SystemExit 1)) by (vm_compute; reflexivity).
  split; [exact Hr|].
  destruct (failed_run_leaves_no_empty_output E (Sample.args 10 None false)
              (initial Sample.disk) I Hr) as [H | H].
  - vm_compute. reflexivity.
  - vm_compute. reflexivity.
Defined.

(** ** The sign of the video bitrate *)

Lemma fdiv_nonneg (x y : float) :
  nonneg x -> flt fzero y = true ->
  nonneg (fdiv x y) \/ fdiv x y = S754_nan.
Proof.
  destruct x as [[]|[]| |[] mx ex], y as [[]|[]| |[] my ey];
    cbn [nonneg]; intros Hx Hy;
    try contradiction; try (cbn in Hy; discriminate Hy);
    first [ right; reflexivity
          | left; exact I
          | left; apply fdiv_raw_nonneg ].
Qed.

Lemma fmul_nonneg_left (m : positive) (e : Z) (y : float) :
  nonneg y -> nonneg (fmul (S754_finite false m e) y).
Proof.
  destruct y as [[]|[]| |[] my ey]; cbn; try tauto.
  intros _. apply binary_round_aux_nonneg. lia.
Qed.

Lemma flt_false_nonneg (a b : float) :
  nonneg b -> flt a b = false -> nonneg a \/ a = S754_nan.
Proof.
  destruct a as [[]|[]| |[] ma ea], b as [[]|[]| |[] mb eb];
    cbn; try tauto; discriminate.
Qed.

Lemma positive_nonneg (d : float) : flt fzero d = true -> nonneg d.
Proof. destruct d as [[]|[]| |[] m e]; cbn; try discriminate; tauto. Qed.

Lemma trunc_nonneg (x : float) (k : Z) :
  nonneg x -> trunc x = Some k -> 0 <= k.
Proof.
  destruct x as [s|[]| |[] m e]; cbn [nonneg trunc]; try tauto;
    try discriminate; intros _ H; injection H as <-; [lia|].
  destruct e as [|p|p].
  - rewrite Z.shiftl_0_r. lia.
  - apply Z.shiftl_nonneg. lia.
  - apply Z.shiftr_nonneg. lia.
Qed.

(** X12: the video bitrate handed to the encoder is never negative: for
    every target size, negative ones included, and every positive
    duration, if the budget and the conversion to kbps succeed, the result
    is at least zero. *)
Theorem video_bitrate_never_negative
    (target : Z) (duration : float) (b : budget) (kbps : Z) :
  flt fzero duration = true ->
  bitrate_budget target duration = Ok b ->
  video_bitrate_kbps b duration = Ok kbps ->
  0 <= kbps.
Proof.
  intros Hd Hb Hk. pose proof (positive_nonneg duration Hd) as Hdn.
  assert (Hbits : nonneg (video_total_bits b) \/ video_total_bits b = S754_nan).
  { revert Hb. unfold bitrate_budget.
    destruct (of_int (target * 8388608)) as [total|]; [|discriminate].
    set (wanted := fsub _ _).
    assert (Hleast : nonneg (fmul (lit MIN_VIDEO_BITRATE) duration)).
    { change (lit MIN_VIDEO_BITRATE)
        with (S754_finite false 6871947673600000 (-37)).
      now apply fmul_nonneg_left. }
    destruct (flt wanted (fmul (lit MIN_VIDEO_BITRATE) duration)) eqn:Hfloor;
      intros H; injection H as <-; cbn [video_total_bits].
    - left. exact Hleast.
    - exact (flt_false_nonneg _ _ Hleast Hfloor). }
  revert Hk. unfold video_bitrate_kbps.
  assert (Hcases :
    match trunc (fdiv (fdiv (video_total_bits b) duration) (lit 1000)) with
    | Some k => 0 <= k
    | None => True
    end).
  { destruct Hbits as [Hbits | ->]; [|exact I].
    destruct (fdiv_nonneg _ _ Hbits Hd) as [Hq | ->]; [|exact I].
    change (lit 1000) with (S754_finite false 8796093022208000 (-43)).
    destruct (fdiv_nonneg (fdiv (video_total_bits b) duration)
                (S754_finite false 8796093022208000 (-43)) Hq eq_refl)
      as [Hr | ->];
      [|exact I].
    destruct (trunc _) as [k|] eqn:Ht; [|exact I].
    exact (trunc_nonneg _ _ Hr Ht). }
  destruct duration as [s|s| |s m e];
    try (cbn in Hd; discriminate);
    destruct (trunc _) as [k|]; try discriminate;
    intros H; inversion H; subst; exact Hcases.
Qed.

Lemma video_bitrate_never_negative_witness :
  exists b,
    bitrate_budget (-5) (of_decimal 8393 2) = Ok b
    /\ video_bitrate_kbps b (of_decimal 8393 2) = Ok 49 /\ 0 <= 49.
Proof.
  exists {| total_bits := -41943040; audio_bitrate_kbps := 64;
            overhead_percent := of_decimal 5 2;
            overhead_bits := fmul (lit (-41943040)) (of_decimal 5 2);
            audio_total_bits := fmul (lit 64000) (of_decimal 8393 2);
            video_total_bits := fmul (lit 50000) (of_decimal 8393 2);
            adjusted := Some (fdiv (fadd (fadd (fmul (lit 50000) (of_decimal 8393 2))
                                               (fmul (lit 64000) (of_decimal 8393 2)))
                                         (fmul (lit (-41943040)) (of_decimal 5 2)))
                                   (lit 8388608)) |}.
  assert (Hb : bitrate_budget (-5) (of_decimal 8393 2) = Ok _)
    by (vm_compute; reflexivity).
  assert (Hk : video_bitrate_kbps
                 {| total_bits := -41943040; audio_bitrate_kbps := 64;
                    overhead_percent := of_decimal 5 2;
                    overhead_bits := fmul (lit (-41943040)) (of_decimal 5 2);
                    audio_total_bits := fmul (lit 64000) (of_decimal 8393 2);
                    video_total_bits := fmul (lit 50000) (of_decimal 8393 2);
                    adjusted := Some (fdiv (fadd (fadd (fmul (lit 50000) (of_decimal 8393 2))
                                               (fmul (lit 64000) (of_decimal 8393 2)))
                                         (fmul (lit (-41943040)) (of_decimal 5 2)))
                                   (lit 8388608)) |}
                 (of_decimal 8393 2) = Ok 49) by (vm_compute; reflexivity).
  split; [|split; [exact Hk|]].
  - vm_compute. reflexivity.
  - exact (video_bitrate_never_negative (-5) (of_decimal 8393 2) _ 49
             ltac:(vm_compute; reflexivity) Hb Hk).
Defined.

(** ** Time markers *)

Lemma strip_prefix_char (a : ascii) (s r : string) :
  PyStr.strip_prefix (String a "") s = Some r -> s = String a r.
Proof.
  destruct s as [|b s]; cbn [PyStr.strip_prefix]; [discriminate|].
  destruct (Ascii.eqb_spec a b) as [-> | _]; [|discriminate].
  intros H; inversion H; reflexivity.
Qed.

(** What the marker pattern consumes at the head of a text. *)
Lemma match_time_at_shape (s g : string) :
  match_time_at s = Some g ->
  exists h m sec frac,
    (h ≠ "" /\ m ≠ "" /\ sec ≠ "" /\ frac ≠ "")
    /\ (PyStr.all_digits h = true /\ PyStr.all_digits m = true
        /\ PyStr.all_digits sec = true /\ PyStr.all_digits frac = true)
    /\ g = h +:+ ":" +:+ m +:+ ":" +:+ sec +:+ "." +:+ frac.
Proof.
  unfold match_time_at.
  destruct (PyStr.strip_prefix "time=" s) as [r0|]; [|discriminate].
  cbn [mbind option_bind].
  destruct (PyStr.span_digits r0) as [h r1] eqn:H1.
  destruct (String.eqb_spec h "") as [_ | Hh]; [discriminate|].
  destruct (PyStr.strip_prefix ":" r1) as [r2|]; [|discriminate].
  cbn [mbind option_bind].
  destruct (PyStr.span_digits r2) as [m r3] eqn:H2.
  destruct (String.eqb_spec m "") as [_ | Hm]; [discriminate|].
  destruct (PyStr.strip_prefix ":" r3) as [r4|]; [|discriminate].
  cbn [mbind option_bind].
  destruct (PyStr.span_digits r4) as [sec r5] eqn:H3.
  destruct (String.eqb_spec sec "") as [_ | Hs]; [discriminate|].
  destruct (PyStr.strip_prefix "." r5) as [r6|]; [|discriminate].
  cbn [mbind option_bind].
  destruct (PyStr.span_digits r6) as [frac r7] eqn:H4.
  destruct (String.eqb_spec frac "") as [_ | Hf]; [discriminate|].
  intros H; inversion H; subst g; clear H.
  apply span_digits_inv in H1 as (_ & H1 & _).
  apply span_digits_inv in H2 as (_ & H2 & _).
  apply span_digits_inv in H3 as (_ & H3 & _).
  apply span_digits_inv in H4 as (_ & H4 & _).
  exists h, m, sec, frac. repeat split; assumption.
Qed.

Lemma search_time_shape (line g : string) :
  search_time line = Some g ->
  exists h m sec frac,
    (h ≠ "" /\ m ≠ "" /\ sec ≠ "" /\ frac ≠ "")
    /\ (PyStr.all_digits h = true /\ PyStr.all_digits m = true
        /\ PyStr.all_digits sec = true /\ PyStr.all_digits frac = true)
    /\ g = h +:+ ":" +:+ m +:+ ":" +:+ sec +:+ "." +:+ frac.
Proof.
  induction line as [|c rest IH]; cbn [search_time];
    destruct (match_time_at _) as [g'|] eqn:Hat;
    try discriminate;
    try (intros H; inversion H; subst g'; exact (match_time_at_shape _ _ Hat)).
  exact IH.
Qed.

Lemma digit_not_colon (c : ascii) :
  PyStr.is_digit c = true -> Ascii.eqb c ":" = false.
Proof.
  intros H. destruct (Ascii.eqb_spec c ":") as [-> | _]; [|reflexivity].
  vm_compute in H. discriminate.
Qed.

Lemma split_on_colon_digits (d : string) :
  PyStr.all_digits d = true -> PyStr.split_on ":" d = [d].
Proof.
  induction d as [|c d IH]; [reflexivity|].
  rewrite all_digits_cons. intros H. apply andb_prop in H as [Hc Hd].
  cbn [PyStr.split_on]. rewrite (digit_not_colon c Hc), (IH Hd). reflexivity.
Qed.

Lemma split_on_colon_digits_then (d rest : string) :
  PyStr.all_digits d = true ->
  PyStr.split_on ":" (d +:+ String ":" rest) = d :: PyStr.split_on ":" rest.
Proof.
  induction d as [|c d IH]; [reflexivity|].
  rewrite all_digits_cons. intros H. apply andb_prop in H as [Hc Hd].
  rewrite append_cons. cbn [PyStr.split_on].
  rewrite (digit_not_colon c Hc), (IH Hd). reflexivity.
Qed.

Lemma split_on_colon_seconds (sec frac : string) :
  PyStr.all_digits sec = true -> PyStr.all_digits frac = true ->
  PyStr.split_on ":" (sec +:+ String "." frac) = [sec +:+ String "." frac].
Proof.
  intros Hs Hf. induction sec as [|c sec IH].
  - change ("" +:+ String "." frac) with (String "." frac).
    cbn [PyStr.split_on]. change (Ascii.eqb "." ":") with false.
    cbv iota. rewrite (split_on_colon_digits frac Hf). reflexivity.
  - rewrite all_digits_cons in Hs. apply andb_prop in Hs as [Hc Hs].
    rewrite append_cons. cbn [PyStr.split_on].
    rewrite (digit_not_colon c Hc), (IH Hs). reflexivity.
Qed.

(** [float] of a run of digits, and of digits with a fraction. *)
Lemma float_of_string_digits (d : string) :
  d ≠ "" -> PyStr.all_digits d = true ->
  float_of_string d = Some (of_decimal (Z.to_N (PyStr.digits_value d)) 0).
Proof.
  intros Hne Hd. unfold float_of_string.
  rewrite <- (append_empty_r d) at 1.
  rewrite (span_digits_app d "" Hd I).
  destruct d as [|c d]; [contradiction | reflexivity].
Qed.

Lemma float_of_string_fraction (sec frac : string) :
  sec ≠ "" -> frac ≠ "" ->
  PyStr.all_digits sec = true -> PyStr.all_digits frac = true ->
  float_of_string (sec +:+ String "." frac)
  = Some (of_decimal (Z.to_N (PyStr.digits_value (sec +:+ frac)))
                     (String.length frac)).
Proof.
  intros Hs0 Hf0 Hs Hf. unfold float_of_string.
  rewrite (span_digits_app sec (String "." frac) Hs eq_refl).
  destruct sec as [|c sec]; [contradiction|].
  change (Ascii.eqb "." ".") with true. rewrite Hf. cbn [andb].
  destruct (String.eqb_spec frac "") as [-> | _]; [contradiction|].
  reflexivity.
Qed.

Lemma parse_time_of_shape (h m sec frac : string) :
  h ≠ "" -> m ≠ "" -> sec ≠ "" -> frac ≠ "" ->
  PyStr.all_digits h = true -> PyStr.all_digits m = true ->
  PyStr.all_digits sec = true -> PyStr.all_digits frac = true ->
  _parse_time (h +:+ ":" +:+ m +:+ ":" +:+ sec +:+ "." +:+ frac)
  = fadd (fadd (fmul (of_decimal (Z.to_N (PyStr.digits_value h)) 0)
                     (lit 3600))
               (fmul (of_decimal (Z.to_N (PyStr.digits_value m)) 0)
                     (lit 60)))
         (of_decimal (Z.to_N (PyStr.digits_value (sec +:+ frac)))
                     (String.length frac)).
Proof.
  intros Hh0 Hm0 Hs0 Hf0 Hh Hm Hs Hf. unfold _parse_time.
  change (h +:+ ":" +:+ m +:+ ":" +:+ sec +:+ "." +:+ frac)
    with (h +:+ String ":" (m +:+ String ":" (sec +:+ String "." frac))).
  rewrite (split_on_colon_digits_then h _ Hh),
          (split_on_colon_digits_then m _ Hm),
          (split_on_colon_seconds sec frac Hs Hf).
  rewrite (float_of_string_digits h Hh0 Hh), (float_of_string_digits m Hm0 Hm),
          (float_of_string_fraction sec frac Hs0 Hf0 Hs Hf).
  reflexivity.
Qed.

(** Without the text [time=] there is no marker. *)
Lemma no_time_no_marker (line : string) :
  contains_time line = false -> search_time line = None.
Proof.
  induction line as [|c rest IH]; cbn [contains_time search_time];
    unfold match_time_at;
    destruct (PyStr.strip_prefix "time=" _); try discriminate;
    cbn [mbind option_bind]; [reflexivity | exact IH].
Qed.

(** X13: a marker the monitor finds is always read in full: the text the
    pattern matched consists of hours, minutes, seconds and a fraction,
    each a non-empty run of digits, and [_parse_time] returns
    hours * 3600 + minutes * 60 + seconds for it.  Its fallback to 0.0 is
    never taken on a matched marker. *)
Theorem matched_marker_is_parsed (line g : string) :
  search_time line = Some g ->
  exists h m sec frac,
    g = h +:+ ":" +:+ m +:+ ":" +:+ sec +:+ "." +:+ frac
    /\ float_of_string h = Some (of_decimal (Z.to_N (PyStr.digits_value h)) 0)
    /\ float_of_string m = Some (of_decimal (Z.to_N (PyStr.digits_value m)) 0)
    /\ float_of_string (sec +:+ "." +:+ frac)
       = Some (of_decimal (Z.to_N (PyStr.digits_value (sec +:+ frac)))
                          (String.length frac))
    /\ _parse_time g
       = fadd (fadd (fmul (of_decimal (Z.to_N (PyStr.digits_value h)) 0)
                          (lit 3600))
                    (fmul (of_decimal (Z.to_N (PyStr.digits_value m)) 0)
                          (lit 60)))
              (of_decimal (Z.to_N (PyStr.digits_value (sec +:+ frac)))
                          (String.length frac)).
Proof.
  intros Hg.
  destruct (search_time_shape line g Hg)
    as (h & m & sec & frac & (Hh0 & Hm0 & Hs0 & Hf0) & (Hh & Hm & Hs & Hf) & ->).
  exists h, m, sec, frac.
  split; [reflexivity|].
  split; [now apply float_of_string_digits|].
  split; [now apply float_of_string_digits|].
  split; [now apply float_of_string_fraction|].
  now apply parse_time_of_shape.
Qed.

Lemma matched_marker_is_parsed_witness :
  exists h m sec frac,
    "00:02:05.50" = h +:+ ":" +:+ m +:+ ":" +:+ sec +:+ "." +:+ frac
    /\ float_of_string h = Some (of_decimal (Z.to_N (PyStr.digits_value h)) 0)
    /\ float_of_string m = Some (of_decimal (Z.to_N (PyStr.digits_value m)) 0)
    /\ float_of_string (sec +:+ "." +:+ frac)
       = Some (of_decimal (Z.to_N (PyStr.digits_value (sec +:+ frac)))
                          (String.length frac))
    /\ _parse_time "00:02:05.50"
       = fadd (fadd (fmul (of_decimal (Z.to_N (PyStr.digits_value h)) 0)
                          (lit 3600))
                    (fmul (of_decimal (Z.to_N (PyStr.digits_value m)) 0)
                          (lit 60)))
              (of_decimal (Z.to_N (PyStr.digits_value (sec +:+ frac)))
                          (String.length frac)).
Proof.
  apply (matched_marker_is_parsed
           "frame= 3012 fps= 60 q=28.0 size=N/A time=00:02:05.50 bitrate=N/A").
  vm_compute. reflexivity.
Defined.

(** X14: the test for the text [time=] before the pattern search never
    hides a marker: on every line the search behind the test finds what
    the search alone finds. *)
Theorem time_test_hides_no_marker (line : string) :
  (if contains_time line then search_time line else None)
  = search_time line.
Proof.
  destruct (contains_time line) eqn:Hc; [reflexivity|].
  symmetry. now apply no_time_no_marker.
Qed.

(** ** What every run keeps, given what a pass keeps *)

Lemma keeps_bind_value {A B : Type} (R : world -> world -> Prop)
    `{!Transitive R} (m : M A) (f : A -> M B) :
  keeps R m ->
  (forall w a w1, m w = (Ok a, w1) -> R w1 (snd (f a w1))) ->
  keeps R (m ≫= f).
Proof.
  intros Hm Hf w. unfold mbind, M_bind.
  pose proof (Hm w) as H1. destruct (m w) as [[a|e] w1] eqn:Hmw;
    cbn [snd] in *.
  - etransitivity; [exact H1 | exact (Hf _ _ _ Hmw)].
  - exact H1.
Qed.

Lemma keeps_try_except_unhandled {A : Type} (R : world -> world -> Prop)
    (body : M A) (handles : exn -> bool) (handler : exn -> M A) :
  keeps R body -> raises_only (fun e => handles e = false) body ->
  keeps R (try_except body handles handler).
Proof.
  intros Hb Hr w. unfold try_except.
  pose proof (Hb w) as H1. destruct (body w) as [[a|e] w1] eqn:Hbw;
    cbn [snd] in *; [exact H1|].
  rewrite (Hr _ _ _ Hbw). exact H1.
Qed.

Lemma init_verbose (input output : string) (target_size : Z)
    (requested : option string) (verb : bool) (job : VideoCompressor) :
  __init__ input output target_size requested verb = inr job ->
  verbose job = verb.
Proof.
  unfold __init__.
  destruct (_normalize_resolution requested target_size) as [r|];
    [destruct (_ && _)|]; intros H; inversion H; reflexivity.
Qed.

Section Frame.

Context (E : env) (R : world -> world -> Prop).
Context `{!Reflexive R} `{!Transitive R}.
Context (verb : bool).
Hypothesis R_show : forall ev, is_progress ev = false -> keeps R (show ev).
Hypothesis R_unlink : forall path, keeps R (unlink path).
Hypothesis R_probing : keeps R probing.
Hypothesis R_pass :
  forall self cmd duration description,
    verbose self = verb ->
    keeps R (_run_ffmpeg E self cmd duration description).

Lemma exists_frame (path : string) : keeps R (exists_ path).
Proof. intros w. reflexivity. Qed.

Lemma st_size_frame (path : string) : keeps R (st_size path).
Proof. intros w. reflexivity. Qed.

Lemma cleanup_frame (logs : list string) : keeps R (cleanup_passlogs logs).
Proof.
  induction logs as [|logfile rest IH]; cbn [cleanup_passlogs];
    [auto with keeps|].
  apply keeps_bind; [apply _ | apply exists_frame |]. intros present.
  apply keeps_bind; [apply _ | destruct present; auto with keeps |].
  intros _. exact IH.
Qed.

Lemma two_pass_frame (self : VideoCompressor) (cmd1 cmd2 : list string)
    (duration : float) :
  verbose self = verb -> keeps R (two_pass E self cmd1 cmd2 duration).
Proof.
  intros Hv. unfold two_pass. apply keeps_try_except; [apply _ | |].
  - apply keeps_bind; [apply _ | now apply R_pass |]. intros _.
    apply keeps_bind; [apply _ | now apply R_pass |]. intros _.
    apply cleanup_frame.
  - intros e. apply keeps_bind; [apply _ | apply cleanup_frame |].
    intros _. auto with keeps.
Qed.

Lemma verify_output_frame (self : VideoCompressor)
    (target_res : option string) :
  keeps R (verify_output self target_res).
Proof.
  unfold verify_output.
  apply keeps_bind; [apply _ | apply exists_frame |]. intros present.
  destruct (negb present); [auto with keeps|].
  apply keeps_bind; [apply _ | apply st_size_frame |]. intros size.
  apply keeps_bind; [apply _ | auto with keeps |]. intros final.
  apply keeps_bind; [apply _ | now apply R_show |]. intros _.
  apply keeps_bind; [apply _ | now apply R_show |]. intros _.
  apply keeps_bind; [apply _ | |].
  { unfold opt. destruct (of_int _); auto with keeps. }
  intros target.
  apply keeps_bind; [apply _ | |].
  { destruct (_ =? _); auto with keeps. }
  intros _.
  apply keeps_bind; [apply _ | now apply R_show |]. intros _.
  destruct (flt _ _); [|auto with keeps].
  apply keeps_bind; [apply _ | now apply R_show |]. intros _.
  apply keeps_bind; [apply _ | now apply R_show |]. intros _.
  now apply R_show.
Qed.

Lemma compress_frame (self : VideoCompressor) :
  verbose self = verb -> keeps R (compress E self).
Proof.
  intros Hv. unfold compress.
  apply keeps_bind; [apply _ | |].
  { apply keeps_try_except; [apply _ | |].
    - apply keeps_bind; [apply _ | |].
      + unfold _get_stream_info.
        apply keeps_bind; [apply _ | exact R_probing |].
        intros _. destruct (ffprobe E) as [e | [d [wd ht]]]; auto with keeps.
      + intros [d r]. destruct (fle d fzero); auto with keeps.
    - intros e. apply keeps_bind; [apply _ | now apply R_show |]. intros _.
      auto with keeps. }
  intros [duration original_res].
  apply keeps_bind; [apply _ | now apply R_show |]. intros _.
  apply keeps_bind; [apply _ | now apply R_show |]. intros _.
  apply keeps_bind; [apply _ | |].
  { destruct (truthy _);
      (apply keeps_bind; [apply _ | now apply R_show |]);
      intros _; auto with keeps. }
  intros target_res.
  apply keeps_bind; [apply _ | auto with keeps |]. intros b.
  apply keeps_bind; [apply _ | |].
  { destruct (adjusted b); [|auto with keeps].
    apply keeps_bind; [apply _ | now apply R_show |]. intros _.
    now apply R_show. }
  intros _.
  apply keeps_bind; [apply _ | auto with keeps |]. intros kbps.
  apply keeps_bind; [apply _ | now apply R_show |]. intros _.
  apply keeps_bind; [apply _ | now apply R_show |]. intros _.
  apply keeps_bind; [apply _ | auto with keeps |]. intros base.
  apply keeps_bind; [apply _ | now apply two_pass_frame |]. intros _.
  apply verify_output_frame.
Qed.

Lemma check_dependencies_frame (tools : list string) :
  keeps R (check_dependencies E tools).
Proof.
  induction tools as [|tool rest IH]; cbn [check_dependencies];
    [auto with keeps|].
  destruct (which E tool); [exact IH|].
  apply keeps_bind; [apply _ | now apply R_show |]. intros _.
  apply keeps_bind; [apply _ | now apply R_show |]. intros _. auto with keeps.
Qed.

Lemma main_frame (args : arguments) :
  a_verbose args = verb -> keeps R (main E args).
Proof.
  intros Hv. unfold main, main_from.
  apply keeps_bind; [apply _ | apply check_dependencies_frame |]. intros _.
  apply keeps_bind; [apply _ | apply exists_frame |]. intros input_present.
  apply keeps_bind; [apply _ | |].
  { destruct (negb _); [|auto with keeps].
    apply keeps_bind; [apply _ | now apply R_show |]. intros _.
    auto with keeps. }
  intros _.
  apply keeps_bind; [apply _ | apply exists_frame |]. intros output_present.
  apply keeps_bind; [apply _ | |].
  { destruct (_ && _); [|auto with keeps].
    apply keeps_bind; [apply _ | auto with keeps |]. intros response.
    destruct (negb _); [|auto with keeps].
    apply keeps_bind; [apply _ | now apply R_show |]. intros _.
    auto with keeps. }
  intros _.
  apply keeps_bind; [apply _ | |].
  { destruct (_ && _); [now apply R_show | auto with keeps]. }
  intros _.
  apply keeps_try_except; [apply _ | |].
  - apply keeps_bind_value; [apply _ | |].
    + unfold lift. destruct (__init__ _ _ _ _ _); auto with keeps.
    + intros w0 c w1 Hc. apply compress_frame.
      unfold lift in Hc.
      destruct (__init__ _ _ _ _ _) as [e|c'] eqn:Hinit; [discriminate|].
      injection Hc as Hc _. rewrite <- Hc, <- Hv.
      exact (init_verbose _ _ _ _ _ _ Hinit).
  - intros e. destruct e;
      try (apply keeps_bind; [apply _ | now apply R_show |]; intros _;
           auto with keeps; fail);
      (apply keeps_bind; [apply _ | now apply R_show |]; intros _;
       (apply keeps_bind; [apply _ | destruct (a_verbose args);
                                      [now apply R_show | auto with keeps] |]);
       intros _;
       (apply keeps_bind; [apply _ | apply exists_frame |]); intros present;
       (apply keeps_bind; [apply _ | apply st_size_frame |]);
       intros size;
       (apply keeps_bind;
          [apply _ | destruct (_ && _);
                     [apply R_unlink | auto with keeps] |]);
       intros _; auto with keeps).
Qed.

End Frame.

(** ** The screen, the clock and the process group *)

#[local] Instance screen_grows_refl (P : event -> Prop) :
  Reflexive (screen_grows P).
Proof. intros w. exists []. rewrite app_nil_r. split; [reflexivity | constructor]. Qed.

#[local] Instance screen_grows_trans (P : event -> Prop) :
  Transitive (screen_grows P).
Proof.
  intros a b c (n1 & H1 & F1) (n2 & H2 & F2). exists (n1 ++ n2)%list.
  split; [rewrite H2, H1, app_assoc; reflexivity | now apply Forall_app].
Qed.

#[local] Instance kills_only_if_refl (C : Prop) : Reflexive (kills_only_if C).
Proof. intros w. left. reflexivity. Qed.

#[local] Instance kills_only_if_trans (C : Prop) : Transitive (kills_only_if C).
Proof.
  intros a b c [H1 | H1] [H2 | H2]; [left; congruence | right .. ]; assumption.
Qed.

#[local] Instance quiet_refl : Reflexive quiet.
Proof. intros w. repeat split. reflexivity. Qed.

#[local] Instance quiet_trans : Transitive quiet.
Proof.
  intros a b c (H1 & H2 & H3) (H4 & H5 & H6).
  split; [congruence|]. split; [congruence|]. etransitivity; eassumption.
Qed.

Lemma same_screen_grows {A : Type} (P : event -> Prop) (m : M A) :
  (forall w, shown (snd (m w)) = shown w) -> keeps (screen_grows P) m.
Proof.
  intros H w. exists []. rewrite app_nil_r. split; [apply H | constructor].
Qed.

Lemma show_screen_grows (P : event -> Prop) (ev : event) :
  P ev -> keeps (screen_grows P) (show ev).
Proof. intros H w. exists [ev]. split; [reflexivity | now constructor]. Qed.

Lemma only_shows_kills (C : Prop) {A : Type} (m : M A) :
  keeps only_shows m -> keeps (kills_only_if C) m.
Proof. apply keeps_weaken. intros w w' (_ & _ & _ & H). left. exact H. Qed.

(** *** A verbose pass *)

Lemma _run_ffmpeg_quiet (E : env) (self : VideoCompressor)
    (cmd : list string) (duration : float) (description : string) :
  verbose self = true ->
  keeps quiet (_run_ffmpeg E self cmd duration description).
Proof.
  intros Hv w. unfold _run_ffmpeg. rewrite Hv.
  assert (Hnew : screen_grows (fun ev => is_progress ev = false) w
                   {| files := p_writes (ffmpeg E cmd (files w)) (files w);
                      shown := (shown w ++ [Executing cmd])%list;
                      ticks := ticks w;
                      spawned := (spawned w ++ [cmd])%list;
                      probed := probed w; killed := killed w |}).
  { exists [Executing cmd]. split; [reflexivity | now constructor]. }
  unfold mbind, M_bind, show, Popen, raise, mret, M_ret.
  cbn [files shown ticks spawned probed killed].
  destruct (p_interrupt _); [repeat split; exact Hnew|].
  destruct (negb _); repeat split; exact Hnew.
Qed.

Lemma main_quiet (E : env) (args : arguments) :
  a_verbose args = true -> keeps quiet (main E args).
Proof.
  intros Hv. apply (main_frame E quiet true); [| | | | exact Hv].
  - intros ev Hev w. split; [reflexivity|]. split; [reflexivity|].
    exists [ev]. split; [reflexivity | now constructor].
  - intros path w. split; [reflexivity|]. split; [reflexivity|].
    apply (same_screen_grows _ (unlink path)). reflexivity.
  - intros w. split; [reflexivity|]. split; [reflexivity|].
    apply (same_screen_grows _ probing). reflexivity.
  - intros self cmd duration description Hs. now apply _run_ffmpeg_quiet.
Qed.

(** *** The process group *)

Lemma monitored_rest_no_kill (E : env) (C : Prop) (self : VideoCompressor)
    (bar : bool) (duration : float) (description : string)
    (start_time : float) (p : process) :
  p_interrupt p = None ->
  keeps (kills_only_if C)
    (unread ←
       try_finally
         (try_except
            (read_lines E bar duration description start_time
                        (p_stderr p) (p_interrupt p) fzero)
            (fun e => if e is KeyboardInterrupt then true else false)
            (fun e => show Interrupting;; kill_group;; raise e))
         (wait_timeout p;;
          if bar then show BarClose
          else if negb (verbose self) then show (Print "") else mret tt);
     if negb ((p_returncode p =? 0) || (p_returncode p =? 255))
     then raise (FFmpegFailed (p_returncode p)
                              (Some (PyStr.strip (String.concat "" unread))))
     else mret tt).
Proof.
  intros Hint. rewrite Hint.
  assert (Hshow : forall ev, keeps (kills_only_if C) (show ev))
    by (intros ev; apply only_shows_kills; auto with keeps).
  apply keeps_bind; [apply _ | |].
  - apply keeps_try_finally; [apply _ | |].
    + apply keeps_try_except_unhandled.
      * apply only_shows_kills, read_lines_only_shows.
      * eapply raises_only_weaken; [|apply read_lines_raises].
        intros e [[_ H] | [-> | ->]]; [now contradiction H | reflexivity ..].
    + apply keeps_bind; [apply _ | |].
      * unfold wait_timeout. destruct (p_exits_in_time p); auto with keeps.
      * intros _. destruct bar; [apply Hshow|].
        destruct (negb _); [apply Hshow | auto with keeps].
  - intros unread. destruct (negb _); auto with keeps.
Qed.

Lemma _run_ffmpeg_kills (E : env) (self : VideoCompressor)
    (cmd : list string) (duration : float) (description : string) :
  keeps (kills_only_if (verbose self = false /\ encoder_interrupted E))
    (_run_ffmpeg E self cmd duration description).
Proof.
  set (C := verbose self = false /\ encoder_interrupted E).
  unfold _run_ffmpeg. destruct (verbose self) eqn:Hv.
  - intros w. left.
    unfold mbind, M_bind, show, Popen, raise, mret, M_ret.
    cbn [files shown ticks spawned probed killed].
    destruct (p_interrupt _); [reflexivity|].
    destruct (negb _); reflexivity.
  - cbv zeta.
    apply keeps_bind; [apply _ | apply only_shows_kills; auto with keeps |].
    intros start_time.
    apply keeps_bind; [apply _ | |].
    { destruct (_ && _); apply only_shows_kills; auto with keeps. }
    intros _.
    apply keeps_bind_value; [apply _ | intros w; left; reflexivity |].
    intros w p w1 Hp. injection Hp as <- <-.
    destruct (p_interrupt (ffmpeg E cmd (files w))) as [n|] eqn:Hint.
    + right. split; [reflexivity|]. exists cmd, (files w).
      rewrite Hint. discriminate.
    + pose proof (monitored_rest_no_kill E C self
                    (TQDM_AVAILABLE E && flt (lit 5) duration
                     && flt fzero duration)
                    duration description start_time _ Hint) as H.
      rewrite Hv, Hint in H. apply H.
Qed.

Lemma main_kills (E : env) (args : arguments) :
  keeps (kills_only_if (a_verbose args = false /\ encoder_interrupted E))
    (main E args).
Proof.
  apply (main_frame E _ (a_verbose args)); [| | | | reflexivity].
  - intros ev _. apply only_shows_kills. auto with keeps.
  - intros path w. left. reflexivity.
  - intros w. left. reflexivity.
  - intros self cmd duration description <-. apply _run_ffmpeg_kills.
Qed.

(** *** The percentage of the status line *)

Lemma progress_percent (duration current_time : float) (progress : Z)
    (w w' : world) :
  nonneg current_time ->
  (if flt fzero duration
   then p ← int_of_float (fmul (fdiv current_time duration) (lit 100));
        mret (Z.min 100 p)
   else mret 0) w = (Ok progress, w') ->
  0 <= progress <= 100.
Proof.
  intros Hct. destruct (flt fzero duration) eqn:Hd.
  - unfold mbind, M_bind, int_of_float.
    remember (lit 100) as hundred eqn:Hlit. vm_compute in Hlit. subst hundred.
    destruct (fdiv_nonneg current_time duration Hct Hd) as [Hq | ->].
    + match goal with |- context [fmul ?q ?c] =>
        pose proof (fmul_lit_nonneg q _ _ Hq : nonneg (fmul q c)) as Hr
      end.
      destruct (trunc _) as [p|] eqn:Ht; [|discriminate].
      pose proof (trunc_nonneg _ _ Hr Ht) as Hp.
      intros Hrun; inversion Hrun; subst. lia.
    + discriminate.
  - intros Hrun; inversion Hrun; subst. lia.
Qed.

Lemma report_progress_percent (E : env) (bar : bool) (duration : float)
    (description : string) (start_time last_time current_time : float) :
  nonneg current_time ->
  keeps (screen_grows percent_ok)
    (report_progress E bar duration description start_time last_time
                     current_time).
Proof.
  intros Hct.
  assert (Htime : keeps (screen_grows percent_ok) (time_time E))
    by (apply same_screen_grows; reflexivity).
  unfold report_progress. destruct bar.
  - apply keeps_bind; [apply _ | exact Htime |]. intros t.
    apply keeps_bind; [apply _ | now apply show_screen_grows |].
    intros _. auto with keeps.
  - apply keeps_bind; [apply _ | exact Htime |]. intros t1.
    destruct (fle _ _); [|auto with keeps].
    apply keeps_bind; [apply _ | exact Htime |]. intros t2.
    apply keeps_bind_value; [apply _ | |].
    + apply same_screen_grows. intros w.
      destruct (flt fzero duration); [|reflexivity].
      unfold mbind, M_bind, int_of_float. destruct (trunc _); reflexivity.
    + intros w progress w1 Hp.
      pose proof (progress_percent _ _ _ _ _ Hct Hp) as Hbound.
      revert w1 Hp. 
      assert (Hrest : keeps (screen_grows percent_ok)
                (show (StatusLine description current_time progress
                         (if flt fzero (fsub t2 start_time)
                          then fdiv current_time (fsub t2 start_time)
                          else fzero));; time_time E)).
      { apply keeps_bind; [apply _ | now apply show_screen_grows |].
        intros _. exact Htime. }
      intros w1 _. apply Hrest.
Qed.

Lemma read_lines_percent (E : env) (bar : bool) (duration : float)
    (description : string) (start_time : float) (lines : list string) :
  forall (budget : option nat) (last_time : float),
    keeps (screen_grows percent_ok)
      (read_lines E bar duration description start_time lines budget
                  last_time).
Proof.
  induction lines as [|line rest IH]; intros budget last_time.
  - destruct budget as [[|n]|]; cbn [read_lines]; auto with keeps.
  - destruct budget as [[|n]|]; cbn [read_lines]; [auto with keeps | |];
      (apply keeps_bind; [apply _ | | intros t; apply IH]);
      (destruct (contains_time line); [destruct (search_time line)|];
       auto with keeps; apply report_progress_percent, _parse_time_nonneg).
Qed.

Lemma _run_ffmpeg_percent (E : env) (self : VideoCompressor)
    (cmd : list string) (duration : float) (description : string) :
  keeps (screen_grows percent_ok)
    (_run_ffmpeg E self cmd duration description).
Proof.
  unfold _run_ffmpeg. destruct (verbose self).
  - apply keeps_bind; [apply _ | now apply show_screen_grows |]. intros _.
    apply keeps_bind; [apply _ | apply same_screen_grows; reflexivity |].
    intros p.
    apply keeps_bind; [apply _ | destruct (p_interrupt p); auto with keeps |].
    intros _. destruct (negb _); auto with keeps.
  - cbv zeta.
    apply keeps_bind; [apply _ | apply same_screen_grows; reflexivity |].
    intros start_time.
    apply keeps_bind; [apply _ | |].
    { destruct (_ && _); now apply show_screen_grows. }
    intros _.
    apply keeps_bind; [apply _ | apply same_screen_grows; reflexivity |].
    intros p.
    apply keeps_bind; [apply _ | |].
    + apply keeps_try_finally; [apply _ | |].
      * apply keeps_try_except; [apply _ | apply read_lines_percent |].
        intros e.
        apply keeps_bind; [apply _ | now apply show_screen_grows |]. intros _.
        apply keeps_bind; [apply _ | apply same_screen_grows; reflexivity |].
        intros _. auto with keeps.
      * apply keeps_bind; [apply _ | |].
        -- unfold wait_timeout. destruct (p_exits_in_time p); auto with keeps.
        -- intros _. destruct (_ && _); [now apply show_screen_grows|].
           destruct (negb _); [now apply show_screen_grows | auto with keeps].
    + intros unread. destruct (negb _); auto with keeps.
Qed.

Lemma main_percent (E : env) (args : arguments) :
  keeps (screen_grows percent_ok) (main E args).
Proof.
  apply (main_frame E _ (a_verbose args)); [| | | | reflexivity].
  - intros ev Hev. apply show_screen_grows. destruct ev; try exact I.
    discriminate Hev.
  - intros path. apply same_screen_grows. reflexivity.
  - apply same_screen_grows. reflexivity.
  - intros self cmd duration description _. apply _run_ffmpeg_percent.
Qed.

(** X15: every percentage the program prints in a textual status line lies
    between 0 and 100, whatever times the encoder reports and whatever the
    clock says: what a run adds to the screen are events whose status
    lines carry such a percentage. *)
Theorem status_percentage_bounded (E : env) (args : arguments) (w : world) :
  exists new,
    shown (snd (main E args w)) = (shown w ++ new)%list
    /\ Forall percent_ok new.
Proof. exact (main_percent E args w). Qed.

(** X16: the program terminates the encoder's process group only when the
    user interrupted an encoder process of a run without [--verbose]: in
    every other run no process group is terminated. *)
Theorem kill_only_on_interruption (E : env) (args : arguments) (w : world) :
  killed (snd (main E args w)) = killed w
  \/ (a_verbose args = false
      /\ exists cmd fs, p_interrupt (ffmpeg E cmd fs) <> None).
Proof. exact (main_kills E args w). Qed.

(** X17: with [--verbose] the program shows nothing of its own progress
    display (no header, bar, status line or interruption notice), never
    reads the clock and never terminates a process group, however the run
    ends. *)
Theorem verbose_run_is_quiet (E : env) (args : arguments) (w : world) :
  a_verbose args = true ->
  let w' := snd (main E args w) in
  ticks w' = ticks w /\ killed w' = killed w
  /\ exists new, shown w' = (shown w ++ new)%list
                 /\ Forall (fun ev => is_progress ev = false) new.
Proof. intros Hv. exact (main_quiet E args Hv w). Qed.

Lemma verbose_run_is_quiet_witness :
  let E := Sample.environment true (Fixture.encoder 0 9000000) in
  let w' := snd (main E (Sample.args 10 None true) (initial Sample.disk)) in
  ticks w' = ticks (initial Sample.disk)
  /\ killed w' = killed (initial Sample.disk)
  /\ exists new, shown w' = (shown (initial Sample.disk) ++ new)%list
                 /\ Forall (fun ev => is_progress ev = false) new.
Proof.
  intros E.
  apply (verbose_run_is_quiet E (Sample.args 10 None true)
           (initial Sample.disk)).
  reflexivity.
Defined.

(** ** A process that does not exit *)

Lemma try_finally_raises {A : Type} (body : M A) (final : M unit) (e : exn) :
  (forall w, fst (final w) = Raise e) ->
  forall w, fst (try_finally body final w) = Raise e.
Proof.
  intros Hf w. unfold try_finally. destruct (body w) as [r w1].
  specialize (Hf w1). destruct (final w1) as [[[]|e'] w2]; cbn [fst] in *;
    [discriminate | injection Hf as ->; reflexivity].
Qed.

Lemma bind_raises {A B : Type} (m : M A) (f : A -> M B) (e : exn) (w : world) :
  fst (m w) = Raise e -> fst ((m ≫= f) w) = Raise e.
Proof.
  unfold mbind, M_bind. destruct (m w) as [[a|e'] w1]; cbn [fst];
    [discriminate | intros H; injection H as ->; reflexivity].
Qed.

(** X18: a monitored pass whose process has not exited when the wait of
    ten seconds ends raises the timeout error, whatever happened before:
    the timeout of the [finally] block replaces a normal end, an error of
    the progress arithmetic and also the user's interruption. *)
Theorem unfinished_process_times_out
    (E : env) (self : VideoCompressor) (cmd : list string)
    (duration : float) (description : string) (w : world) :
  verbose self = false ->
  p_exits_in_time (ffmpeg E cmd (files w)) = false ->
  fst (_run_ffmpeg E self cmd duration description w) = Raise TimeoutExpired.
Proof.
  intros Hv Hexit. unfold _run_ffmpeg. rewrite Hv. cbv zeta.
  unfold mbind at 1, M_bind at 1, time_time at 1.
  unfold mbind at 1, M_bind at 1.
  set (bar := TQDM_AVAILABLE E && flt (lit 5) duration && flt fzero duration).
  assert (Hhead : forall w0,
    (if bar then show (BarOpen description duration)
     else show (PassHeader description duration)) w0
    = (Ok tt, {| files := files w0;
                 shown := (shown w0 ++ [if bar then BarOpen description duration
                                        else PassHeader description duration])%list;
                 ticks := ticks w0; spawned := spawned w0;
                 probed := probed w0; killed := killed w0 |}))
    by (intros w0; destruct bar; reflexivity).
  rewrite Hhead. unfold mbind at 1, M_bind at 1, Popen at 1.
  cbn [files shown ticks spawned probed killed].
  apply bind_raises. apply try_finally_raises. intros w0.
  apply bind_raises. unfold wait_timeout. rewrite Hexit. reflexivity.
Qed.

Lemma unfinished_process_times_out_witness :
  fst (_run_ffmpeg Faulty.hanging (Sample.job 10 None false)
         ["ffmpeg"; "-i"; "in.mp4"] (of_decimal 8393 2) "Analysis Pass"
         (initial Sample.disk))
  = Raise TimeoutExpired.
Proof.
  apply (unfinished_process_times_out Faulty.hanging
           (Sample.job 10 None false)); reflexivity.
Defined.

(** ** A probe without a usable duration *)

(** X19: when ffprobe fails, or reports a duration that is not above
    zero, [compress] prints one error line and leaves through
    [sys.exit(1)]: no encoder process is started and no file is
    changed. *)
Theorem unusable_probe_stops_job
    (E : env) (self : VideoCompressor) (w : world) :
  probe_fails E ->
  let r := compress E self w in
  fst r = Raise (SystemExit 1)
  /\ files (snd r) = files w /\ spawned (snd r) = spawned w
  /\ exists e, shown (snd r) = (shown w ++ [ErrorLine e])%list.
Proof.
  intros Hfail. cbv zeta.
  assert (H : exists w' e,
            compress E self w = (Raise (SystemExit 1), w')
            /\ files w' = files w /\ spawned w' = spawned w
            /\ shown w' = (shown w ++ [ErrorLine e])%list).
  { unfold compress, _get_stream_info, probe_fails in *.
    unfold mbind at 1, M_bind at 1, try_except.
    unfold mbind at 1, M_bind at 1.
    unfold mbind at 1, M_bind at 1, probing.
    destruct (ffprobe E) as [e | [d [wd ht]]].
    - unfold raise at 1. cbv beta iota. rewrite Hfail.
      unfold mbind, M_bind, show, raise.
      eexists. exists e. repeat split.
    - unfold mret at 1, M_ret at 1. cbv beta iota. rewrite Hfail.
      unfold raise at 1. cbv beta iota. cbn [is_Exception].
      unfold mbind, M_bind, show, raise.
      eexists. exists InvalidDuration. repeat split. }
  destruct H as (w' & e & -> & Hf & Hs & Hshown).
  split; [reflexivity|]. split; [exact Hf|]. split; [exact Hs|].
  exists e. exact Hshown.
Qed.

Lemma unusable_probe_stops_job_witness :
  let r := compress Faulty.no_duration (Sample.job 10 None false)
             (initial Sample.disk) in
  fst r = Raise (SystemExit 1)
  /\ files (snd r) = files (initial Sample.disk)
  /\ spawned (snd r) = spawned (initial Sample.disk)
  /\ exists e, shown (snd r)
               = (shown (initial Sample.disk) ++ [ErrorLine e])%list.
Proof.
  apply (unusable_probe_stops_job Faulty.no_duration
           (Sample.job 10 None false) (initial Sample.disk)).
  reflexivity.
Defined.

(** ** The question before overwriting *)

Lemma bind_ext_at {A B : Type} (m : M A) (f g : A -> M B) (w : world) :
  (forall a w1, m w = (Ok a, w1) -> f a w1 = g a w1) ->
  (m ≫= f) w = (m ≫= g) w.
Proof.
  intros H. unfold mbind, M_bind.
  destruct (m w) as [[a|e] w1] eqn:Hm; [now apply H | reflexivity].
Qed.

(** X20: the answer at the prompt is read only when the output exists and
    [--force] is not given: with [--force], or without an existing
    output, the whole run is the same whatever the answer would be. *)
Theorem answer_read_only_on_conflict
    (E : env) (args : arguments) (w : world) (a : string) :
  a_force args = true \/ files w !! a_output args = None ->
  main (with_answer a E) args w = main E args w.
Proof.
  intros Hcase. unfold main, main_from.
  change (check_dependencies (with_answer a E)) with (check_dependencies E).
  apply bind_ext_at. intros [] w1 H1.
  assert (Hf1 : files w1 = files w).
  { pose proof (check_dependencies_frame E only_shows
                  (fun ev _ => show_only_shows ev) ["ffmpeg"; "ffprobe"] w)
      as Hk.
    rewrite H1 in Hk. exact (proj1 Hk). }
  apply bind_ext_at. intros input_present w2 H2.
  injection H2 as _ <-.
  apply bind_ext_at. intros [] w3 H3.
  assert (Hf3 : files w3 = files w).
  { destruct (negb input_present);
      unfold mbind, M_bind, show, raise, mret, M_ret in H3;
      [discriminate H3 | injection H3 as <-; exact Hf1]. }
  apply bind_ext_at. intros output_present w4 H4.
  injection H4 as <- <-.
  assert (Hcond : bool_decide (is_Some (files w3 !! a_output args))
                  && negb (a_force args) = false).
  { destruct Hcase as [-> | Hnone]; [apply andb_false_r|].
    rewrite Hf3, Hnone.
    rewrite bool_decide_eq_false_2 by (intros [x Hx]; discriminate).
    reflexivity. }
  rewrite !Hcond. reflexivity.
Qed.

Lemma answer_read_only_on_conflict_witness :
  let E := Sample.environment true (Fixture.encoder 0 9000000) in
  main (with_answer "y" E) (Sample.args 10 (Some "360p") false)
       (initial Sample.disk)
  = main E (Sample.args 10 (Some "360p") false) (initial Sample.disk).
Proof.
  intros E.
  apply (answer_read_only_on_conflict E (Sample.args 10 (Some "360p") false)
           (initial Sample.disk) "y").
  right. reflexivity.
Defined.

(** ** What exit status 0 means *)

Lemma bind_ok_inv {A B : Type} (m : M A) (f : A -> M B) (w w' : world)
    (b : B) :
  (m ≫= f) w = (Ok b, w') ->
  exists a w1, m w = (Ok a, w1) /\ f a w1 = (Ok b, w').
Proof.
  unfold mbind, M_bind. destruct (m w) as [[a|e] w1]; [eauto | discriminate].
Qed.

Lemma try_except_ok_inv {A : Type} (body : M A) (handles : exn -> bool)
    (handler : exn -> M A) (w w' : world) (a : A) :
  try_except body handles handler w = (Ok a, w') ->
  body w = (Ok a, w')
  \/ exists e w1, body w = (Raise e, w1) /\ handler e w1 = (Ok a, w').
Proof.
  unfold try_except. destruct (body w) as [[a'|e] w1]; [now left|].
  destruct (handles e); [right; eauto | discriminate].
Qed.

Lemma keeps_run {A : Type} (R : world -> world -> Prop) (m : M A)
    (w w1 : world) (r : outcome A) :
  keeps R m -> m w = (r, w1) -> R w w1.
Proof. intros Hk Hm. specialize (Hk w). rewrite Hm in Hk. exact Hk. Qed.

#[local] Instance no_encoder_refl : Reflexive no_encoder.
Proof. intros w. split; reflexivity. Qed.

#[local] Instance no_encoder_trans : Transitive no_encoder.
Proof. intros a b c [H1 H2] [H3 H4]. split; congruence. Qed.

Lemma only_shows_no_encoder {A : Type} (m : M A) :
  keeps only_shows m -> keeps no_encoder m.
Proof. apply keeps_weaken. intros w w' (H1 & H2 & _). now split. Qed.

Lemma init_paths (input output : string) (target_size : Z)
    (requested : option string) (verb : bool) (job : VideoCompressor) :
  __init__ input output target_size requested verb = inr job ->
  input_path job = input /\ output_path job = output.
Proof.
  unfold __init__.
  destruct (_normalize_resolution requested target_size) as [r|];
    [destruct (_ && _)|]; intros H; inversion H; split; reflexivity.
Qed.

(** A job that ends normally went through both passes and the
    verification. *)
Lemma compress_ok_inv (E : env) (self : VideoCompressor) (w w' : world) :
  compress E self w = (Ok tt, w') ->
  exists base kbps audio duration target_res wa wb,
    no_encoder w wa
    /\ two_pass E self (pass1_cmd base kbps (os_nt E))
         (pass2_cmd base kbps audio (output_path self)) duration wa
       = (Ok tt, wb)
    /\ verify_output self target_res wb = (Ok tt, w').
Proof.
  assert (Hshow : forall ev, keeps no_encoder (show ev))
    by (intros ev; apply only_shows_no_encoder; auto with keeps).
  unfold compress. intros H.
  apply bind_ok_inv in H as ([duration original_res] & w1 & H1 & H).
  assert (R1 : no_encoder w w1).
  { revert H1. apply (keeps_run no_encoder).
    apply keeps_try_except; [apply _ | |].
    - apply keeps_bind; [apply _ | |].
      + unfold _get_stream_info. apply keeps_bind; [apply _ | |].
        * intros w0. split; reflexivity.
        * intros _. destruct (ffprobe E) as [e | [d [wd ht]]]; auto with keeps.
      + intros [d r]. destruct (fle d fzero); auto with keeps.
    - intros e. apply keeps_bind; [apply _ | apply Hshow |]. intros _.
      auto with keeps. }
  apply bind_ok_inv in H as ([] & w2 & H2 & H).
  pose proof (keeps_run no_encoder _ _ _ _ (Hshow _) H2) as R2.
  apply bind_ok_inv in H as ([] & w3 & H3 & H).
  pose proof (keeps_run no_encoder _ _ _ _ (Hshow _) H3) as R3.
  apply bind_ok_inv in H as (target_res & w4 & H4 & H).
  assert (R4 : no_encoder w3 w4).
  { revert H4. apply (keeps_run no_encoder).
    destruct (truthy _); (apply keeps_bind; [apply _ | apply Hshow |]);
      intros _; auto with keeps. }
  apply bind_ok_inv in H as (b & w5 & H5 & H).
  assert (R5 : no_encoder w4 w5)
    by (revert H5; apply (keeps_run no_encoder); auto with keeps).
  apply bind_ok_inv in H as ([] & w6 & H6 & H).
  assert (R6 : no_encoder w5 w6).
  { revert H6. apply (keeps_run no_encoder).
    destruct (adjusted b); [|auto with keeps].
    apply keeps_bind; [apply _ | apply Hshow |]. intros _. apply Hshow. }
  apply bind_ok_inv in H as (kbps & w7 & H7 & H).
  assert (R7 : no_encoder w6 w7)
    by (revert H7; apply (keeps_run no_encoder); auto with keeps).
  apply bind_ok_inv in H as ([] & w8 & H8 & H).
  pose proof (keeps_run no_encoder _ _ _ _ (Hshow _) H8) as R8.
  apply bind_ok_inv in H as ([] & w9 & H9 & H).
  pose proof (keeps_run no_encoder _ _ _ _ (Hshow _) H9) as R9.
  apply bind_ok_inv in H as (base & w10 & H10 & H).
  assert (R10 : no_encoder w9 w10)
    by (revert H10; apply (keeps_run no_encoder); auto with keeps).
  apply bind_ok_inv in H as ([] & wb & Hpass & Hverify).
  exists base, kbps, (audio_bitrate_kbps b), duration, target_res, w10, wb.
  split; [|split; [exact Hpass | exact Hverify]].
  repeat (etransitivity; [eassumption|]). reflexivity.
Qed.

Lemma verify_output_ok_inv (self : VideoCompressor)
    (target_res : option string) (w w' : world) :
  verify_output self target_res w = (Ok tt, w') ->
  is_Some (files w !! output_path self) /\ only_shows w w'.
Proof.
  intros H. split.
  - unfold verify_output in H.
    apply bind_ok_inv in H as (present & w1 & H1 & H).
    unfold exists_ in H1. injection H1 as <- <-.
    destruct (bool_decide (is_Some (files w !! output_path self))) eqn:Hp;
      [now apply bool_decide_eq_true in Hp | discriminate H].
  - revert H. apply (keeps_run only_shows), verify_output_only_shows.
Qed.

Lemma without_passlogs_gone (fs : gmap string N) :
  without_passlogs fs !! "ffmpeg2pass" = None
  /\ without_passlogs fs !! "ffmpeg2pass.mbtree" = None.
Proof.
  unfold without_passlogs, passlog_files. cbn [foldl]. split.
  - rewrite lookup_delete_ne by discriminate. apply lookup_delete_eq.
  - apply lookup_delete_eq.
Qed.

(** The body of [main] ends normally only after a complete job. *)
Lemma main_from_ok_inv (E : env) (ask : M string) (args : arguments)
    (w w' : world) :
  keeps no_encoder ask ->
  main_from E ask args w = (Ok tt, w') ->
  is_Some (files w' !! a_output args)
  /\ (files w' !! "ffmpeg2pass" = None
      /\ files w' !! "ffmpeg2pass.mbtree" = None)
  /\ exists base kbps audio,
       spawned w'
       = (spawned w ++ [pass1_cmd base kbps (os_nt E);
                        pass2_cmd base kbps audio (a_output args)])%list.
Proof.
  intros Hask Hmain.
  assert (Hshow : forall ev, keeps no_encoder (show ev))
    by (intros ev; apply only_shows_no_encoder; auto with keeps).
  assert (Hex : forall p, keeps no_encoder (exists_ p))
    by (intros p; apply only_shows_no_encoder; auto with keeps).
  unfold main_from in Hmain.
  apply bind_ok_inv in Hmain as ([] & w1 & H1 & H).
  pose proof (keeps_run no_encoder _ _ _ _
                (check_dependencies_frame E no_encoder
                   (fun ev _ => Hshow ev) _) H1) as R1.
  apply bind_ok_inv in H as (input_present & w2 & H2 & H).
  pose proof (keeps_run no_encoder _ _ _ _ (Hex _) H2) as R2.
  apply bind_ok_inv in H as ([] & w3 & H3 & H).
  assert (R3 : no_encoder w2 w3).
  { revert H3. apply (keeps_run no_encoder).
    destruct (negb input_present); [|auto with keeps].
    apply keeps_bind; [apply _ | apply Hshow |]. intros _. auto with keeps. }
  apply bind_ok_inv in H as (output_present & w4 & H4 & H).
  pose proof (keeps_run no_encoder _ _ _ _ (Hex _) H4) as R4.
  apply bind_ok_inv in H as ([] & w5 & H5 & H).
  assert (R5 : no_encoder w4 w5).
  { revert H5. apply (keeps_run no_encoder).
    destruct (output_present && negb (a_force args)); [|auto with keeps].
    apply keeps_bind; [apply _ | exact Hask |]. intros response.
    destruct (negb ((response =? "y")%string || (response =? "Y")%string));
      [|auto with keeps].
    apply keeps_bind; [apply _ | apply Hshow |]. intros _. auto with keeps. }
  apply bind_ok_inv in H as ([] & w6 & H6 & H).
  assert (R6 : no_encoder w5 w6).
  { revert H6. apply (keeps_run no_encoder).
    destruct (negb (TQDM_AVAILABLE E) && negb (a_verbose args));
      [apply Hshow | auto with keeps]. }
  assert (R : no_encoder w w6).
  { repeat (etransitivity; [eassumption|]). reflexivity. }
  clear R1 R2 R3 R4 R5 R6 H1 H2 H3 H4 H5 H6.
  apply try_except_ok_inv in H as [H | (e & w7 & _ & H)].
  2:{ exfalso. revert H. destruct e; run;
        repeat match goal with
               | |- context [if ?c then _ else _] => destruct c; run
               end; discriminate. }
  apply bind_ok_inv in H as (c & w7 & Hc & H).
  unfold lift in Hc.
  destruct (__init__ _ _ _ _ _) as [e|c'] eqn:Hinit; [discriminate Hc|].
  injection Hc as -> <-.
  destruct (init_paths _ _ _ _ _ _ Hinit) as [_ Hout].
  apply compress_ok_inv in H
    as (base & kbps & audio & duration & tr & wa & wb & Ra & Hpass & Hver).
  apply verify_output_ok_inv in Hver as [Hpresent (Hf & Hs & _)].
  pose proof (two_pass_world E c (pass1_cmd base kbps (os_nt E))
                (pass2_cmd base kbps audio (output_path c)) duration wa)
    as [_ Hw].
  cbv zeta in Hw. rewrite Hpass in Hw. cbn [fst snd] in Hw.
  destruct (fst (_run_ffmpeg E c _ duration "Analysis Pass" wa));
    [|destruct Hw as [Hw _]; discriminate Hw].
  destruct Hw as [Hsp Hfs].
  rewrite Hf, Hs, <- Hout. split; [exact Hpresent|].
  split; [rewrite Hfs; apply without_passlogs_gone|].
  exists base, kbps, audio. rewrite Hsp.
  destruct R as [_ R]. destruct Ra as [_ Ra]. now rewrite Ra, R.
Qed.

Lemma input_no_encoder (E : env) : keeps no_encoder (input_ E).
Proof. unfold input_. destruct (prompt_error E); auto with keeps. Qed.

(** X21: exit status 0 means that help was asked for or that the work was
    done.  When [main], run from the command line, ends with status 0,
    either the command line asked for [--help] and nothing but printing
    happened, or [main] returned normally: then it has started exactly
    two encoder processes, the two passes over one base command with one
    video bitrate, the second of them writing to the output path; the
    output exists, and no file named ffmpeg2pass or ffmpeg2pass.mbtree
    is left. *)
Theorem success_means_encoded (E : env) (cli : command_line) (w : world) :
  probe_stays E ->
  let r := main_argv E cli w in
  exit_code (fst r) = 0 ->
  (exists text, cli = Help text /\ fst r = Raise (SystemExit 0)
                /\ only_shows w (snd r))
  \/ (exists args,
        cli = Parsed args /\ fst r = Ok tt
        /\ is_Some (files (snd r) !! a_output args)
        /\ (files (snd r) !! "ffmpeg2pass" = None
            /\ files (snd r) !! "ffmpeg2pass.mbtree" = None)
        /\ exists base kbps audio,
             spawned (snd r)
             = (spawned w ++ [pass1_cmd base kbps (os_nt E);
                              pass2_cmd base kbps audio (a_output args)])%list).
Proof.
  intros Hstay. cbv zeta.
  destruct cli as [args | message | text].
  - change (main_argv E (Parsed args) w)
      with (main_from E (input_ E) args w).
    destruct (main_from E (input_ E) args w) as [[[]|e] w'] eqn:Hmain;
      cbn [fst snd].
    + intros _. right. exists args.
      split; [reflexivity|]. split; [reflexivity|].
      exact (main_from_ok_inv E _ args w w' (input_no_encoder E) Hmain).
    + destruct (main_from_raises E (input_ E) _ args Hstay (input_raises E)
                  _ _ _ Hmain) as [-> | [[-> _] | (f & _ & ->)]];
        [discriminate | discriminate | destruct f; discriminate].
  - discriminate.
  - intros _. left. exists text. repeat split.
Qed.

Lemma success_means_encoded_witness :
  let E := Sample.environment true (Fixture.x264 0 9000000) in
  let cli := Parsed (Sample.args 10 None false) in
  let w := initial Sample.disk in
  let r := main_argv E cli w in
  (exists text, cli = Help text /\ fst r = Raise (SystemExit 0)
                /\ only_shows w (snd r))
  \/ (exists args,
        cli = Parsed args /\ fst r = Ok tt
        /\ is_Some (files (snd r) !! a_output args)
        /\ (files (snd r) !! "ffmpeg2pass" = None
            /\ files (snd r) !! "ffmpeg2pass.mbtree" = None)
        /\ exists base kbps audio,
             spawned (snd r)
             = (spawned w ++ [pass1_cmd base kbps (os_nt E);
                              pass2_cmd base kbps audio (a_output args)])%list).
Proof.
  intros E cli w.
  apply (success_means_encoded E cli w); [exact I|].
  vm_compute. reflexivity.
Defined.

(** ** A prompt that fails *)

(** X22: what [input] raises at the overwrite prompt leaves [main]: the
    call stands outside the [try] block.  With the tools and the input in
    place, an existing output and no [--force], a prompt that ends with
    EOFError or with Ctrl+C makes [main] end with that very exception
    (not with [sys.exit]), having changed no file and started no
    process. *)
Theorem failed_prompt_leaves_main
    (E : env) (args : arguments) (w : world) (size : N)
    (f : prompt_failure) :
  which E "ffmpeg" = true -> which E "ffprobe" = true ->
  is_Some (files w !! a_input args) ->
  files w !! a_output args = Some size -> a_force args = false ->
  prompt_error E = Some f ->
  let r := main_argv E (Parsed args) w in
  fst r = Raise (prompt_exn f) /\ only_shows w (snd r).
Proof.
  intros Hff Hfp Hin Hout Hforce Hprompt. cbv zeta.
  change (main_argv E (Parsed args) w) with (main_from E (input_ E) args w).
  unfold main_from, input_. cbn [check_dependencies].
  rewrite Hff, Hfp, Hprompt. run.
  rewrite bool_decide_eq_true_2 by exact Hin. run.
  rewrite Hout, Hforce.
  rewrite bool_decide_eq_true_2 by eauto. run.
  split; [reflexivity | repeat split].
Qed.

Lemma failed_prompt_leaves_main_witness :
  let w := initial (<["out.mp4" := 123%N]> Sample.disk) in
  let r := main_argv Faulty.closed_stdin
             (Parsed (Sample.args 10 None false)) w in
  fst r = Raise EOFError /\ only_shows w (snd r).
Proof.
  intros w.
  apply (failed_prompt_leaves_main Faulty.closed_stdin
           (Sample.args 10 None false) w 123%N EndOfInput);
    try reflexivity.
  vm_compute. eauto.
Defined.

(** ** The text of a pass failure (C7) *)

Lemma try_finally_ok_inv {A : Type} (body : M A) (final : M unit)
    (w w' : world) (a : A) :
  try_finally body final w = (Ok a, w') -> exists w1, body w = (Ok a, w1).
Proof.
  unfold try_finally. destruct (body w) as [r w1].
  destruct (final w1) as [[[]|e] w2]; intros H; inversion H; subst; eauto.
Qed.

(** When the monitored block ends normally, the loop has read the stream
    to its end: nothing is left for [process.stderr.read()]. *)
Lemma monitored_block_reads_all (E : env) (bar : bool) (duration : float)
    (description : string) (start_time : float) (p : process)
    (final : M unit) (w w' : world) (unread : list string) :
  try_finally
    (try_except
       (read_lines E bar duration description start_time
                   (p_stderr p) (p_interrupt p) fzero)
       (fun e => if e is KeyboardInterrupt then true else false)
       (fun e => show Interrupting;; kill_group;; raise e))
    final w
  = (Ok unread, w') ->
  unread = [].
Proof.
  intros H. apply try_finally_ok_inv in H as (w1 & H).
  apply try_except_ok_inv in H as [H | (e & w2 & _ & H)].
  - exact (proj1 (read_lines_reads_all _ _ _ _ _ _ _ _ _ _ _ H)).
  - unfold mbind, M_bind, show, kill_group, raise in H. discriminate H.
Qed.

(** C7 (failing): a pass fails exactly on the exit statuses the claim
    names (lemma [pass_exit_status_decides], verbose mode apart), but the
    failure never carries the diagnostics of the encoder.  Whatever the
    process wrote to its diagnostic stream, the text of the error is
    empty in monitored mode, where the loop has consumed the stream
    before [process.stderr.read()] is called, and absent in verbose mode,
    where the stream is not captured. *)
Theorem C7_failure_carries_no_diagnostics
    (E : env) (self : VideoCompressor) (cmd : list string)
    (duration : float) (description : string) (w : world)
    (code : Z) (tail : option string) :
  fst (_run_ffmpeg E self cmd duration description w)
  = Raise (FFmpegFailed code tail) ->
  tail = if verbose self then None else Some "".
Proof.
  set (P := fun e : exn =>
              forall code tail, e = FFmpegFailed code tail ->
                tail = if verbose self then None else Some "").
  assert (Hall : raises_only P (_run_ffmpeg E self cmd duration description)).
  { assert (Hother : forall e, (forall c t, e <> FFmpegFailed c t) -> P e)
      by (intros e He c t Heq; exfalso; exact (He c t Heq)).
    subst P. unfold _run_ffmpeg. cbv beta. destruct (verbose self).
    - apply raises_only_bind; [auto with raises|]. intros _.
      apply raises_only_bind; [auto with raises|]. intros p.
      apply raises_only_bind.
      { destruct (p_interrupt p); [|auto with raises].
        apply raises_only_raise. apply Hother. discriminate. }
      intros _. destruct (negb _); [|auto with raises].
      apply raises_only_raise. intros c t Heq. inversion Heq. reflexivity.
    - cbv zeta.
      apply raises_only_bind; [auto with raises|]. intros start_time.
      apply raises_only_bind; [destruct (_ && _); auto with raises|].
      intros _.
      apply raises_only_bind; [auto with raises|]. intros p.
      apply raises_only_bind_value.
      + apply raises_only_try_finally.
        * eapply raises_only_try_except; [apply read_lines_raises | |].
          -- intros e0 [[-> _] | [-> | ->]] _; apply Hother; discriminate.
          -- intros e0 He0 Hh. destruct e0; try discriminate Hh.
             apply raises_only_bind; [auto with raises|]. intros _.
             apply raises_only_bind; [auto with raises|]. intros _.
             apply raises_only_raise. apply Hother. discriminate.
        * apply raises_only_bind.
          -- unfold wait_timeout. destruct (p_exits_in_time p);
               [auto with raises|].
             apply raises_only_raise. apply Hother. discriminate.
          -- intros _. destruct (_ && _); [auto with raises|].
             destruct (negb _); auto with raises.
      + intros w0 unread w1 e w2 Hblock.
        apply monitored_block_reads_all in Hblock as ->.
        destruct (negb _); intros H; inversion H; subst.
        intros c t Heq. inversion Heq. reflexivity. }
  intros H.
  destruct (_run_ffmpeg E self cmd duration description w) as [o w'] eqn:Hr.
  cbn [fst] in H. subst o. exact (Hall _ _ _ Hr code tail eq_refl).
Qed.

(** A monitored pass whose encoder reports what went wrong and ends with
    status 1: the error has the status and none of the report. *)
Lemma C7_witness_lost_diagnostics :
  let report := [ "Unknown encoder 'libx264'"; "Conversion failed!" ] in
  let E := Sample.environment true
             (fun _ _ => Sample.proc report None (fun fs => fs) 1) in
  let r := fst (_run_ffmpeg E (Sample.job 10 (Some "426x240") false)
                  ["ffmpeg"] (of_decimal 8393 2) "Encoding Pass"
                  (initial Sample.disk)) in
  p_stderr (ffmpeg E ["ffmpeg"] Sample.disk) = report
  /\ exists tail, r = Raise (FFmpegFailed 1 tail) /\ tail = Some "".
Proof.
  intros report E r. split; [reflexivity|].
  assert (Hr : r = Raise (FFmpegFailed 1 (Some "")))
    by (vm_compute; reflexivity).
  exists (Some ""). split; [exact Hr|].
  exact (C7_failure_carries_no_diagnostics E
           (Sample.job 10 (Some "426x240") false) ["ffmpeg"]
           (of_decimal 8393 2) "Encoding Pass" (initial Sample.disk)
           1 (Some "") Hr).
Defined.
